(** * The ranking-and-curation pipeline of GAD (src/gad/digest.py, src/gad/models.py)

    A shallow embedding of the two-step digest pipeline:
      - the scorer and [pre_rank] (step 1),
      - the cache fingerprint [_items_hash] and the cache helpers,
      - the pydantic models of the digest and the validators they declare,
      - the fallback generator [_mock_digest] and [generate_digest_json] (step 2).

    Conventions.
      - A Python [str] is the list of its code points ([list N]); [len] is
        [length], [s[:k]] is [take k s].
      - A Python [float] is a binary64 value ([PrimFloat.float]); the scorer's
        arithmetic is carried out with the IEEE operations, in Python's
        evaluation order.
      - A Python [int] is a [Z]; positions and lengths are [nat].
      - [None] is [None]; a raised exception is the error side of a result.
      - What the code obtains from outside the repository ([str.lower] with
        its Unicode case tables, [datetime.strptime], the wall clock,
        [json.loads], pydantic's scalar coercion and serializer, the OpenAI
        client) is a [Variable] of the section, with only the laws the
        development needs as [Hypothesis]. *)

From Stdlib Require Import ZArith NArith List Bool Lia String Ascii QArith Qabs.
From Stdlib Require Import Permutation Sorting.Sorted DecimalString DecimalNat.
From Stdlib Require Import Floats Numbers.Cyclic.Int63.Uint63.
From stdpp Require Import base option list sorting gmap.

Set Warnings "-inexact-float,-register-all".
Local Open Scope Z_scope.

(** ** Python text *)

Abbreviation str := (list N) (only parsing).

(** [u "..."] is the Python literal with the same (ASCII) characters. *)
Fixpoint u (s : string) : list N :=
  match s with
  | EmptyString => []
  | String a s' => N_of_ascii a :: u s'
  end.

(** [a == b] on [str]. *)
Fixpoint str_eqb (a b : str) : bool :=
  match a, b with
  | [], [] => true
  | x :: a', y :: b' => (x =? y)%N && str_eqb a' b'
  | _, _ => false
  end.

(** [x or d] for an optional text: [None] and [""] are both falsy. *)
Definition or_str (x : option str) (d : str) : str :=
  match x with
  | Some (c :: s) => c :: s
  | _ => d
  end.

(** [x or y] where both sides are optional texts ([item.content or item.snippet]). *)
Definition or_opt (x y : option str) : option str :=
  match x with
  | Some (c :: s) => Some (c :: s)
  | _ => y
  end.

(** [str.lower()] follows the Unicode case tables (it can even change the
    length of a text) and is a [Variable] named [lower] wherever the code
    calls it.  The one law used, and only where a statement names a concrete
    ASCII text: on ASCII text it maps A-Z to a-z and keeps the rest. *)
Definition ascii_lower_cp (c : N) : N :=
  if ((65 <=? c) && (c <=? 90))%N then (c + 32)%N else c.

Definition is_ascii (s : str) : Prop := Forall (fun c => (c < 128)%N) s.

Definition lower_on_ascii (lower : str -> str) : Prop :=
  forall s, is_ascii s -> lower s = ascii_lower_cp <$> s.

(** [str.isspace] on one code point. *)
Definition is_space (c : N) : bool :=
  (((9 <=? c) && (c <=? 13)) || ((28 <=? c) && (c <=? 32))
   || (c =? 133) || (c =? 160) || (c =? 5760)
   || ((8192 <=? c) && (c <=? 8202))
   || (c =? 8232) || (c =? 8233) || (c =? 8239) || (c =? 8287) || (c =? 12288))%N.

Fixpoint lstrip (p : N -> bool) (s : str) : str :=
  match s with
  | [] => []
  | c :: s' => if p c then lstrip p s' else s
  end.

Definition rstrip (p : N -> bool) (s : str) : str := rev (lstrip p (rev s)).

(** [s.strip()] is [strip is_space s]; [s.strip("-")] is [strip is_hyphen s]. *)
Definition strip (p : N -> bool) (s : str) : str := rstrip p (lstrip p s).

Definition is_hyphen (c : N) : bool := (c =? 45)%N.

Fixpoint starts_with (k s : str) : bool :=
  match k, s with
  | [], _ => true
  | _ :: _, [] => false
  | a :: k', b :: s' => (a =? b)%N && starts_with k' s'
  end.

(** [k in s] for texts: [k] occurs as a contiguous substring of [s]. *)
Fixpoint contains (k s : str) : bool :=
  starts_with k s ||
  match s with
  | [] => false
  | _ :: s' => contains k s'
  end.

(** [a < b] on [str]: lexicographic by code point. *)
Fixpoint str_ltb (a b : str) : bool :=
  match a, b with
  | _, [] => false
  | [], _ :: _ => true
  | x :: a', y :: b' => (x <? y)%N || ((x =? y)%N && str_ltb a' b')
  end.

(** [str(i)] for a non-negative integer. *)
Definition str_of_nat (n : nat) : str :=
  u (NilZero.string_of_uint (Nat.to_uint n)).

(** ** A stable sort by [<], as [list.sort] and [sorted] are *)

Section Sort.
Context {A : Type} (lt : A -> A -> bool).

Fixpoint py_insert (x : A) (l : list A) : list A :=
  match l with
  | [] => [x]
  | y :: l' => if lt y x then y :: py_insert x l' else x :: y :: l'
  end.

Definition py_sort (l : list A) : list A := foldr py_insert [] l.
End Sort.

(** [l[:k]] for any integer [k]: a negative bound counts from the end and is
    clamped at 0. *)
Definition slice_to {A} (l : list A) (k : Z) : list A :=
  if 0 <=? k then take (Z.to_nat k) l
  else take (Z.to_nat (Z.of_nat (length l) + k)) l.

(** ** models.py: the pipeline's input item *)

Record DigestItemInput := {
  title : str;
  url : str;
  source : option str;
  date : option str;
  snippet : option str;
  content : option str;
  author : option str;
  tags : list str
}.

(** ** digest.py: the scorer *)

(** [_SOURCE_WEIGHTS], in the dict's insertion order (the order the lookup
    loop visits it). *)
Definition _SOURCE_WEIGHTS : list (str * Z) :=
  [ (u "openai", 5); (u "anthropic", 5); (u "google", 5); (u "deepmind", 5);
    (u "meta", 5); (u "microsoft", 4); (u "nvidia", 4); (u "arxiv", 4);
    (u "huggingface", 4); (u "stability", 4); (u "mistral", 4); (u "cohere", 4);
    (u "together", 3); (u "github", 3); (u "techcrunch", 3); (u "theverge", 3);
    (u "venturebeat", 3); (u "hacker news", 2); (u "reddit", 2) ].

(** The loop of [_source_weight] over a table: the first key found in the
    source label or in the URL decides; 2 when none is. *)
Fixpoint source_weight_in (table : list (str * Z)) (src url_ : str) : Z :=
  match table with
  | [] => 2
  | (key, weight) :: rest =>
      if contains key src || contains key url_ then weight
      else source_weight_in rest src url_
  end.

(** A naive [datetime] is the count of microseconds from a fixed origin;
    [(a - b).days] is the floor of the difference in whole days. *)
Definition timedelta_days (a b : Z) : Z := (a - b) / 86400000000.

Definition date_formats : list str :=
  [ u "%Y-%m-%d"; u "%Y-%m-%dT%H:%M:%S"; u "%Y-%m-%dT%H:%M:%SZ" ].

Section Scorer.
(** [str.lower()] *)
Variable lower : str -> str.
(** [datetime.strptime text fmt]: the parsed instant, or [None] for
    [ValueError]. *)
Variable strptime : str -> str -> option Z.

Definition _source_weight (item : DigestItemInput) : Z :=
  source_weight_in _SOURCE_WEIGHTS (lower (or_str (source item) [])) (lower (url item)).

(** The [for fmt in (...): try ... break / except ValueError: continue]
    loop: the first format that parses wins. *)
Fixpoint first_parse (fmts : list str) (text : str) : option Z :=
  match fmts with
  | [] => None
  | fmt :: rest =>
      match strptime text fmt with
      | Some dt => Some dt
      | None => first_parse rest text
      end
  end.

(** [_freshness_score], with the clock reading [now] that
    [datetime.now(timezone.utc).replace(tzinfo=None)] returns. *)
Definition _freshness_score (now : Z) (item : DigestItemInput) : float :=
  match date item with
  | None | Some [] => 2.0%float
  | Some d =>
      match first_parse date_formats (take 19 d) with
      | None => 2.0%float
      | Some dt =>
          let days_old := timedelta_days now dt in
          if days_old <=? 1 then 5.0%float
          else if days_old <=? 3 then 4.0%float
          else if days_old <=? 7 then 3.0%float
          else if days_old <=? 30 then 2.0%float
          else 1.0%float
      end
  end.

Definition _content_length_score (item : DigestItemInput) : float :=
  let text := or_str (or_opt (content item) (snippet item)) [] in
  let length_ := Z.of_nat (length text) in
  if 5000 <? length_ then 5.0%float
  else if 2000 <? length_ then 4.0%float
  else if 500 <? length_ then 3.0%float
  else if 100 <? length_ then 2.0%float
  else 1.0%float.

(** [int] to [float], as the product [0.4 * weight] converts its operand. *)
Definition float_of_int (z : Z) : float := PrimFloat.of_uint63 (Uint63.of_Z z).

(** The weighted sum, evaluated left to right as Python does. *)
Definition weighted_sum (w : Z) (f c : float) : float :=
  (0.4 * float_of_int w + 0.3 * f + 0.3 * c)%float.

(** The [score] that [pre_rank] computes for one item. *)
Definition composite_score (now : Z) (item : DigestItemInput) : float :=
  weighted_sum (_source_weight item) (_freshness_score now item)
               (_content_length_score item).

(** ** digest.py: [pre_rank] *)

(** One entry of [scored]: [(score, idx, item)]. *)
Definition scored_entry : Type := float * nat * DigestItemInput.

Definition entry_score (t : scored_entry) : float := t.1.1.
Definition entry_idx (t : scored_entry) : nat := t.1.2.
Definition entry_item (t : scored_entry) : DigestItemInput := t.2.

(** [(-a[0], a[1]) < (-b[0], b[1])] on the sort keys: tuples compare by the
    first component that differs. *)
Definition key_ltb (a b : scored_entry) : bool :=
  if (- entry_score a =? - entry_score b)%float
  then Nat.ltb (entry_idx a) (entry_idx b)
  else (- entry_score a <? - entry_score b)%float.

(** The list [scored] after the loop.  [clock idx] is the clock reading
    taken while item number [idx] is scored. *)
Definition score_all (clock : nat -> Z) (items : list DigestItemInput)
  : list scored_entry :=
  imap (fun idx item => (composite_score (clock idx) item, idx, item)) items.

(** [scored[:top_k]] after [scored.sort(key=lambda t: (-t[0], t[1]))]. *)
Definition ranked_entries (clock : nat -> Z) (items : list DigestItemInput)
    (top_k : Z) : list scored_entry :=
  slice_to (py_sort key_ltb (score_all clock items)) top_k.

Definition pre_rank (clock : nat -> Z) (items : list DigestItemInput)
    (top_k : Z) : list DigestItemInput :=
  entry_item <$> ranked_entries clock items top_k.
End Scorer.

(** ** digest.py: the cache fingerprint *)

(** *** [json.dumps(keys, ensure_ascii=False)] on a list of texts *)

Definition hex_digit (n : Z) : N :=
  if n <? 10 then Z.to_N (48 + n) else Z.to_N (87 + n).

(** One character inside a JSON string: the quote, the backslash and the
    control characters below U+0020 are escaped, everything else is copied. *)
Definition json_escape_cp (c : N) : str :=
  if (c =? 34)%N then [92; 34]%N
  else if (c =? 92)%N then [92; 92]%N
  else if (c =? 10)%N then u "\n"
  else if (c =? 13)%N then u "\r"
  else if (c =? 9)%N then u "\t"
  else if (c =? 8)%N then u "\b"
  else if (c =? 12)%N then u "\f"
  else if (c <? 32)%N then
    u "\u00" ++ [hex_digit (Z.of_N c / 16); hex_digit (Z.of_N c mod 16)]
  else [c].

Definition json_string (s : str) : str :=
  [34%N] ++ concat (json_escape_cp <$> s) ++ [34%N].

Fixpoint join (sep : str) (parts : list str) : str :=
  match parts with
  | [] => []
  | [p] => p
  | p :: rest => p ++ sep ++ join sep rest
  end.

Definition json_dumps_strs (keys : list str) : str :=
  u "[" ++ join (u ", ") (json_string <$> keys) ++ u "]".

(** *** [.encode("utf-8")] *)

(** A surrogate code point (U+D800..U+DFFF).  A Python text can hold one on
    its own (pydantic's plain [str] fields accept it, [json.loads] produces
    it from an escape), and the strict UTF-8 encoder refuses it. *)
Definition is_surrogate (c : N) : bool := ((0xD800 <=? c) && (c <=? 0xDFFF))%N.

(** The bytes of one code point, by its range. *)
Definition utf8_cp (c : N) : list Z :=
  let z := Z.of_N c in
  if z <? 0x80 then [z]
  else if z <? 0x800 then
    [Z.lor 0xC0 (Z.shiftr z 6); Z.lor 0x80 (Z.land z 0x3F)]
  else if z <? 0x10000 then
    [Z.lor 0xE0 (Z.shiftr z 12); Z.lor 0x80 (Z.land (Z.shiftr z 6) 0x3F);
     Z.lor 0x80 (Z.land z 0x3F)]
  else
    [Z.lor 0xF0 (Z.land (Z.shiftr z 18) 0x07);
     Z.lor 0x80 (Z.land (Z.shiftr z 12) 0x3F);
     Z.lor 0x80 (Z.land (Z.shiftr z 6) 0x3F); Z.lor 0x80 (Z.land z 0x3F)].

(** [s.encode("utf-8")]: [None] for [UnicodeEncodeError], raised when the
    text holds a surrogate. *)
Definition has_surrogate (s : str) : bool := existsb is_surrogate s.

Definition encode_utf8 (s : str) : option (list Z) :=
  if has_surrogate s then None else Some (concat (utf8_cp <$> s)).

(** *** [hashlib.sha256(blob).hexdigest()] (FIPS 180-4) *)

Module SHA256.

Definition w32 (x : Z) : Z := Z.land x 0xFFFFFFFF.
Definition add32 (x y : Z) : Z := w32 (x + y).
Definition rotr (n x : Z) : Z := Z.lor (Z.shiftr x n) (w32 (Z.shiftl x (32 - n))).
Definition not32 (x : Z) : Z := Z.lxor x 0xFFFFFFFF.

Definition Ch (x y z : Z) : Z := Z.lxor (Z.land x y) (Z.land (not32 x) z).
Definition Maj (x y z : Z) : Z :=
  Z.lxor (Z.lxor (Z.land x y) (Z.land x z)) (Z.land y z).
Definition bsig0 (x : Z) : Z := Z.lxor (Z.lxor (rotr 2 x) (rotr 13 x)) (rotr 22 x).
Definition bsig1 (x : Z) : Z := Z.lxor (Z.lxor (rotr 6 x) (rotr 11 x)) (rotr 25 x).
Definition ssig0 (x : Z) : Z := Z.lxor (Z.lxor (rotr 7 x) (rotr 18 x)) (Z.shiftr x 3).
Definition ssig1 (x : Z) : Z := Z.lxor (Z.lxor (rotr 17 x) (rotr 19 x)) (Z.shiftr x 10).

(** The first 64 primes. *)
Definition primes : list Z :=
  [ 2; 3; 5; 7; 11; 13; 17; 19; 23; 29; 31; 37; 41; 43; 47; 53; 59; 61; 67;
    71; 73; 79; 83; 89; 97; 101; 103; 107; 109; 113; 127; 131; 137; 139; 149;
    151; 157; 163; 167; 173; 179; 181; 191; 193; 197; 199; 211; 223; 227; 229;
    233; 239; 241; 251; 257; 263; 269; 271; 277; 281; 283; 293; 307; 311 ].

(** The integer cube root, by bisection: [lo ^ 3 <= n < hi ^ 3] throughout. *)
Fixpoint cbrt_between (fuel : nat) (lo hi n : Z) : Z :=
  match fuel with
  | O => lo
  | S fuel' =>
      let mid := (lo + hi) / 2 in
      if mid =? lo then lo
      else if mid * mid * mid <=? n then cbrt_between fuel' mid hi n
      else cbrt_between fuel' lo mid n
  end.

(** The round constants: the first 32 bits of the fractional parts of the
    cube roots of the first 64 primes. *)
Definition K : list Z :=
  Eval vm_compute in
    (fun p => w32 (cbrt_between 64 0 (2 ^ 36) (p * 2 ^ 96))) <$> primes.

Record state := State { ha : Z; hb : Z; hc : Z; hd : Z; he : Z; hf : Z; hg : Z; hh : Z }.

(** The initial hash value: the first 32 bits of the fractional parts of the
    square roots of the first 8 primes. *)
Definition frac_sqrt (p : Z) : Z := w32 (Z.sqrt (p * 2 ^ 64)).

Definition H0 : state :=
  Eval vm_compute in
    State (frac_sqrt 2) (frac_sqrt 3) (frac_sqrt 5) (frac_sqrt 7)
          (frac_sqrt 11) (frac_sqrt 13) (frac_sqrt 17) (frac_sqrt 19).

(** The message followed by 0x80, zero bytes up to 56 mod 64, and the bit
    length as 8 big-endian bytes. *)
Definition be_bytes (n : nat) (x : Z) : list Z :=
  (fun i => Z.land (Z.shiftr x (8 * Z.of_nat (n - 1 - i))) 0xFF) <$> seq 0 n.

Definition pad (msg : list Z) : list Z :=
  let len := Z.of_nat (length msg) in
  let zeros := Z.to_nat ((55 - len) mod 64) in
  msg ++ [0x80] ++ replicate zeros 0 ++ be_bytes 8 (8 * len).

Fixpoint chunks (fuel size : nat) (l : list Z) : list (list Z) :=
  match fuel, l with
  | O, _ | _, [] => []
  | S fuel', _ => take size l :: chunks fuel' size (drop size l)
  end.

Definition be_word (bs : list Z) : Z :=
  foldl (fun acc b => Z.lor (Z.shiftl acc 8) b) 0 bs.

Definition block_words (block : list Z) : list Z :=
  be_word <$> chunks 16 4 block.

(** The message schedule: 48 further words after the block's 16. *)
Fixpoint extend (n : nat) (w : list Z) : list Z :=
  match n with
  | O => w
  | S n' =>
      let t := length w in
      let at_ (k : nat) := nth (t - k) w 0 in
      extend n' (w ++ [add32 (add32 (ssig1 (at_ 2%nat)) (at_ 7%nat))
                             (add32 (ssig0 (at_ 15%nat)) (at_ 16%nat))])
  end.

Definition round (s : state) (kw : Z * Z) : state :=
  let t1 := add32 (add32 (add32 (hh s) (bsig1 (he s)))
                         (add32 (Ch (he s) (hf s) (hg s)) kw.1)) kw.2 in
  let t2 := add32 (bsig0 (ha s)) (Maj (ha s) (hb s) (hc s)) in
  State (add32 t1 t2) (ha s) (hb s) (hc s) (add32 (hd s) t1) (he s) (hf s) (hg s).

Definition compress (h : state) (block : list Z) : state :=
  let s := foldl round h (zip K (extend 48 (block_words block))) in
  State (add32 (ha h) (ha s)) (add32 (hb h) (hb s)) (add32 (hc h) (hc s))
        (add32 (hd h) (hd s)) (add32 (he h) (he s)) (add32 (hf h) (hf s))
        (add32 (hg h) (hg s)) (add32 (hh h) (hh s)).

Definition digest (msg : list Z) : state :=
  let padded := pad msg in
  foldl compress H0 (chunks (length padded) 64 padded).

Definition hex_word (x : Z) : str :=
  (fun i => hex_digit (Z.land (Z.shiftr x (4 * Z.of_nat (7 - i))) 0xF)) <$> seq 0 8.

Definition hexdigest (msg : list Z) : str :=
  let s := digest msg in
  concat (hex_word <$> [ha s; hb s; hc s; hd s; he s; hf s; hg s; hh s]).

End SHA256.

(** [f"{it.title}|{it.url}"] *)
Definition item_key (it : DigestItemInput) : str := title it ++ u "|" ++ url it.

(** [_items_hash]: [None] when [.encode("utf-8")] raises. *)
Definition _items_hash (items : list DigestItemInput) : option str :=
  let keys := py_sort str_ltb (item_key <$> items) in
  blob ← encode_utf8 (json_dumps_strs keys);
  Some (take 16 (SHA256.hexdigest blob)).


(** ** JSON values, as [json.loads] produces them and pydantic reads them *)

Inductive json :=
| JNull
| JBool (b : bool)
| JInt (z : Z)
| JFloat (f : float)
| JStr (s : list N)
| JArr (elems : list json)
| JObj (fields : list (list N * json)).

(** [d.get(key)] on a dict kept as its list of items. *)
Fixpoint get (key : str) (fields : list (str * json)) : option json :=
  match fields with
  | [] => None
  | (k, v) :: rest => if str_eqb k key then Some v else get key rest
  end.

(** ** models.py: the digest models *)

Module DigestScores.
Record t := { importance : Z; credibility : Z; freshness : Z }.
End DigestScores.

Module TopStory.
Record t := {
  id : str;
  title : str;
  subtitle : str;
  url : str;
  source : str;
  date : str;
  section : str;
  one_liner : str;
  bullets : list str;
  why_it_matters : str;
  action_items : list str;
  read_time_min : Z;
  scores : DigestScores.t;
  tags : list str;
  notes : str
}.
End TopStory.

Module SectionItem.
Record t := {
  ref_id : str;
  title : str;
  url : str;
  source : str;
  date : str;
  one_liner : str;
  scores : DigestScores.t;
  tags : list str
}.
End SectionItem.

(** [class Section]. *)
Module DigestSection.
Record t := { name : str; items : list SectionItem.t }.
End DigestSection.

Module SearchSummary.
Record t := {
  query_hint : str;
  matching_tags : list str;
  top_refs : list str;
  one_sentence_map : str
}.
End SearchSummary.

Module DuplicateRecord.
Record t := { title : str; url : str; merged_into : str; reason : str }.
End DuplicateRecord.

Module DigestStats.
Record t := {
  items_in : Z;
  items_kept : Z;
  top_stories_count : Z;
  duplicates_count : Z
}.
End DigestStats.

Module DigestOutput.
Record t := {
  schema_version : str;
  generated_at : str;
  stats : DigestStats.t;
  top_stories : list TopStory.t;
  sections : list DigestSection.t;
  tag_index : list (str * list str);
  search_summaries : list SearchSummary.t;
  duplicates : list DuplicateRecord.t
}.
End DigestOutput.

(** ** The validators pydantic derives from the model declarations

    [None] stands for [ValidationError].  A field without a default must be
    present; a field with a default takes it when absent; unknown keys are
    ignored (pydantic's default configuration). *)

Section Validation.

(** pydantic's validator for an [int] field.  An integer passes unchanged
    ([coerce_int_JInt], stated where it is used); which other scalars the
    library converts is left to it. *)
Variable coerce_int : json -> option Z.

Definition as_str (j : json) : option str :=
  match j with
  | JStr s => Some s
  | _ => None
  end.

Definition as_list {A} (elem : json -> option A) (j : json) : option (list A) :=
  match j with
  | JArr l => mapM elem l
  | _ => None
  end.

Definition as_obj (j : json) : option (list (str * json)) :=
  match j with
  | JObj fields => Some fields
  | _ => None
  end.

(** A required field. *)
Definition required {A} (v : json -> option A) (key : string)
    (fields : list (str * json)) : option A :=
  get (u key) fields ≫= v.

(** A field with a default. *)
Definition with_default {A} (v : json -> option A) (key : string) (d : A)
    (fields : list (str * json)) : option A :=
  match get (u key) fields with
  | None => Some d
  | Some j => v j
  end.

(** [int = Field(ge=lo, le=hi)] *)
Definition int_in (lo hi : Z) (j : json) : option Z :=
  z ← coerce_int j; if (lo <=? z) && (z <=? hi) then Some z else None.

(** [list[str] = Field(min_length=lo, max_length=hi)] *)
Definition strs_len_in (lo hi : nat) (j : json) : option (list str) :=
  l ← as_list as_str j;
  if (lo <=? length l)%nat && (length l <=? hi)%nat then Some l else None.

Definition validate_DigestScores (j : json) : option DigestScores.t :=
  f ← as_obj j;
  importance ← required (int_in 1 5) "importance" f;
  credibility ← required (int_in 1 5) "credibility" f;
  freshness ← required (int_in 1 5) "freshness" f;
  Some (DigestScores.Build_t importance credibility freshness).

Definition validate_TopStory (j : json) : option TopStory.t :=
  f ← as_obj j;
  id ← required as_str "id" f;
  title ← required as_str "title" f;
  subtitle ← required as_str "subtitle" f;
  url ← required as_str "url" f;
  source ← required as_str "source" f;
  date ← required as_str "date" f;
  section ← required as_str "section" f;
  one_liner ← required as_str "one_liner" f;
  bullets ← required (strs_len_in 3 5) "bullets" f;
  why_it_matters ← required as_str "why_it_matters" f;
  action_items ← required (as_list as_str) "action_items" f;
  read_time_min ← required coerce_int "read_time_min" f;
  scores ← required validate_DigestScores "scores" f;
  tags ← required (as_list as_str) "tags" f;
  notes ← with_default as_str "notes" [] f;
  Some (TopStory.Build_t id title subtitle url source date section one_liner
          bullets why_it_matters action_items read_time_min scores tags notes).

Definition validate_SectionItem (j : json) : option SectionItem.t :=
  f ← as_obj j;
  ref_id ← required as_str "ref_id" f;
  title ← required as_str "title" f;
  url ← required as_str "url" f;
  source ← required as_str "source" f;
  date ← required as_str "date" f;
  one_liner ← required as_str "one_liner" f;
  scores ← required validate_DigestScores "scores" f;
  tags ← with_default (as_list as_str) "tags" [] f;
  Some (SectionItem.Build_t ref_id title url source date one_liner scores tags).

Definition validate_Section (j : json) : option DigestSection.t :=
  f ← as_obj j;
  name ← required as_str "name" f;
  items ← required (as_list validate_SectionItem) "items" f;
  Some (DigestSection.Build_t name items).

Definition validate_SearchSummary (j : json) : option SearchSummary.t :=
  f ← as_obj j;
  query_hint ← required as_str "query_hint" f;
  matching_tags ← required (as_list as_str) "matching_tags" f;
  top_refs ← required (as_list as_str) "top_refs" f;
  one_sentence_map ← required as_str "one_sentence_map" f;
  Some (SearchSummary.Build_t query_hint matching_tags top_refs one_sentence_map).

Definition validate_DuplicateRecord (j : json) : option DuplicateRecord.t :=
  f ← as_obj j;
  title ← required as_str "title" f;
  url ← required as_str "url" f;
  merged_into ← required as_str "merged_into" f;
  reason ← required as_str "reason" f;
  Some (DuplicateRecord.Build_t title url merged_into reason).

Definition validate_DigestStats (j : json) : option DigestStats.t :=
  f ← as_obj j;
  items_in ← required coerce_int "items_in" f;
  items_kept ← required coerce_int "items_kept" f;
  top_stories_count ← required coerce_int "top_stories_count" f;
  duplicates_count ← required coerce_int "duplicates_count" f;
  Some (DigestStats.Build_t items_in items_kept top_stories_count duplicates_count).

(** [dict[str, list[str]]] *)
Definition validate_tag_index (j : json) : option (list (str * list str)) :=
  f ← as_obj j;
  mapM (fun kv : str * json => l ← as_list as_str kv.2; Some (kv.1, l)) f.

(** [DigestOutput.model_validate(data)] *)
Definition DigestOutput_model_validate (data : json) : option DigestOutput.t :=
  f ← as_obj data;
  schema_version ← with_default as_str "schema_version" (u "v1") f;
  generated_at ← required as_str "generated_at" f;
  stats ← required validate_DigestStats "stats" f;
  top_stories ← required (as_list validate_TopStory) "top_stories" f;
  sections ← required (as_list validate_Section) "sections" f;
  tag_index ← with_default validate_tag_index "tag_index" [] f;
  search_summaries ← with_default (as_list validate_SearchSummary) "search_summaries" [] f;
  duplicates ← with_default (as_list validate_DuplicateRecord) "duplicates" [] f;
  Some (DigestOutput.Build_t schema_version generated_at stats top_stories
          sections tag_index search_summaries duplicates).

End Validation.

(** ** digest.py: the fallback generator *)

(** The characters the pattern [[^a-z0-9\u4e00-\u9fff]+] leaves in place. *)
Definition slug_char (c : N) : bool :=
  (((97 <=? c) && (c <=? 122)) || ((48 <=? c) && (c <=? 57))
   || ((0x4e00 <=? c) && (c <=? 0x9fff)))%N.

(** [re.sub(pattern, "-", text)] for that pattern: every maximal run of
    other characters becomes one hyphen.  [in_run] tells that the previous
    character already belonged to the run being replaced. *)
Fixpoint sub_runs (in_run : bool) (s : str) : str :=
  match s with
  | [] => []
  | c :: s' =>
      if slug_char c then c :: sub_runs false s'
      else if in_run then sub_runs true s'
      else 45%N :: sub_runs true s'
  end.

Section Fallback.
(** [str.lower()] *)
Variable lower : str -> str.

Definition _slugify (text : str) : str :=
  let text := strip is_space (lower text) in
  let text := sub_runs false text in
  take 60 (strip is_hyphen text).

(** [tags or alt] on lists. *)
Definition or_list {A} (l alt : list A) : list A :=
  match l with
  | [] => alt
  | _ => l
  end.

Definition scores_333 : json :=
  JObj [ (u "importance", JInt 3); (u "credibility", JInt 3); (u "freshness", JInt 3) ].

Definition jstrs (l : list str) : json := JArr (JStr <$> l).

(** [sid = _slugify(item.title) or f"item-{i}"] *)
Definition story_id (i : nat) (item : DigestItemInput) : str :=
  or_str (Some (_slugify (title item))) (u "item-" ++ str_of_nat i).

Definition text_len (item : DigestItemInput) : Z :=
  Z.of_nat (length (or_str (or_opt (content item) (snippet item)) [])).

(** The dict [story] of one loop iteration. *)
Definition story_dict (i : nat) (item : DigestItemInput) : json :=
  JObj [
    (u "id", JStr (story_id i item));
    (u "title", JStr (title item));
    (u "subtitle", JStr (take 40 (title item)));
    (u "url", JStr (url item));
    (u "source", JStr (or_str (source item) (u "unknown")));
    (u "date", JStr (or_str (date item) (u "unknown")));
    (u "section", JStr (u "Other"));
    (u "one_liner", JStr (take 26 (title item)));
    (u "bullets", jstrs [
       take 22 (or_str (snippet item) (title item));
       take 22 ([26469; 28304]%N ++ u ": " ++ or_str (source item) (u "unknown"));
       take 22 ([26085; 26399]%N ++ u ": " ++ or_str (date item) (u "unknown")) ]);
    (u "why_it_matters",
       JStr ([38656; 35201]%N ++ u " LLM " ++ [29983; 25104; 35814; 32454; 20998; 26512]%N));
    (u "action_items", jstrs [
       [37197; 32622]%N ++ u " OPENAI_API_KEY "
         ++ [20197; 33719; 21462; 23436; 25972; 25688; 35201]%N ]);
    (u "read_time_min", JInt (Z.max 1 (text_len item / 1500)));
    (u "scores", scores_333);
    (u "tags", jstrs (or_list (tags item) [u "untagged"]));
    (u "notes",
       JStr (u "Mock " ++ [29983; 25104; 65292; 20165; 32467; 26500; 21344; 20301]%N))
  ].

(** The dict [sec_item] of one loop iteration. *)
Definition sec_item_dict (i : nat) (item : DigestItemInput) : json :=
  JObj [
    (u "ref_id", JStr (story_id i item));
    (u "title", JStr (title item));
    (u "url", JStr (url item));
    (u "source", JStr (or_str (source item) (u "unknown")));
    (u "date", JStr (or_str (date item) (u "unknown")));
    (u "one_liner", JStr (take 26 (title item)));
    (u "scores", scores_333);
    (u "tags", jstrs (or_list (tags item) []))
  ].

(** [section_map.setdefault(section, []).append(sec_item)] *)
Fixpoint setdefault_append (key : str) (v : json) (m : list (str * list json))
    : list (str * list json) :=
  match m with
  | [] => [(key, [v])]
  | (k, vs) :: rest =>
      if str_eqb k key then (k, vs ++ [v]) :: rest
      else (k, vs) :: setdefault_append key v rest
  end.

(** The loop over [enumerate(items[:12])]: the lists [top_stories] and
    [section_map] it leaves. *)
Definition mock_loop (items : list DigestItemInput)
    : list json * list (str * list json) :=
  foldl (fun acc (p : nat * DigestItemInput) =>
           (acc.1 ++ [story_dict p.1 p.2],
            setdefault_append (u "Other") (sec_item_dict p.1 p.2) acc.2))
        ([], []) (imap pair (take 12 items)).

(** The dict handed to [DigestOutput.model_validate] at the end of
    [_mock_digest]; [today] is [datetime.now().strftime("%Y-%m-%d")]. *)
Definition mock_dict (today : str) (items : list DigestItemInput) (all_count : Z)
    : json :=
  let '(top_stories, section_map) := mock_loop items in
  let sections :=
    (fun kv : str * list json =>
       JObj [ (u "name", JStr kv.1); (u "items", JArr kv.2) ]) <$> section_map in
  JObj [
    (u "schema_version", JStr (u "v1"));
    (u "generated_at", JStr today);
    (u "stats", JObj [
       (u "items_in", JInt all_count);
       (u "items_kept", JInt (Z.of_nat (length top_stories)));
       (u "top_stories_count", JInt (Z.of_nat (length top_stories)));
       (u "duplicates_count", JInt 0) ]);
    (u "top_stories", JArr top_stories);
    (u "sections", JArr sections);
    (u "tag_index", JObj []);
    (u "search_summaries", JArr []);
    (u "duplicates", JArr [])
  ].
End Fallback.

(** ** digest.py: [generate_digest_json] and the cache helpers *)

(** The exceptions that occur: pydantic's [ValidationError] and
    [PydanticSerializationError], and [UnicodeEncodeError]. *)
Inductive exn :=
| ValidationError
| UnicodeEncodeError
| PydanticSerializationError.

(** What a call leaves: the value returned, or the exception that escapes. *)
Inductive outcome (A : Type) :=
| Returned (a : A)
| Raised (e : exn).
Arguments Returned {A} a.
Arguments Raised {A} e.

(** What the [try] block gets from the OpenAI client: an exception from any
    step of the request (import, client, network, [choices[0]]), or the text
    [response.choices[0].message.content], which may be [None]. *)
Inductive llm_reply :=
| LLMRaises
| LLMContent (content : option (list N)).

(** The settings the curator reads. *)
Record Settings := { openai_api_key : option str; model : str }.

(** [it.model_dump(exclude_none=True)] with [content] capped at 3000
    characters, as the payload loop builds it. *)
Definition opt_field (key : string) (v : option str) : list (str * json) :=
  match v with
  | None => []
  | Some s => [(u key, JStr s)]
  end.

Definition cap_content (c : option str) : option str :=
  match c with
  | Some s =>
      if (3000 <? length s)%nat
      then Some (take 3000 s ++ [8230%N]) else Some s
  | None => None
  end.

Definition payload_dict (it : DigestItemInput) : json :=
  JObj ([ (u "title", JStr (title it)); (u "url", JStr (url it)) ]
        ++ opt_field "source" (source it) ++ opt_field "date" (date it)
        ++ opt_field "snippet" (snippet it)
        ++ opt_field "content" (cap_content (content it))
        ++ opt_field "author" (author it)
        ++ [ (u "tags", jstrs (tags it)) ]).

Section Curator.

(** [str.lower()] *)
Variable lower : str -> str.
Variable coerce_int : json -> option Z.
(** [json.loads]: [None] for [JSONDecodeError]. *)
Variable json_loads : str -> option json.
(** [output.model_dump_json(indent=2, ensure_ascii=False)]: the text, or the
    exception the serializer raises (it refuses a text field that holds a
    surrogate). *)
Variable model_dump_json : DigestOutput.t -> outcome str.
(** The chat-completion request with the fixed system prompt: API key, model,
    the items payload, [all_count] and [len(items)] (the user prompt is built
    from the last three). *)
Variable chat_completion : str -> str -> list json -> Z -> nat -> llm_reply.

(** [_mock_digest]: [None] if the final [model_validate] raised. *)
Definition _mock_digest (today : str) (items : list DigestItemInput)
    (all_count : Z) : option DigestOutput.t :=
  DigestOutput_model_validate coerce_int (mock_dict lower today items all_count).

(** [DigestOutput.model_validate_json(text)] *)
Definition model_validate_json (text : str) : option DigestOutput.t :=
  json_loads text ≫= DigestOutput_model_validate coerce_int.

(** The cache directory: fingerprint [h] names the file [digest_{h}.json],
    whose text the map holds. *)
Definition _cache_get (cache : gmap (list N) (list N)) (h : str)
    : outcome (option DigestOutput.t) :=
  match cache !! h with
  | Some text =>
      match model_validate_json text with
      | Some d => Returned (Some d)
      | None => Raised ValidationError
      end
  | None => Returned None
  end.

(** [_cache_put]: the argument is serialized first; [write_text] then opens
    the file for writing, which empties it, and encodes the text, which
    raises when the text holds a surrogate. *)
Definition _cache_put (cache : gmap (list N) (list N)) (h : str)
    (output : DigestOutput.t) : outcome unit * gmap (list N) (list N) :=
  match model_dump_json output with
  | Raised e => (Raised e, cache)
  | Returned text =>
      match encode_utf8 text with
      | Some _ => (Returned tt, <[h := text]> cache)
      | None => (Raised UnicodeEncodeError, <[h := []]> cache)
      end
  end.

(** [if use_cache: _cache_put(h, result)] followed by [return result]. *)
Definition store_and_return (cache : gmap (list N) (list N)) (h : str)
    (result : DigestOutput.t) (use_cache : bool)
    : outcome DigestOutput.t * gmap (list N) (list N) :=
  if use_cache then
    match _cache_put cache h result with
    | (Returned _, cache') => (Returned result, cache')
    | (Raised e, cache') => (Raised e, cache')
    end
  else (Returned result, cache).

(** The body of the [try] block up to [result]: [None] when any of its steps
    raises. *)
Definition llm_digest (settings : Settings) (key : str)
    (items : list DigestItemInput) (all_count : Z) : option DigestOutput.t :=
  match chat_completion key (model settings) (payload_dict <$> items)
          all_count (length items) with
  | LLMRaises => None
  | LLMContent c =>
      data ← json_loads (or_str c (u "{}"));
      DigestOutput_model_validate coerce_int data
  end.

(** [result = _mock_digest(items, all_count); if use_cache: _cache_put(h, result);
    return result], as the no-key branch and the [except] handler have it:
    nothing catches what these lines raise. *)
Definition mock_and_store (today : str) (cache : gmap (list N) (list N)) (h : str)
    (items : list DigestItemInput) (all_count : Z) (use_cache : bool)
    : outcome DigestOutput.t * gmap (list N) (list N) :=
  match _mock_digest today items all_count with
  | None => (Raised ValidationError, cache)
  | Some result => store_and_return cache h result use_cache
  end.

(** [generate_digest_json(items, all_count, use_cache=...)], run with the
    settings, the date and the cache directory it finds; it leaves an outcome
    and the cache directory. *)
Definition generate_digest_json (settings : Settings) (today : str)
    (cache : gmap (list N) (list N)) (items : list DigestItemInput)
    (all_count : Z) (use_cache : bool)
    : outcome DigestOutput.t * gmap (list N) (list N) :=
  match _items_hash items with
  | None => (Raised UnicodeEncodeError, cache)
  | Some h =>
      match (if use_cache then _cache_get cache h else Returned None) with
      | Raised e => (Raised e, cache)
      | Returned (Some cached) => (Returned cached, cache)
      | Returned None =>
          match openai_api_key settings with
          | None | Some [] => mock_and_store today cache h items all_count use_cache
          | Some key =>
              match llm_digest settings key items all_count with
              | Some result =>
                  (* the write of the generated digest is still inside [try] *)
                  match store_and_return cache h result use_cache with
                  | (Returned result, cache') => (Returned result, cache')
                  | (Raised _, cache') =>
                      mock_and_store today cache' h items all_count use_cache
                  end
              | None => mock_and_store today cache h items all_count use_cache
              end
          end
      end
  end.

End Curator.

(** * Vocabulary of the statements *)

(** [x] may stand before [y] in a list sorted by [lt]: [y < x] is false. *)
Definition not_after {A} (lt : A -> A -> bool) (x y : A) : Prop := lt y x = false.

Definition weight_values : list Z := [2; 3; 4; 5].
Definition bucket_values : list float := [1.0; 2.0; 3.0; 4.0; 5.0]%float.

(** Every value the weighted sum takes on a weight and two bucket scores. *)
Definition score_values : list float :=
  w ← weight_values; f ← bucket_values; c ← bucket_values; [weighted_sum w f c].

(** An integer that orders the score values as the float comparisons do: the
    exponent and the mantissa of a positive binary64 value. *)
Definition rank (x : float) : Z :=
  let '(m, e) := frshiftexp x in
  Uint63.to_Z e * 2 ^ 53 + Uint63.to_Z (normfr_mantissa m).

Definition agree (a b : float) : bool :=
  Bool.eqb (a <? b)%float (rank a <? rank b)
  && Bool.eqb (a =? b)%float (rank a =? rank b)
  && Bool.eqb (- a <? - b)%float (rank b <? rank a)
  && Bool.eqb (- a =? - b)%float (rank a =? rank b).

(** [a] is ranked before [b]: a strictly higher score, or the same score and
    an earlier input position. *)
Definition precedes (a b : scored_entry) : Prop :=
  (entry_score b <? entry_score a)%float = true \/
  ((entry_score a =? entry_score b)%float = true /\
   (entry_idx a < entry_idx b)%nat).

Definition scored_ok (e : scored_entry) : Prop := entry_score e ∈ score_values.

(** A parser for the fixed-width form [YYYY-MM-DD] of the first format, to run
    the model on concrete dates: the instant is counted from 1970-01-01. *)
Definition digit (c : N) : option Z :=
  if ((48 <=? c) && (c <=? 57))%N then Some (Z.of_N c - 48) else None.

Definition days_from_civil (y m d : Z) : Z :=
  let y' := if m <=? 2 then y - 1 else y in
  let era := y' / 400 in
  let yoe := y' - era * 400 in
  let doy := (153 * ((m + 9) mod 12) + 2) / 5 + d - 1 in
  era * 146097 + (yoe * 365 + yoe / 4 - yoe / 100 + doy) - 719468.

Definition days_in_month (y m : Z) : Z :=
  if m =? 2 then
    (if ((y mod 4 =? 0) && negb (y mod 100 =? 0)) || (y mod 400 =? 0) then 29 else 28)
  else if (m =? 4) || (m =? 6) || (m =? 9) || (m =? 11) then 30 else 31.

Definition strptime_ymd (text fmt : list N) : option Z :=
  if bool_decide (fmt = u "%Y-%m-%d") then
    match text with
    | [y1; y2; y3; y4; 45%N; m1; m2; 45%N; d1; d2] =>
        a ← digit y1; b ← digit y2; c ← digit y3; d ← digit y4;
        e ← digit m1; f ← digit m2; g ← digit d1; h ← digit d2;
        let y := 1000 * a + 100 * b + 10 * c + d in
        let m := 10 * e + f in
        let dd := 10 * g + h in
        if (1 <=? y) && (1 <=? m) && (m <=? 12) && (1 <=? dd) && (dd <=? days_in_month y m)
        then Some (days_from_civil y m dd * 86400000000) else None
    | _ => None
    end
  else None.

(** The rational number a finite binary64 value stands for. *)
Definition float_Q (x : float) : Q :=
  match Prim2SF x with
  | S754_finite s m e =>
      let v := if 0 <=? e then inject_Z (Z.pos m * 2 ^ e)
               else Qmake (Z.pos m) (2 ^ Z.to_pos (- e)) in
      if s then Qopp v else v
  | _ => 0%Q
  end.

(** The formula of the composite score, over the rationals. *)
Definition formula_Q (w : Z) (f c : Q) : Q :=
  ((4 # 10) * inject_Z w + (3 # 10) * f + (3 # 10) * c)%Q.

(** The binary64 weighted sum is within 10^-15 of the exact value. *)
Definition close_at (w : Z) (f c : float) : bool :=
  Qle_bool (Qabs (float_Q (weighted_sum w f c) - formula_Q w (float_Q f) (float_Q c)))
           (1 # 1000000000000000).

(** A stand-in for [str.lower()] in sample runs: exact on U+0000..U+00FF
    (ASCII and the Latin-1 capitals), the identity above. *)
Definition lower_latin1_cp (c : N) : N :=
  if ((65 <=? c) && (c <=? 90))%N then (c + 32)%N
  else if ((192 <=? c) && (c <=? 222) && negb (c =? 215))%N then (c + 32)%N
  else c.

Definition lower_latin1 (s : list N) : list N := lower_latin1_cp <$> s.

(** No title and no URL of the items holds a surrogate. *)
Definition keys_encodable (items : list DigestItemInput) : Prop :=
  Forall (fun it => has_surrogate (title it) = false /\ has_surrogate (url it) = false)
         items.

Definition is_hex (c : N) : bool :=
  (((48 <=? c) && (c <=? 57)) || ((97 <=? c) && (c <=? 102)))%N.

Definition sample_item (t l : string) : DigestItemInput :=
  {| title := u t; url := u l; source := None; date := None; snippet := None;
     content := None; author := None; tags := [] |}.

Definition mock_scores : DigestScores.t := DigestScores.Build_t 3 3 3.

(** The story the fallback makes of item number [i]. *)
Definition mock_story (lower : list N -> list N) (i : nat) (item : DigestItemInput) : TopStory.t :=
  {| TopStory.id := story_id lower i item;
     TopStory.title := title item;
     TopStory.subtitle := take 40 (title item);
     TopStory.url := url item;
     TopStory.source := or_str (source item) (u "unknown");
     TopStory.date := or_str (date item) (u "unknown");
     TopStory.section := u "Other";
     TopStory.one_liner := take 26 (title item);
     TopStory.bullets :=
       [ take 22 (or_str (snippet item) (title item));
         take 22 ([26469; 28304]%N ++ u ": " ++ or_str (source item) (u "unknown"));
         take 22 ([26085; 26399]%N ++ u ": " ++ or_str (date item) (u "unknown")) ];
     TopStory.why_it_matters :=
       [38656; 35201]%N ++ u " LLM " ++ [29983; 25104; 35814; 32454; 20998; 26512]%N;
     TopStory.action_items :=
       [ [37197; 32622]%N ++ u " OPENAI_API_KEY "
           ++ [20197; 33719; 21462; 23436; 25972; 25688; 35201]%N ];
     TopStory.read_time_min := Z.max 1 (text_len item / 1500);
     TopStory.scores := mock_scores;
     TopStory.tags := or_list (tags item) [u "untagged"];
     TopStory.notes :=
       u "Mock " ++ [29983; 25104; 65292; 20165; 32467; 26500; 21344; 20301]%N |}.

Definition mock_sec_item (lower : list N -> list N) (i : nat) (item : DigestItemInput) : SectionItem.t :=
  {| SectionItem.ref_id := story_id lower i item;
     SectionItem.title := title item;
     SectionItem.url := url item;
     SectionItem.source := or_str (source item) (u "unknown");
     SectionItem.date := or_str (date item) (u "unknown");
     SectionItem.one_liner := take 26 (title item);
     SectionItem.scores := mock_scores;
     SectionItem.tags := or_list (tags item) [] |}.

Definition mock_sections (lower : list N -> list N) (l : list DigestItemInput) : list DigestSection.t :=
  match l with
  | [] => []
  | _ => [ DigestSection.Build_t (u "Other") (imap (mock_sec_item lower) l) ]
  end.

(** The digest the fallback returns. *)
Definition mock_output (lower : list N -> list N) (today : list N) (items : list DigestItemInput)
    (all_count : Z) : DigestOutput.t :=
  let kept := take 12 items in
  {| DigestOutput.schema_version := u "v1";
     DigestOutput.generated_at := today;
     DigestOutput.stats :=
       {| DigestStats.items_in := all_count;
          DigestStats.items_kept := Z.of_nat (length kept);
          DigestStats.top_stories_count := Z.of_nat (length kept);
          DigestStats.duplicates_count := 0 |};
     DigestOutput.top_stories := imap (mock_story lower) kept;
     DigestOutput.sections := mock_sections lower kept;
     DigestOutput.tag_index := [];
     DigestOutput.search_summaries := [];
     DigestOutput.duplicates := [] |}.

Definition scores_in_range (s : DigestScores.t) : Prop :=
  1 <= DigestScores.importance s <= 5 /\
  1 <= DigestScores.credibility s <= 5 /\
  1 <= DigestScores.freshness s <= 5.

(** The section labels the prompt and the specification enumerate. *)
Definition SECTION_LABELS : list (list N) :=
  [ u "Models"; u "Agents"; u "Multimodal"; u "Systems"; u "Safety";
    u "Evaluation"; u "Product"; u "OpenSource"; u "Policy"; u "Other" ].

(** A candidate with one story in a section "Gossip" while its stats claim 7
    kept items. *)
Definition gossip_story : json :=
  JObj [ (u "id", JStr (u "rumour")); (u "title", JStr (u "A rumour"));
         (u "subtitle", JStr (u "A rumour")); (u "url", JStr (u "https://example.org/r"));
         (u "source", JStr (u "unknown")); (u "date", JStr (u "unknown"));
         (u "section", JStr (u "Gossip")); (u "one_liner", JStr (u "A rumour"));
         (u "bullets", jstrs [u "one"; u "two"; u "three"]);
         (u "why_it_matters", JStr (u "n/a")); (u "action_items", jstrs []);
         (u "read_time_min", JInt 1); (u "scores", scores_333);
         (u "tags", jstrs []) ].

Definition gossip_digest : json :=
  JObj [ (u "generated_at", JStr (u "2026-11-03"));
         (u "stats", JObj [ (u "items_in", JInt 1); (u "items_kept", JInt 7);
                            (u "top_stories_count", JInt 1);
                            (u "duplicates_count", JInt 0) ]);
         (u "top_stories", JArr [gossip_story]);
         (u "sections", JArr []) ].

(** Stand-ins for the outside world, to run the model: [lower_latin1] for
    [str.lower()], an [int] validator that takes integers only, a
    [json.loads] that knows the text [{}], a serializer that writes the
    generation date, one that writes the first bullet of the first story as
    it is, and a client whose request raises. *)
Definition int_exact (j : json) : option Z :=
  match j with
  | JInt z => Some z
  | _ => None
  end.

Definition loads_braces (text : list N) : option json :=
  if str_eqb text (u "{}") then Some (JObj []) else None.

Definition dump_date (d : DigestOutput.t) : outcome (list N) :=
  Returned (u "digest " ++ DigestOutput.generated_at d).

Definition dump_first_bullet (d : DigestOutput.t) : outcome (list N) :=
  Returned (default [] (s ← head (DigestOutput.top_stories d); head (TopStory.bullets s))).

Definition chat_raises (key model_ : list N) (payload : list json) (all_count : Z)
    (n : nat) : llm_reply := LLMRaises.

Definition day (n : Z) : Z := n * 86400000000.

(** 2026-11-03, 15:00 UTC. *)
Definition now0 : Z := day 20760 + 15 * 3600000000.

Definition openai_today : DigestItemInput :=
  {| title := u "GPT-5 released"; url := u "https://example.org/gpt-5";
     source := Some (u "OpenAI"); date := Some (u "2026-11-03");
     snippet := None; content := Some (repeat 120%N (Z.to_nat 6000));
     author := None; tags := [] |}.

Definition unknown_short : DigestItemInput :=
  {| title := u "A note"; url := u "https://example.org/note";
     source := None; date := None;
     snippet := Some (repeat 120%N 50); content := None;
     author := None; tags := [u "misc"] |}.

Definition unknown_short' : DigestItemInput :=
  {| title := u "Another note"; url := u "https://example.org/other";
     source := None; date := None;
     snippet := Some (repeat 121%N 50); content := None;
     author := None; tags := [] |}.

Definition forum_old : DigestItemInput :=
  {| title := u "Old thread"; url := u "https://example.org/thread";
     source := Some (u "Reddit"); date := Some (u "2020-01-01");
     snippet := Some (u "short"); content := None;
     author := None; tags := [] |}.

Definition sample_items : list DigestItemInput :=
  [forum_old; unknown_short; openai_today; unknown_short'].

Definition sample_hash : list N := u "2c6ea97d630bddec".

(** Items with a lone surrogate (U+D83D): in the title, and in the snippet. *)
Definition surrogate_title : DigestItemInput :=
  {| title := [0xD83D]%N; url := u "https://example.org/s";
     source := None; date := None; snippet := None; content := None;
     author := None; tags := [] |}.

Definition surrogate_snippet : DigestItemInput :=
  {| title := u "A title"; url := u "https://example.org/t";
     source := None; date := None; snippet := Some [0xD83D]%N; content := None;
     author := None; tags := [] |}.

Definition settings_with_key : Settings :=
  {| openai_api_key := Some (u "sk-test"); model := u "gpt-4o-mini" |}.

(** * Further properties of the scorer and of [pre_rank] *)

(** [key in src or key in url] in [_source_weight]. *)
Definition key_matches (lower : list N -> list N) (key : list N)
    (item : DigestItemInput) : bool :=
  contains key (lower (or_str (source item) [])) || contains key (lower (url item)).

(** The instant [_freshness_score] parses from the item's date, if any. *)
Definition parsed_date (strptime : list N -> list N -> option Z)
    (item : DigestItemInput) : option Z :=
  match date item with
  | None | Some [] => None
  | Some d => first_parse strptime date_formats (take 19 d)
  end.

(** ** cli.py: the [digest-json] command, from the items it has collected *)

(** How the command ends: [typer.Exit(code)], the digest written to
    [digest.json] (with the file's text), or an exception that escapes. *)
Inductive cli_outcome :=
| Exit (code : Z)
| Written (digest : DigestOutput.t) (text : list N)
| Crashed (e : exn).

Section Cli.
Variable lower : list N -> list N.
Variable strptime : list N -> list N -> option Z.
Variable coerce_int : json -> option Z.
Variable json_loads : list N -> option json.
Variable model_dump_json : DigestOutput.t -> outcome (list N).
Variable chat_completion : list N -> list N -> list json -> Z -> nat -> llm_reply.

(** The steps of [digest_json] after the items are loaded: exit 0 when there
    is none, else [pre_rank], [generate_digest_json] with
    [all_count = len(items)] and [use_cache = not no_cache], and the write of
    the result, which serializes the digest and encodes the text. *)
Definition digest_json_steps (settings : Settings) (today : list N)
    (clock : nat -> Z) (cache : gmap (list N) (list N))
    (items : list DigestItemInput) (top_k : Z) (no_cache : bool)
    : cli_outcome * gmap (list N) (list N) :=
  match items with
  | [] => (Exit 0, cache)
  | _ =>
      let ranked := pre_rank lower strptime clock items top_k in
      match generate_digest_json lower coerce_int json_loads model_dump_json
              chat_completion settings today cache ranked
              (Z.of_nat (length items)) (negb no_cache) with
      | (Returned digest_output, cache') =>
          match model_dump_json digest_output with
          | Returned text =>
              match encode_utf8 text with
              | Some _ => (Written digest_output text, cache')
              | None => (Crashed UnicodeEncodeError, cache')
              end
          | Raised e => (Crashed e, cache')
          end
      | (Raised e, cache') => (Crashed e, cache')
      end
  end.
End Cli.

(** Stand-ins that read back what they wrote, for one digest: a serializer
    that writes the text [cached] and a [json.loads] that reads that text as
    the fallback's dict for the sample items. *)
Definition dump_cached (d : DigestOutput.t) : outcome (list N) := Returned (u "cached").

Definition loads_cached (text : list N) : option json :=
  if str_eqb text (u "cached")
  then Some (mock_dict lower_latin1 (u "2026-11-03") sample_items 50) else None.

Definition settings_without_key : Settings :=
  {| openai_api_key := None; model := u "gpt-4o-mini" |}.

(** * Text normalisation, word counts and slugs (extract.py, dedup.py, models.py, render.py) *)

(** [re.sub(r"\s+", " ", text)]: every maximal run of whitespace becomes one
    space.  [in_run] tells that the previous character was whitespace. *)
Fixpoint collapse_ws (in_run : bool) (s : list N) : list N :=
  match s with
  | [] => []
  | c :: s' =>
      if is_space c then
        if in_run then collapse_ws true s' else 32%N :: collapse_ws true s'
      else c :: collapse_ws false s'
  end.

(** extract.py: [normalize_whitespace]. *)
Definition normalize_whitespace (text : list N) : list N :=
  strip is_space (collapse_ws false text).

Section Normalize.
(** [str.lower()] *)
Variable lower : list N -> list N.

(** dedup.py: [normalize_text]. *)
Definition normalize_text (text : list N) : list N :=
  let text := lower text in
  let text := collapse_ws false text in
  strip is_space text.

(** dedup.py: [compute_content_hash]; [None] when [.encode("utf-8")] raises
    [UnicodeEncodeError]. *)
Definition compute_content_hash (text : list N) : option (list N) :=
  blob ← encode_utf8 (normalize_text text);
  Some (SHA256.hexdigest blob).
End Normalize.

(** [text.split()]: the maximal runs of non-whitespace characters.  [word]
    holds the characters of the run being read. *)
Fixpoint split_words (word : list N) (s : list N) : list (list N) :=
  match s with
  | [] => match word with [] => [] | _ => [word] end
  | c :: s' =>
      if is_space c then
        match word with
        | [] => split_words [] s'
        | _ => word :: split_words [] s'
        end
      else split_words (word ++ [c]) s'
  end.

Definition split (text : list N) : list (list N) := split_words [] text.

(** models.py: [ExtractedContent] and its constructor [from_text]. *)
Module ExtractedContent.
Record t := {
  title : list N;
  author : option (list N);
  published_date : option (list N);
  text : list N;
  word_count : nat
}.

Definition from_text (text_ title_ : list N) (author_ published_date_ : option (list N))
    : t :=
  let word_count_ := length (split text_) in
  {| title := title_; author := author_; published_date := published_date_;
     text := text_; word_count := word_count_ |}.
End ExtractedContent.

(** extract.py: the end of [extract_content], from the text the extractors
    returned and the metadata found: whitespace is normalised and the record
    is built, the title defaulting to "Untitled". *)
Definition finish_extract (text : list N) (title_ author_ published_date_ : option (list N))
    : ExtractedContent.t :=
  let text := normalize_whitespace text in
  ExtractedContent.from_text text (or_str title_ (u "Untitled")) author_ published_date_.

(** render.py: [slugify] *)

Definition ascii_slug_char (c : N) : bool :=
  (((97 <=? c) && (c <=? 122)) || ((48 <=? c) && (c <=? 57)))%N.

(** [re.sub(r"[^a-z0-9]+", "-", text)] *)
Fixpoint sub_non_alnum (in_run : bool) (s : list N) : list N :=
  match s with
  | [] => []
  | c :: s' =>
      if ascii_slug_char c then c :: sub_non_alnum false s'
      else if in_run then sub_non_alnum true s'
      else 45%N :: sub_non_alnum true s'
  end.

(** [text.encode("ascii", "ignore").decode("ascii")]: the characters below
    U+0080. *)
Definition ascii_only (s : list N) : list N := filter (fun c => (c < 128)%N) s.

(** What follows the first hyphen of [s], if there is one. *)
Fixpoint after_hyphen (s : list N) : option (list N) :=
  match s with
  | [] => None
  | c :: s' => if is_hyphen c then Some s' else after_hyphen s'
  end.

(** [s.rsplit("-", 1)[0]]: the text before the last hyphen, or all of it. *)
Definition before_last_hyphen (s : list N) : list N :=
  match after_hyphen (rev s) with
  | Some r => rev r
  | None => s
  end.

Section Slugify.
(** [unicodedata.normalize("NFKD", text)] *)
Variable nfkd : list N -> list N.
(** [str.lower()] *)
Variable lower : list N -> list N.

Definition slugify (text : list N) (max_length : Z) : list N :=
  let text := nfkd text in
  let text := ascii_only text in
  let text := lower text in
  let text := sub_non_alnum false text in
  let text := strip is_hyphen text in
  let text :=
    if max_length <? Z.of_nat (length text)
    then before_last_hyphen (slice_to text max_length) else text in
  or_str (Some text) (u "untitled").
End Slugify.

(** * The seen file (dedup.py, models.py) *)

(** models.py: [SourceType] and [SeenRecord]; [fetched_at] is an instant. *)
Inductive SourceType := MANUAL | RSS.

Module SeenRecord.
Record t := {
  url : list N;
  url_hash : list N;
  content_hash : list N;
  title : list N;
  fetched_at : Z;
  stored_path : list N;
  source : SourceType
}.
End SeenRecord.

(** A dict with text keys, kept as the list of its items in insertion order:
    [d[k] = v] replaces the value of a key that is present, in place, and
    appends a new key at the end. *)
Fixpoint dict_set {V} (k : list N) (v : V) (d : list (list N * V)) : list (list N * V) :=
  match d with
  | [] => [(k, v)]
  | (k', v') :: rest =>
      if str_eqb k' k then (k', v) :: rest else (k', v') :: dict_set k v rest
  end.

Fixpoint dict_get {V} (k : list N) (d : list (list N * V)) : option V :=
  match d with
  | [] => None
  | (k', v') :: rest => if str_eqb k' k then Some v' else dict_get k rest
  end.

Definition dict_values {V} (d : list (list N * V)) : list V := snd <$> d.

(** The lines a text file is read in: a line ends with its line end, which
    reading translates to U+000A whether it was U+000A, U+000D or both in a
    row (universal newlines); a last line without a line end is a line too.
    [line] holds the characters of the line being read. *)
Fixpoint readlines (line : list N) (text : list N) : list (list N) :=
  match text with
  | [] => match line with [] => [] | _ => [line] end
  | c :: text' =>
      if (c =? 10)%N then (line ++ [10%N]) :: readlines [] text'
      else if (c =? 13)%N then
        match text' with
        | 10%N :: text'' => (line ++ [10%N]) :: readlines [] text''
        | _ => (line ++ [10%N]) :: readlines [] text'
        end
      else readlines (line ++ [c]) text'
  end.

Section Seen.
(** [str.lower()] *)
Variable lower : list N -> list N.
(** [SeenRecord.model_validate(json.loads(line))]: [None] when either step
    raises ([JSONDecodeError], [ValueError]). *)
Variable parse_record : list N -> option SeenRecord.t.
(** [record.model_dump_json()]: the text, or the exception the serializer
    raises. *)
Variable dump_record : SeenRecord.t -> outcome (list N).
(** dedup.py: [normalize_url], built on [urllib.parse]. *)
Variable normalize_url : list N -> list N.

(** One turn of the loop of [load_seen_records] over the lines of the file. *)
Definition load_line (records : list (list N * SeenRecord.t)) (line : list N)
    : list (list N * SeenRecord.t) :=
  match strip is_space line with
  | [] => records
  | line =>
      match parse_record line with
      | Some record => dict_set (SeenRecord.url_hash record) record records
      | None => records
      end
  end.

(** [load_seen_records].  The seen file is [None] when it does not exist,
    else its text. *)
Definition load_seen_records (seen_file : option (list N))
    : list (list N * SeenRecord.t) :=
  match seen_file with
  | None => []
  | Some text => foldl load_line [] (readlines [] text)
  end.

(** [record_seen]: the file is opened for appending, which creates it when
    it is missing; the record is serialized and the line is encoded and
    written at the end of the text.  It leaves what was raised, if anything,
    and the file. *)
Definition record_seen (record : SeenRecord.t) (seen_file : option (list N))
    : outcome unit * option (list N) :=
  let text := default [] seen_file in
  match dump_record record with
  | Raised e => (Raised e, Some text)
  | Returned line =>
      match encode_utf8 (line ++ [10%N]) with
      | None => (Raised UnicodeEncodeError, Some text)
      | Some _ => (Returned tt, Some (text ++ line ++ [10%N]))
      end
  end.

(** [compute_url_hash]; [None] when [.encode("utf-8")] raises. *)
Definition compute_url_hash (url_ : list N) : option (list N) :=
  blob ← encode_utf8 (normalize_url url_);
  Some (SHA256.hexdigest blob).

(** [is_duplicate(url, content, seen_file)]: the flag and the reason, or
    the exception of one of the two hashes. *)
Definition is_duplicate (url_ : list N) (content_ : option (list N))
    (seen_file : option (list N)) : outcome (bool * option (list N)) :=
  match compute_url_hash url_ with
  | None => Raised UnicodeEncodeError
  | Some url_hash =>
      let records := load_seen_records seen_file in
      match dict_get url_hash records with
      | Some record =>
          Returned (true, Some (u "URL already seen: " ++ SeenRecord.title record))
      | None =>
          match content_ with
          | Some (c :: cs) =>
              match compute_content_hash lower (c :: cs) with
              | None => Raised UnicodeEncodeError
              | Some content_hash =>
                  let same (r : SeenRecord.t) :=
                    str_eqb (SeenRecord.content_hash r) content_hash in
                  if existsb same (dict_values records) then
                    match find same (dict_values records) with
                    | Some record =>
                        Returned (true, Some (u "Content matches existing: "
                                              ++ SeenRecord.title record))
                    | None => Returned (false, None)
                    end
                  else Returned (false, None)
              end
          | _ => Returned (false, None)
          end
      end
  end.
End Seen.

(** What one line of the seen file holds: nothing when it is blank or does
    not parse. *)
Definition read_line (parse_record : list N -> option SeenRecord.t) (line : list N)
    : option SeenRecord.t :=
  match strip is_space line with
  | [] => None
  | line => parse_record line
  end.


(** A text without a line end inside. *)
Definition no_line_end (line : list N) : Prop :=
  Forall (fun c => c <> 10%N /\ c <> 13%N) line.

(** A file text that is empty or whose last character is a line end. *)
Definition ends_line (text : list N) : Prop :=
  match last text with
  | None => True
  | Some c => c = 10%N \/ c = 13%N
  end.

(** * Vocabulary of the further statements *)

(** A score within the bounds of the formula. *)
Definition in_score_range (s : float) : bool := ((1.4 <=? s) && (s <=? 5.0))%float.

(** The weighted sum does not fall when its three inputs do not. *)
Definition sum_mono_at (w w' : Z) (f f' c c' : float) : bool :=
  negb ((w <=? w') && (f <=? f')%float && (c <=? c')%float)
  || (weighted_sum w f c <=? weighted_sum w' f' c')%float.

Definition no_double_hyphen (s : list N) : Prop :=
  forall i, s !! i = Some 45%N -> s !! S i <> Some 45%N.

Definition no_space (w : list N) : Prop := Forall (fun c => is_space c = false) w.

(** A word as [split] returns them: not empty and free of whitespace. *)
Definition is_word (w : list N) : Prop := w <> [] /\ no_space w.

(** The shape of the text [slugify] has after its [strip("-")]: slug
    characters and single hyphens, with no hyphen at either end. *)
Record slug_shaped (s : list N) : Prop := {
  shaped_chars : Forall (fun c => ascii_slug_char c = true \/ c = 45%N) s;
  shaped_head : head s <> Some 45%N;
  shaped_last : last s <> Some 45%N;
  shaped_single : no_double_hyphen s
}.

(** Stand-ins for the seen file: one record, a serializer that writes the
    title, a parser that knows the title of this record, and a URL
    normalisation that lower-cases. *)
Definition sample_record : SeenRecord.t :=
  {| SeenRecord.url := u "https://example.org/post";
     SeenRecord.url_hash :=
       default [] (compute_url_hash lower_latin1 (u "https://example.org/post"));
     SeenRecord.content_hash :=
       default [] (compute_content_hash lower_latin1 (u "Hello World"));
     SeenRecord.title := u "A post";
     SeenRecord.fetched_at := 20760 * 86400000000;
     SeenRecord.stored_path := u "library/2026/11/a-post-150000";
     SeenRecord.source := MANUAL |}.

Definition dump_title (r : SeenRecord.t) : outcome (list N) :=
  Returned (SeenRecord.title r).

Definition parse_title (line : list N) : option SeenRecord.t :=
  if str_eqb line (u "A post") then Some sample_record else None.

(** A client whose reply is the text [cached], which [loads_cached] reads as
    a valid digest. *)
Definition chat_cached (key model_ : list N) (payload : list json) (all_count : Z)
    (n : nat) : llm_reply := LLMContent (Some (u "cached")).

(** A clock that has moved on by an hour at the second call. *)
Definition now1 : Z := now0 + 3600000000.

(** * Facts about the sort *)

Section SortFacts.
Context {A : Type} (lt : A -> A -> bool) (D : A -> Prop).

Hypothesis lt_asym : forall x y, D x -> D y -> lt x y = true -> lt y x = false.
Hypothesis not_after_trans :
  forall x y z, D x -> D y -> D z ->
    not_after lt x y -> not_after lt y z -> not_after lt x z.

Lemma py_insert_Permutation (x : A) (l : list A) : py_insert lt x l ≡ₚ x :: l.
Proof.
  induction l as [|y l IH]; simpl; [done|].
  destruct (lt y x); [|done].
  rewrite IH. apply Permutation_swap.
Qed.

Lemma py_sort_Permutation (l : list A) : py_sort lt l ≡ₚ l.
Proof.
  induction l as [|x l IH]; simpl; [done|].
  rewrite py_insert_Permutation. by rewrite IH.
Qed.

Lemma py_insert_sorted (x : A) (l : list A) :
  D x -> Forall D l -> StronglySorted (not_after lt) l ->
  StronglySorted (not_after lt) (py_insert lt x l).
Proof.
  intros Dx Dl Hs. induction Hs as [|y l Hs IH Hy]; simpl.
  - repeat constructor.
  - apply Forall_cons in Dl as [Dy Dl].
    destruct (lt y x) eqn:E.
    + constructor; [by apply IH|].
      rewrite py_insert_Permutation. constructor; [|done].
      by apply lt_asym.
    + constructor; [by constructor|].
      constructor; [done|].
      rewrite Forall_forall in Hy, Dl. apply Forall_forall. intros z Hz.
      apply (not_after_trans x y z); auto.
Qed.

Lemma py_sort_sorted (l : list A) :
  Forall D l -> StronglySorted (not_after lt) (py_sort lt l).
Proof.
  induction 1 as [|x l Dx Dl IH]; simpl; [constructor|].
  apply py_insert_sorted; [done| |done].
  by rewrite py_sort_Permutation.
Qed.

End SortFacts.

(** * The scores [pre_rank] can compute *)

Lemma rank_agrees :
  forallb (fun a => forallb (agree a) score_values) score_values = true.
Proof. vm_compute. reflexivity. Qed.

Lemma rank_spec (a b : float) :
  a ∈ score_values -> b ∈ score_values ->
  (a <? b)%float = (rank a <? rank b) /\
  (a =? b)%float = (rank a =? rank b) /\
  (- a <? - b)%float = (rank b <? rank a) /\
  (- a =? - b)%float = (rank a =? rank b).
Proof.
  intros Ha Hb. pose proof rank_agrees as H.
  rewrite forallb_forall in H. apply list_elem_of_In, H in Ha.
  rewrite forallb_forall in Ha. apply list_elem_of_In, Ha in Hb.
  unfold agree in Hb. rewrite !andb_true_iff in Hb.
  destruct Hb as [[[H1 H2] H3] H4].
  apply eqb_prop in H1, H2, H3, H4. auto.
Qed.

Lemma source_weight_in_values (table : list (list N * Z)) (src url_ : list N) :
  Forall (fun kw => kw.2 ∈ weight_values) table ->
  source_weight_in table src url_ ∈ weight_values.
Proof.
  induction 1 as [|[k w] table Hw _ IH]; simpl.
  - unfold weight_values. set_solver.
  - by destruct (contains k src || contains k url_).
Qed.

Lemma _source_weight_values (lower : list N -> list N) (item : DigestItemInput) :
  _source_weight lower item ∈ weight_values.
Proof.
  apply source_weight_in_values.
  unfold _SOURCE_WEIGHTS, weight_values. repeat constructor; simpl; set_solver.
Qed.

Lemma _freshness_score_values strptime now item :
  _freshness_score strptime now item ∈ bucket_values.
Proof.
  unfold _freshness_score, bucket_values.
  repeat case_match; set_solver.
Qed.

Lemma _content_length_score_values item :
  _content_length_score item ∈ bucket_values.
Proof.
  unfold _content_length_score, bucket_values.
  repeat case_match; set_solver.
Qed.

Lemma composite_score_values lower strptime now item :
  composite_score lower strptime now item ∈ score_values.
Proof.
  unfold composite_score, score_values.
  apply list_elem_of_bind. exists (_source_weight lower item).
  split; [|apply _source_weight_values].
  apply list_elem_of_bind. exists (_freshness_score strptime now item).
  split; [|apply _freshness_score_values].
  apply list_elem_of_bind. exists (_content_length_score item).
  split; [|apply _content_length_score_values].
  apply list_elem_of_singleton. done.
Qed.

(** * [pre_rank] *)

Lemma key_ltb_rank (a b : scored_entry) :
  scored_ok a -> scored_ok b ->
  key_ltb a b =
    if rank (entry_score a) =? rank (entry_score b)
    then (entry_idx a <? entry_idx b)%nat
    else rank (entry_score b) <? rank (entry_score a).
Proof.
  intros Ha Hb. unfold key_ltb.
  destruct (rank_spec _ _ Ha Hb) as (_ & _ & -> & ->). done.
Qed.

Lemma key_ltb_asym (a b : scored_entry) :
  scored_ok a -> scored_ok b -> key_ltb a b = true -> key_ltb b a = false.
Proof.
  intros Ha Hb. rewrite !key_ltb_rank by done.
  repeat case_match;
    rewrite ?Z.eqb_eq, ?Z.eqb_neq, ?Z.ltb_lt, ?Z.ltb_ge, ?Nat.ltb_lt, ?Nat.ltb_ge in *;
    lia.
Qed.

Lemma key_not_after_trans (a b c : scored_entry) :
  scored_ok a -> scored_ok b -> scored_ok c ->
  not_after key_ltb a b -> not_after key_ltb b c -> not_after key_ltb a c.
Proof.
  intros Ha Hb Hc. unfold not_after. rewrite !key_ltb_rank by done.
  repeat case_match;
    rewrite ?Z.eqb_eq, ?Z.eqb_neq, ?Z.ltb_lt, ?Z.ltb_ge, ?Nat.ltb_lt, ?Nat.ltb_ge in *;
    try lia; congruence.
Qed.

Lemma not_after_precedes (a b : scored_entry) :
  scored_ok a -> scored_ok b -> entry_idx a <> entry_idx b ->
  not_after key_ltb a b -> precedes a b.
Proof.
  intros Ha Hb Hne. unfold not_after, precedes. rewrite key_ltb_rank by done.
  destruct (rank_spec _ _ Hb Ha) as (-> & _).
  destruct (rank_spec _ _ Ha Hb) as (_ & -> & _).
  rewrite (Z.eqb_sym (rank (entry_score b))).
  case_match;
    rewrite ?Z.eqb_eq, ?Z.eqb_neq, ?Z.ltb_lt, ?Z.ltb_ge, ?Nat.ltb_lt, ?Nat.ltb_ge in *;
    intros; [right; split; [done|lia] | left; lia].
Qed.

Section PreRank.
Variable lower : list N -> list N.
Variable strptime : list N -> list N -> option Z.
Variable clock : nat -> Z.

Lemma score_all_ok (items : list DigestItemInput) :
  Forall scored_ok (score_all lower strptime clock items).
Proof.
  apply Forall_forall. intros e (i & it & -> & _)%elem_of_lookup_imap.
  apply composite_score_values.
Qed.

(** Every entry of [scored] is an input item with its position and the score
    computed for it. *)
Lemma score_all_entries (items : list DigestItemInput) :
  Forall (fun e =>
            items !! entry_idx e = Some (entry_item e) /\
            entry_score e
              = composite_score lower strptime (clock (entry_idx e)) (entry_item e))
         (score_all lower strptime clock items).
Proof.
  apply Forall_forall. intros e (i & it & -> & Hi)%elem_of_lookup_imap. done.
Qed.

Lemma imap_idx {A B} (f : nat -> A -> B) (g : B -> nat) (l : list A) (k : nat) :
  (forall i x, g (f i x) = (k + i)%nat) -> g <$> imap f l = seq k (length l).
Proof.
  revert f k. induction l as [|x l IH]; intros f k Hg; simpl; [done|].
  f_equal; [rewrite Hg; lia|].
  apply IH. intros i y. simpl. rewrite Hg. lia.
Qed.

Lemma score_all_idx (items : list DigestItemInput) :
  entry_idx <$> score_all lower strptime clock items = seq 0 (length items).
Proof. by apply imap_idx. Qed.

Lemma sorted_precedes (l : list scored_entry) :
  Forall scored_ok l -> NoDup (entry_idx <$> l) ->
  StronglySorted (not_after key_ltb) l -> StronglySorted precedes l.
Proof.
  intros Hok Hnd Hs. induction Hs as [|a l Hs IH Ha]; [constructor|].
  apply Forall_cons in Hok as [Hoka Hok].
  rewrite fmap_cons in Hnd. apply NoDup_cons in Hnd as [Hnotin Hnd].
  constructor; [by apply IH|].
  rewrite Forall_forall in Ha, Hok. apply Forall_forall. intros b Hb.
  apply not_after_precedes; auto.
  intros Heq. apply Hnotin. rewrite Heq. by apply list_elem_of_fmap_2.
Qed.

Lemma sort_score_all_precedes (items : list DigestItemInput) :
  StronglySorted precedes (py_sort key_ltb (score_all lower strptime clock items)).
Proof.
  apply sorted_precedes.
  - rewrite py_sort_Permutation. apply score_all_ok.
  - rewrite py_sort_Permutation, score_all_idx. apply NoDup_seq.
  - apply (py_sort_sorted key_ltb scored_ok).
    + apply key_ltb_asym.
    + apply key_not_after_trans.
    + apply score_all_ok.
Qed.

Lemma length_sort_score_all (items : list DigestItemInput) :
  length (py_sort key_ltb (score_all lower strptime clock items)) = length items.
Proof. rewrite py_sort_Permutation. apply length_imap. Qed.

(** C1: for [top_k >= 0], [pre_rank] returns [min(top_k, len(items))] items,
    the items of the leading entries [top] of the ranked list.  Each entry is
    an input item with its position and composite score; [top] followed by
    the entries cut off is a rearrangement of all entries in which every
    entry precedes every later one (a strictly higher score, or an equal score
    and an earlier input position).  With [top_k = 0] the result is empty. *)
Theorem pre_rank_top_k (items : list DigestItemInput) (top_k : Z) :
  0 <= top_k ->
  let top := ranked_entries lower strptime clock items top_k in
  pre_rank lower strptime clock items top_k = entry_item <$> top /\
  length (pre_rank lower strptime clock items top_k)
    = Nat.min (Z.to_nat top_k) (length items) /\
  Forall (fun e =>
            items !! entry_idx e = Some (entry_item e) /\
            entry_score e
              = composite_score lower strptime (clock (entry_idx e)) (entry_item e))
         top /\
  (exists rest,
     top ++ rest ≡ₚ score_all lower strptime clock items /\
     StronglySorted precedes (top ++ rest)) /\
  pre_rank lower strptime clock items 0 = [].
Proof.
  intros Hk top. subst top. unfold pre_rank, ranked_entries, slice_to.
  apply Z.leb_le in Hk. rewrite Hk. simpl.
  split; [done|]. split; [|split; [|split; [|done]]].
  - by rewrite length_fmap, length_take, length_sort_score_all.
  - apply Forall_take. rewrite py_sort_Permutation. apply score_all_entries.
  - exists (drop (Z.to_nat top_k) (py_sort key_ltb (score_all lower strptime clock items))).
    rewrite take_drop. split.
    + apply py_sort_Permutation.
    + apply sort_score_all_precedes.
Qed.

(** C10: for [top_k < 0] the slice drops the last [|top_k|] ranked entries:
    the result has [max(0, len(items) + top_k)] items, and with the entries
    cut off it is the whole ranked list. *)
Theorem pre_rank_negative_top_k (items : list DigestItemInput) (top_k : Z) :
  top_k < 0 ->
  let ranked := py_sort key_ltb (score_all lower strptime clock items) in
  let top := ranked_entries lower strptime clock items top_k in
  pre_rank lower strptime clock items top_k = entry_item <$> top /\
  Z.of_nat (length (pre_rank lower strptime clock items top_k))
    = Z.max 0 (Z.of_nat (length items) + top_k) /\
  (exists cut,
     ranked = top ++ cut /\
     Z.of_nat (length cut) = Z.min (Z.of_nat (length items)) (- top_k)) /\
  ranked ≡ₚ score_all lower strptime clock items /\
  StronglySorted precedes ranked.
Proof.
  intros Hk ranked top. subst ranked top.
  unfold pre_rank, ranked_entries, slice_to.
  destruct (0 <=? top_k) eqn:E; [apply Z.leb_le in E; lia|].
  rewrite length_sort_score_all.
  split; [done|]. split; [|split; [|split]].
  - rewrite length_fmap, length_take, length_sort_score_all. lia.
  - exists (drop (Z.to_nat (Z.of_nat (length items) + top_k))
              (py_sort key_ltb (score_all lower strptime clock items))).
    rewrite take_drop, length_drop, length_sort_score_all. split; [done|lia].
  - apply py_sort_Permutation.
  - apply sort_score_all_precedes.
Qed.

End PreRank.

(** * The scorer *)

Example strptime_ymd_2026_11_03 :
  strptime_ymd (u "2026-11-03") (u "%Y-%m-%d") = Some (20760 * 86400000000).
Proof. vm_compute. reflexivity. Qed.

Lemma weighted_sum_close_checked :
  forallb (fun w => forallb (fun f => forallb (close_at w f) bucket_values)
                      bucket_values) weight_values = true.
Proof. vm_compute. reflexivity. Qed.

Lemma weighted_sum_close (w : Z) (f c : float) :
  w ∈ weight_values -> f ∈ bucket_values -> c ∈ bucket_values ->
  (Qabs (float_Q (weighted_sum w f c) - formula_Q w (float_Q f) (float_Q c))
   <= 1 # 1000000000000000)%Q.
Proof.
  intros Hw Hf Hc. pose proof weighted_sum_close_checked as H.
  rewrite forallb_forall in H. apply list_elem_of_In, H in Hw.
  rewrite forallb_forall in Hw. apply list_elem_of_In, Hw in Hf.
  rewrite forallb_forall in Hf. apply list_elem_of_In, Hf in Hc.
  by apply Qle_bool_iff.
Qed.

Lemma lower_latin1_on_ascii : lower_on_ascii lower_latin1.
Proof.
  intros s Hs. unfold lower_latin1. apply Forall_fmap_ext_1.
  eapply Forall_impl; [exact Hs|]. intros c Hc. simpl in Hc.
  unfold lower_latin1_cp, ascii_lower_cp.
  destruct ((65 <=? c) && (c <=? 90))%N; [reflexivity|].
  assert ((192 <=? c)%N = false) as -> by (apply N.leb_gt; lia).
  reflexivity.
Qed.

Lemma is_ascii_checked (s : list N) :
  forallb (fun c => (c <? 128)%N) s = true -> is_ascii s.
Proof.
  intros H. apply Forall_forall. intros c Hc.
  rewrite forallb_forall in H. apply N.ltb_lt, H. by apply list_elem_of_In.
Qed.

Section ScorerFacts.
Variable lower : list N -> list N.
Variable strptime : list N -> list N -> option Z.
Hypothesis lower_ascii : lower_on_ascii lower.

Lemma source_weight_in_unknown (table : list (list N * Z)) (src url_ : list N) :
  Forall (fun kw => contains kw.1 src = false /\ contains kw.1 url_ = false) table ->
  source_weight_in table src url_ = 2.
Proof.
  induction 1 as [|[k w] table [H1 H2] _ IH]; simpl in *; [done|].
  by rewrite H1, H2.
Qed.

Lemma source_weight_openai (url_ : list N) :
  source_weight_in _SOURCE_WEIGHTS (lower (u "OpenAI")) url_ = 5.
Proof. rewrite lower_ascii by (by apply is_ascii_checked). reflexivity. Qed.

Lemma content_score_long (item : DigestItemInput) (c : list N) :
  content item = Some c -> 5000 < Z.of_nat (length c) ->
  _content_length_score item = 5.0%float.
Proof.
  intros Hc Hlen. unfold _content_length_score. rewrite Hc.
  destruct c as [|x c]; [simpl in Hlen; lia|]. cbn [or_opt or_str].
  apply Z.ltb_lt in Hlen. by rewrite Hlen.
Qed.

Lemma content_score_short (item : DigestItemInput) (s : list N) :
  content item = None -> snippet item = Some s -> (length s <= 100)%nat ->
  _content_length_score item = 1.0%float.
Proof.
  intros Hc Hs Hlen. unfold _content_length_score. rewrite Hc, Hs.
  cbn [or_opt].
  assert (length (or_str (Some s) []) = length s) as -> by by destruct s.
  repeat case_match; try done;
    match goal with H : (_ <? _) = true |- _ => apply Z.ltb_lt in H; lia end.
Qed.

Lemma freshness_today (now dt : Z) (item : DigestItemInput) (d : list N) :
  date item = Some d -> d <> [] ->
  first_parse strptime date_formats (take 19 d) = Some dt ->
  dt <= now < dt + 86400000000 ->
  _freshness_score strptime now item = 5.0%float.
Proof.
  intros Hd Hne Hp Hnow. unfold _freshness_score. rewrite Hd.
  destruct d as [|x d]; [done|]. rewrite Hp.
  assert (timedelta_days now dt = 0) as ->; [|done].
  unfold timedelta_days. apply Z.div_small. lia.
Qed.

(** C9: the score is the weighted sum 0.4 * source weight + 0.3 * freshness
    + 0.3 * content volume in binary64 arithmetic, evaluated left to right,
    and lies within 10^-15 of the exact value of that formula; an item
    labelled "OpenAI",
    dated on the current day, with 6000 characters of content scores 5.0; an
    item no table key matches (none occurs in the lower-cased source label or
    URL), without a date, with a 50-character snippet as its only text scores
    1.7.  [lower] is [str.lower()] itself; that it maps the ASCII text
    "OpenAI" to "openai" is all scenario A takes from it. *)
Theorem composite_score_scenarios (now : Z) (item : DigestItemInput) :
  composite_score lower strptime now item
    = (0.4 * float_of_int (_source_weight lower item)
       + 0.3 * _freshness_score strptime now item
       + 0.3 * _content_length_score item)%float /\
  (Qabs (float_Q (composite_score lower strptime now item)
         - formula_Q (_source_weight lower item)
             (float_Q (_freshness_score strptime now item))
             (float_Q (_content_length_score item)))
   <= 1 # 1000000000000000)%Q /\
  (forall d dt c,
     source item = Some (u "OpenAI") ->
     date item = Some d -> d <> [] ->
     first_parse strptime date_formats (take 19 d) = Some dt ->
     dt <= now < dt + 86400000000 ->
     content item = Some c -> Z.of_nat (length c) = 6000 ->
     composite_score lower strptime now item = 5.0%float) /\
  (forall s,
     Forall (fun kw => contains kw.1 (lower (or_str (source item) [])) = false /\
                       contains kw.1 (lower (url item)) = false) _SOURCE_WEIGHTS ->
     date item = None ->
     content item = None -> snippet item = Some s -> length s = 50%nat ->
     composite_score lower strptime now item = 1.7%float).
Proof.
  split; [done|]. split.
  { apply weighted_sum_close;
      [apply _source_weight_values | apply _freshness_score_values
      | apply _content_length_score_values]. }
  split.
  - intros d dt c Hsrc Hd Hne Hp Hnow Hc Hlen. unfold composite_score.
    rewrite (freshness_today now dt item d) by done.
    rewrite (content_score_long item c) by (done || lia).
    unfold _source_weight. rewrite Hsrc.
    change (or_str (Some (u "OpenAI")) []) with (u "OpenAI").
    rewrite source_weight_openai. reflexivity.
  - intros s Hunk Hd Hc Hs Hlen. unfold composite_score.
    rewrite (content_score_short item s) by (done || lia).
    unfold _source_weight. rewrite (source_weight_in_unknown _ _ _ Hunk).
    unfold _freshness_score. rewrite Hd. reflexivity.
Qed.

End ScorerFacts.

(** * The fingerprint *)

Lemma str_ltb_asym (a b : list N) : str_ltb a b = true -> str_ltb b a = false.
Proof.
  revert b. induction a as [|x a IH]; intros [|y b]; simpl; try done.
  rewrite orb_true_iff, andb_true_iff, orb_false_iff, andb_false_iff.
  rewrite !N.ltb_lt, !N.eqb_eq, !N.ltb_ge, N.eqb_neq.
  intros [Hlt|[-> Hrec]]; [split; [lia|left; lia]|].
  split; [lia|right; by apply IH].
Qed.

Lemma str_not_after_trans (a b c : list N) :
  not_after str_ltb a b -> not_after str_ltb b c -> not_after str_ltb a c.
Proof.
  unfold not_after. revert b c.
  induction a as [|x a IH]; intros [|y b] [|z c]; simpl; try done.
  rewrite !orb_false_iff, !andb_false_iff.
  rewrite !N.ltb_ge, !N.eqb_neq.
  intros [H1 H2] [H3 H4]. split; [lia|].
  destruct (decide (z = x)) as [->|]; [|by left].
  right. assert (y = x) as -> by lia.
  destruct H2 as [|H2], H4 as [|H4]; try done. by apply (IH b c).
Qed.

Lemma str_not_after_antisym (a b : list N) :
  not_after str_ltb a b -> not_after str_ltb b a -> a = b.
Proof.
  unfold not_after. revert b.
  induction a as [|x a IH]; intros [|y b]; simpl; try done.
  rewrite !orb_false_iff, !andb_false_iff.
  rewrite !N.ltb_ge, !N.eqb_neq.
  intros [H1 H2] [H3 H4]. assert (y = x) as -> by lia.
  f_equal. destruct H2 as [|H2], H4 as [|H4]; try done. by apply IH.
Qed.

Lemma sorted_strs (keys : list (list N)) :
  StronglySorted (not_after str_ltb) (py_sort str_ltb keys).
Proof.
  apply (py_sort_sorted str_ltb (fun _ => True)).
  - intros x y _ _. apply str_ltb_asym.
  - intros x y z _ _ _. apply str_not_after_trans.
  - by apply Forall_forall.
Qed.

(** [sorted] returns the same list for every rearrangement of its input. *)
Lemma sorted_strs_Permutation (keys keys' : list (list N)) :
  keys ≡ₚ keys' -> py_sort str_ltb keys = py_sort str_ltb keys'.
Proof.
  intros Hp.
  apply (StronglySorted_unique_strong (not_after str_ltb)).
  - intros x y _ _. apply str_not_after_antisym.
  - apply sorted_strs.
  - apply sorted_strs.
  - by rewrite !py_sort_Permutation.
Qed.

Lemma hex_digit_is_hex (n : Z) : 0 <= n < 16 -> is_hex (hex_digit n) = true.
Proof.
  intros Hn. unfold is_hex, hex_digit.
  rewrite orb_true_iff, !andb_true_iff, !N.leb_le.
  destruct (n <? 10) eqn:E; [apply Z.ltb_lt in E; left | apply Z.ltb_ge in E; right]; lia.
Qed.

Lemma hex_word_spec (x : Z) :
  length (SHA256.hex_word x) = 8%nat /\ Forall (fun c => is_hex c = true) (SHA256.hex_word x).
Proof.
  unfold SHA256.hex_word. split; [by rewrite length_fmap|].
  apply Forall_fmap, Forall_forall. intros i _. simpl.
  apply hex_digit_is_hex.
  change 15 with (Z.ones 4). rewrite Z.land_ones by lia.
  apply Z.mod_pos_bound. lia.
Qed.

Lemma hex_words_spec (ws : list Z) :
  length (concat (SHA256.hex_word <$> ws)) = (8 * length ws)%nat /\
  Forall (fun c => is_hex c = true) (concat (SHA256.hex_word <$> ws)).
Proof.
  induction ws as [|x ws [IHlen IHhex]]; [by split|].
  destruct (hex_word_spec x) as [Hlen Hhex].
  rewrite fmap_cons. cbn [concat]. rewrite length_app, Forall_app, Hlen, IHlen.
  split; [simpl; lia|done].
Qed.

Lemma hexdigest_spec (msg : list Z) :
  length (SHA256.hexdigest msg) = 64%nat /\
  Forall (fun c => is_hex c = true) (SHA256.hexdigest msg).
Proof. apply (hex_words_spec [_; _; _; _; _; _; _; _]). Qed.

(** ** When the fingerprint exists: no key holds a surrogate *)

Lemma has_surrogate_app (a b : list N) :
  has_surrogate (a ++ b) = has_surrogate a || has_surrogate b.
Proof. apply existsb_app. Qed.

Lemma has_surrogate_escape (c : N) :
  has_surrogate (json_escape_cp c) = is_surrogate c.
Proof.
  unfold json_escape_cp.
  repeat (case_match; [ match goal with H : (_ =? _)%N = true |- _ =>
                          apply N.eqb_eq in H; subst c; reflexivity end |]).
  destruct (c <? 32)%N eqn:E.
  - apply N.ltb_lt in E.
    assert (is_surrogate c = false) as ->.
    { unfold is_surrogate. apply andb_false_iff. left. apply N.leb_gt. lia. }
    assert (forall n, 0 <= n < 16 -> is_surrogate (hex_digit n) = false) as Hd.
    { intros n Hn. unfold is_surrogate, hex_digit. apply andb_false_iff. left.
      apply N.leb_gt. destruct (n <? 10); lia. }
    rewrite has_surrogate_app. unfold has_surrogate at 2. cbn [existsb].
    rewrite !Hd; [reflexivity| |].
    + apply Z.mod_pos_bound. lia.
    + split; [apply Z.div_pos; lia | apply Z.div_lt_upper_bound; lia].
  - unfold has_surrogate. cbn. apply orb_false_r.
Qed.

Lemma has_surrogate_json_string (s : list N) :
  has_surrogate (json_string s) = has_surrogate s.
Proof.
  unfold json_string. rewrite !has_surrogate_app.
  change (has_surrogate [34%N]) with false. rewrite orb_false_r. cbn [orb].
  induction s as [|c s IH]; [reflexivity|].
  rewrite fmap_cons. cbn [concat]. rewrite has_surrogate_app, has_surrogate_escape, IH.
  reflexivity.
Qed.

Lemma has_surrogate_join (parts : list (list N)) :
  has_surrogate (join (u ", ") parts) = existsb has_surrogate parts.
Proof.
  induction parts as [|p [|q parts] IH]; [reflexivity| |].
  - cbn. by rewrite orb_false_r.
  - change (join (u ", ") (p :: q :: parts))
      with (p ++ u ", " ++ join (u ", ") (q :: parts)).
    rewrite !has_surrogate_app, IH. reflexivity.
Qed.

Lemma has_surrogate_json_dumps (keys : list (list N)) :
  has_surrogate (json_dumps_strs keys) = existsb has_surrogate keys.
Proof.
  unfold json_dumps_strs. rewrite !has_surrogate_app, has_surrogate_join.
  change (has_surrogate (u "[")) with false.
  change (has_surrogate (u "]")) with false. rewrite orb_false_r. cbn [orb].
  induction keys as [|k keys IH]; [reflexivity|].
  rewrite fmap_cons. cbn [existsb]. by rewrite has_surrogate_json_string, IH.
Qed.

Lemma existsb_false_Forall {A} (p : A -> bool) (l : list A) :
  existsb p l = false <-> Forall (fun x => p x = false) l.
Proof.
  induction l as [|x l IH]; cbn.
  - split; [constructor | reflexivity].
  - rewrite orb_false_iff, IH, Forall_cons. reflexivity.
Qed.

Lemma encode_utf8_is_Some (s : list N) :
  is_Some (encode_utf8 s) <-> has_surrogate s = false.
Proof.
  unfold encode_utf8. destruct (has_surrogate s).
  - split; [intros [? [=]] | discriminate].
  - split; [reflexivity | by eexists].
Qed.

Lemma _items_hash_is_Some (items : list DigestItemInput) :
  is_Some (_items_hash items) <-> keys_encodable items.
Proof.
  unfold _items_hash, keys_encodable.
  set (keys := py_sort str_ltb (item_key <$> items)).
  assert (is_Some (encode_utf8 (json_dumps_strs keys)) <->
          Forall (fun k => has_surrogate k = false) (item_key <$> items)) as H.
  { rewrite encode_utf8_is_Some, has_surrogate_json_dumps, existsb_false_Forall.
    unfold keys. by rewrite py_sort_Permutation. }
  rewrite Forall_fmap in H.
  rewrite <- (Forall_iff (fun it => has_surrogate (item_key it) = false)), <- H.
  - destruct (encode_utf8 (json_dumps_strs keys)); cbn.
    + split; by eexists.
    + split; intros [? [=]].
  - intros it. unfold item_key. cbn.
    rewrite !has_surrogate_app. change (has_surrogate (u "|")) with false.
    cbn [orb]. apply orb_false_iff.
Qed.


(** C7, amended: the fingerprint depends only on the keys with their
    multiplicities: item lists whose [title|url] keys are rearrangements of
    each other have the same fingerprint. *)
Theorem fingerprint_of_key_multiset (items items' : list DigestItemInput) :
  item_key <$> items ≡ₚ item_key <$> items' ->
  _items_hash items = _items_hash items'.
Proof.
  intros Hp. unfold _items_hash. by rewrite (sorted_strs_Permutation _ _ Hp).
Qed.

(** C7 as stated fails: an item list and the same list with its item repeated
    have the same set of keys and different fingerprints. *)
Lemma fingerprint_counts_repeats :
  let a := sample_item "GPT" "https://example.org/gpt" in
  (forall k, k ∈ item_key <$> [a] <-> k ∈ item_key <$> [a; a]) /\
  _items_hash [a] = Some (u "2486b6167d8996ac") /\
  _items_hash [a; a] = Some (u "850c2a484b4e2dae") /\
  _items_hash [a] <> _items_hash [a; a].
Proof.
  split; [|split; [|split]].
  - intros k. cbn [fmap list_fmap]. rewrite !elem_of_cons. tauto.
  - vm_compute. reflexivity.
  - vm_compute. reflexivity.
  - vm_compute. discriminate.
Qed.

(** * The fallback digest *)

Lemma required_get {A} (v : json -> option A) (key : string)
    (fields : list (list N * json)) (j : json) :
  get (u key) fields = Some j -> required v key fields = v j.
Proof. unfold required. by intros ->. Qed.

Lemma with_default_get {A} (v : json -> option A) (key : string) (d : A)
    (fields : list (list N * json)) (j : json) :
  get (u key) fields = Some j -> with_default v key d fields = v j.
Proof. unfold with_default. by intros ->. Qed.

Lemma as_strs_jstrs (l : list (list N)) : as_list as_str (jstrs l) = Some l.
Proof.
  unfold as_list, jstrs. apply mapM_Some. 
  apply Forall2_fmap_l, Forall_Forall2_diag, Forall_forall. done.
Qed.

Lemma mock_loop_value (lower : list N -> list N) (items : list DigestItemInput) :
  mock_loop lower items =
    (imap (story_dict lower) (take 12 items),
     match take 12 items with
     | [] => []
     | _ => [(u "Other", imap (sec_item_dict lower) (take 12 items))]
     end).
Proof.
  unfold mock_loop. generalize (take 12 items). clear items.
  induction l as [|x l IH] using rev_ind; [done|].
  rewrite !imap_app, foldl_app, IH. cbn [imap foldl fst snd]. f_equal.
  rewrite Nat.add_0_r. by destruct l.
Qed.

Lemma mapM_imap {A B C} (f : B -> option C) (g : nat -> A -> B) (h : nat -> A -> C)
    (l : list A) :
  (forall i x, f (g i x) = Some (h i x)) -> mapM f (imap g l) = Some (imap h l).
Proof.
  intros Hf. apply mapM_Some, Forall2_same_length_lookup.
  split; [by rewrite !length_imap|].
  intros i y z. rewrite !list_lookup_imap.
  destruct (l !! i); simpl; [|done]. intros [= <-] [= <-]. apply Hf.
Qed.

Section Fallback.
Variable lower : list N -> list N.
Variable coerce_int : json -> option Z.
Hypothesis coerce_int_JInt : forall z, coerce_int (JInt z) = Some z.

Ltac read_field :=
  first [ erewrite required_get by reflexivity
        | erewrite with_default_get by reflexivity ];
  unfold int_in, strs_len_in;
  rewrite ?coerce_int_JInt, ?as_strs_jstrs;
  cbn [as_str mbind option_bind andb Z.leb Z.compare Pos.compare Pos.compare_cont
       length Nat.leb].

Lemma validate_scores_333 :
  validate_DigestScores coerce_int scores_333 = Some mock_scores.
Proof.
  unfold validate_DigestScores, scores_333. cbn [as_obj mbind option_bind].
  do 3 read_field. done.
Qed.

Lemma validate_story_dict (i : nat) (item : DigestItemInput) :
  validate_TopStory coerce_int (story_dict lower i item) = Some (mock_story lower i item).
Proof.
  unfold validate_TopStory, story_dict. cbn [as_obj mbind option_bind].
  do 12 read_field. read_field. rewrite validate_scores_333. cbn [mbind option_bind].
  do 2 read_field. done.
Qed.

Lemma validate_sec_item_dict (i : nat) (item : DigestItemInput) :
  validate_SectionItem coerce_int (sec_item_dict lower i item) = Some (mock_sec_item lower i item).
Proof.
  unfold validate_SectionItem, sec_item_dict. cbn [as_obj mbind option_bind].
  do 6 read_field. read_field. rewrite validate_scores_333. cbn [mbind option_bind].
  read_field. done.
Qed.

Lemma validate_mock_sections (l : list DigestItemInput) :
  mapM (validate_Section coerce_int)
    ((fun kv : list N * list json =>
        JObj [ (u "name", JStr kv.1); (u "items", JArr kv.2) ]) <$>
     match l with
     | [] => []
     | _ => [(u "Other", imap (sec_item_dict lower) l)]
     end)
  = Some (mock_sections lower l).
Proof.
  destruct l as [|x l]; [done|].
  apply mapM_Some. repeat constructor. cbn [fst snd].
  unfold validate_Section. cbn [as_obj mbind option_bind].
  read_field. read_field. cbn [as_list].
  rewrite (mapM_imap _ _ (mock_sec_item lower)) by apply validate_sec_item_dict.
  done.
Qed.

Lemma validate_mock_stats (all_count kept : Z) :
  validate_DigestStats coerce_int
    (JObj [ (u "items_in", JInt all_count); (u "items_kept", JInt kept);
            (u "top_stories_count", JInt kept); (u "duplicates_count", JInt 0) ])
  = Some (DigestStats.Build_t all_count kept kept 0).
Proof.
  unfold validate_DigestStats. cbn [as_obj mbind option_bind].
  do 4 read_field. done.
Qed.

(** The fallback never fails: it returns [mock_output]. *)
Lemma _mock_digest_value (today : list N) (items : list DigestItemInput)
    (all_count : Z) :
  _mock_digest lower coerce_int today items all_count
    = Some (mock_output lower today items all_count).
Proof.
  unfold _mock_digest, mock_dict. rewrite mock_loop_value.
  unfold DigestOutput_model_validate. cbn [as_obj mbind option_bind].
  do 2 read_field. read_field. rewrite length_imap, validate_mock_stats.
  cbn [mbind option_bind].
  read_field. cbn [as_list].
  rewrite (mapM_imap _ _ (mock_story lower)) by apply validate_story_dict.
  cbn [mbind option_bind].
  read_field. cbn [as_list]. rewrite validate_mock_sections.
  cbn [mbind option_bind].
  do 3 read_field. done.
Qed.
End Fallback.

Lemma u_inj (s t : string) : u s = u t -> s = t.
Proof.
  revert t. induction s as [|a s IH]; intros [|b t]; simpl; try done.
  intros [= Hab Hst]. f_equal; [|by apply IH].
  rewrite <- (ascii_N_embedding a), <- (ascii_N_embedding b). by rewrite Hab.
Qed.

Lemma to_uint_nonnil (n : nat) : Nat.to_uint n <> Decimal.Nil.
Proof.
  intros H. pose proof (Unsigned.of_to n) as Hn. rewrite H in Hn.
  simpl in Hn. subst n. discriminate H.
Qed.

Lemma str_of_nat_inj (i j : nat) : str_of_nat i = str_of_nat j -> i = j.
Proof.
  unfold str_of_nat. intros H%u_inj.
  apply Unsigned.to_uint_inj.
  pose proof (NilZero.usu _ (to_uint_nonnil i)) as Hi.
  pose proof (NilZero.usu _ (to_uint_nonnil j)) as Hj.
  rewrite H in Hi. congruence.
Qed.

Section StoryIds.
Variable lower : list N -> list N.

Lemma story_id_nonempty (i : nat) (item : DigestItemInput) : story_id lower i item <> [].
Proof. unfold story_id. by destruct (_slugify lower (title item)). Qed.

Lemma story_id_slug (i : nat) (item : DigestItemInput) :
  _slugify lower (title item) <> [] -> story_id lower i item = _slugify lower (title item).
Proof. unfold story_id. by destruct (_slugify lower (title item)). Qed.

Lemma story_id_placeholder (i : nat) (item : DigestItemInput) :
  _slugify lower (title item) = [] -> story_id lower i item = u "item-" ++ str_of_nat i.
Proof. unfold story_id. by intros ->. Qed.
End StoryIds.

Section FallbackClaims.
Variable lower : list N -> list N.
Variable coerce_int : json -> option Z.
Hypothesis coerce_int_JInt : forall z, coerce_int (JInt z) = Some z.

(** C3: the fallback returns a digest: its kept count and its top-story count
    equal the number of top stories, it reports no duplicates and the given
    total, it has the first 12 items at most, and every story is in section
    "Other" with three bullets, the scores (3,3,3) and a non-empty id. *)
Theorem mock_digest_invariants (today : list N) (items : list DigestItemInput)
    (all_count : Z) :
  exists d,
    _mock_digest lower coerce_int today items all_count = Some d /\
    DigestStats.items_kept (DigestOutput.stats d)
      = Z.of_nat (length (DigestOutput.top_stories d)) /\
    DigestStats.top_stories_count (DigestOutput.stats d)
      = Z.of_nat (length (DigestOutput.top_stories d)) /\
    DigestStats.duplicates_count (DigestOutput.stats d) = 0 /\
    DigestStats.items_in (DigestOutput.stats d) = all_count /\
    length (DigestOutput.top_stories d) = Nat.min 12 (length items) /\
    Forall (fun s =>
              TopStory.section s = u "Other" /\
              length (TopStory.bullets s) = 3%nat /\
              TopStory.scores s = DigestScores.Build_t 3 3 3 /\
              TopStory.id s <> [])
           (DigestOutput.top_stories d).
Proof using coerce_int_JInt.
  exists (mock_output lower today items all_count).
  split; [by apply _mock_digest_value|].
  cbn [mock_output DigestOutput.stats DigestOutput.top_stories
       DigestStats.items_kept DigestStats.top_stories_count
       DigestStats.duplicates_count DigestStats.items_in].
  rewrite length_imap, length_take.
  repeat split; try done.
  apply Forall_forall. intros s (i & it & -> & _)%elem_of_lookup_imap.
  repeat split. apply story_id_nonempty.
Qed.

(** When the fallback ids are distinct: each id is the slug of the item's
    title, or [item-<position>] when the slug is empty; the ids are pairwise
    distinct when, among the first 12 items, no two at different positions
    share a non-empty title slug and no title slug is itself a placeholder
    [item-<j>]. *)
Lemma mock_ids_distinct (today : list N) (items : list DigestItemInput)
    (all_count : Z) :
  (forall i j a b,
     take 12 items !! i = Some a -> take 12 items !! j = Some b -> i <> j ->
     _slugify lower (title a) <> [] -> _slugify lower (title a) <> _slugify lower (title b)) ->
  (forall i a j,
     take 12 items !! i = Some a ->
     _slugify lower (title a) <> u "item-" ++ str_of_nat j) ->
  exists d,
    _mock_digest lower coerce_int today items all_count = Some d /\
    TopStory.id <$> DigestOutput.top_stories d = imap (story_id lower) (take 12 items) /\
    NoDup (TopStory.id <$> DigestOutput.top_stories d).
Proof using coerce_int_JInt.
  intros Hslug Hplace. exists (mock_output lower today items all_count).
  split; [by apply _mock_digest_value|].
  cbn [mock_output DigestOutput.top_stories].
  assert (TopStory.id <$> imap (mock_story lower) (take 12 items)
          = imap (story_id lower) (take 12 items)) as ->.
  { rewrite fmap_imap. by apply imap_ext. }
  split; [done|].
  apply NoDup_alt. intros i j x. rewrite !list_lookup_imap.
  destruct (take 12 items !! i) as [a|] eqn:Ha; [|done].
  destruct (take 12 items !! j) as [b|] eqn:Hb; [|done].
  simpl. intros [= <-] [= Heq].
  destruct (decide (i = j)) as [|Hne]; [done|exfalso].
  destruct (decide (_slugify lower (title a) = [])) as [Ea|Ea],
           (decide (_slugify lower (title b) = [])) as [Eb|Eb].
  - rewrite !story_id_placeholder in Heq by done.
    apply app_inv_head, str_of_nat_inj in Heq. done.
  - rewrite (story_id_placeholder lower i a), (story_id_slug lower j b) in Heq by done.
    by apply (Hplace j b i).
  - rewrite (story_id_slug lower i a), (story_id_placeholder lower j b) in Heq by done.
    by apply (Hplace i a j).
  - rewrite !story_id_slug in Heq by done.
    by apply (Hslug i j a b).
Qed.

End FallbackClaims.

(** C8 fails on the code: the fallback gives two items whose titles have the
    same slug the same id (and the same [ref_id] in the section), so the ids
    of the digest are not pairwise distinct.  The titles are ASCII, where
    [str.lower()] is known. *)
Lemma mock_ids_collide :
  let a := sample_item "GPT-5 released" "https://a.example/x" in
  let b := sample_item "GPT-5: Released!" "https://b.example/y" in
  exists ids,
    ids = [u "gpt-5-released"; u "gpt-5-released"] /\
    ~ NoDup ids /\
    forall lower coerce_int,
      lower_on_ascii lower -> (forall z, coerce_int (JInt z) = Some z) ->
      let d := mock_output lower (u "2026-11-03") [a; b] 2 in
      _mock_digest lower coerce_int (u "2026-11-03") [a; b] 2 = Some d /\
      TopStory.id <$> DigestOutput.top_stories d = ids.
Proof.
  intros a b. eexists. split; [reflexivity|]. split.
  - intros H. apply NoDup_cons in H as [H _]. apply H. left.
  - intros lower coerce_int Hlower Hint d.
    split; [by apply _mock_digest_value|].
    change (TopStory.id <$> DigestOutput.top_stories d)
      with [story_id lower 0 a; story_id lower 1 b].
    unfold story_id, _slugify, a, b, sample_item. cbn [title].
    rewrite !Hlower by (by apply is_ascii_checked).
    vm_compute. reflexivity.
Qed.

(** * Schema validation *)

Section ValidationFacts.
Variable coerce_int : json -> option Z.

Lemma int_in_range (lo hi : Z) (j : json) (z : Z) :
  int_in coerce_int lo hi j = Some z -> lo <= z <= hi.
Proof.
  unfold int_in. destruct (coerce_int j) as [z'|]; [|done]. cbn [mbind option_bind].
  destruct ((lo <=? z') && (z' <=? hi)) eqn:E; [|done]. intros [= <-].
  apply andb_true_iff in E as [?%Z.leb_le ?%Z.leb_le]. lia.
Qed.

Lemma strs_len_in_range (lo hi : nat) (j : json) (l : list (list N)) :
  strs_len_in lo hi j = Some l -> (lo <= length l <= hi)%nat.
Proof.
  unfold strs_len_in. destruct (as_list as_str j) as [l'|]; [|done].
  cbn [mbind option_bind].
  destruct ((lo <=? length l')%nat && (length l' <=? hi)%nat) eqn:E; [|done].
  intros [= <-]. apply andb_true_iff in E as [?%Nat.leb_le ?%Nat.leb_le]. lia.
Qed.

Lemma required_Some {A} (v : json -> option A) (key : string)
    (f : list (list N * json)) (a : A) :
  required v key f = Some a -> exists j, get (u key) f = Some j /\ v j = Some a.
Proof.
  unfold required. destruct (get (u key) f) as [j|]; [|done]. intros. by exists j.
Qed.

Lemma validate_DigestScores_range (j : json) (s : DigestScores.t) :
  validate_DigestScores coerce_int j = Some s -> scores_in_range s.
Proof.
  unfold validate_DigestScores. intros H. simplify_option_eq.
  repeat match goal with
         | H : required _ _ _ = Some _ |- _ =>
             apply required_Some in H as (? & _ & ?%int_in_range)
         end.
  unfold scores_in_range. cbn. auto.
Qed.

Lemma validate_TopStory_range (j : json) (s : TopStory.t) :
  validate_TopStory coerce_int j = Some s ->
  (3 <= length (TopStory.bullets s) <= 5)%nat /\ scores_in_range (TopStory.scores s).
Proof.
  unfold validate_TopStory. intros H. simplify_option_eq.
  repeat match goal with
         | H : required (strs_len_in _ _) _ _ = Some _ |- _ =>
             apply required_Some in H as (? & _ & ?%strs_len_in_range)
         | H : required (validate_DigestScores _) _ _ = Some _ |- _ =>
             apply required_Some in H as (? & _ & ?%validate_DigestScores_range)
         end.
  by split.
Qed.

Lemma validate_SectionItem_range (j : json) (it : SectionItem.t) :
  validate_SectionItem coerce_int j = Some it -> scores_in_range (SectionItem.scores it).
Proof.
  unfold validate_SectionItem. intros H. simplify_option_eq.
  repeat match goal with
         | H : required (validate_DigestScores _) _ _ = Some _ |- _ =>
             apply required_Some in H as (? & _ & ?%validate_DigestScores_range)
         end.
  done.
Qed.

Lemma as_list_Forall {A} (v : json -> option A) (P : A -> Prop) (j : json)
    (l : list A) :
  (forall x a, v x = Some a -> P a) -> as_list v j = Some l -> Forall P l.
Proof.
  intros Hv. destruct j; try done. cbn [as_list]. intros H%mapM_Some.
  induction H; constructor; eauto.
Qed.

Lemma validate_Section_range (j : json) (g : DigestSection.t) :
  validate_Section coerce_int j = Some g ->
  Forall (fun it => scores_in_range (SectionItem.scores it)) (DigestSection.items g).
Proof.
  unfold validate_Section. intros H. simplify_option_eq.
  match goal with
  | H : required (as_list _) _ _ = Some _ |- _ =>
      apply required_Some in H as (? & _ & H)
  end.
  eapply as_list_Forall; [|done]. apply validate_SectionItem_range.
Qed.

(** C5, amended: a candidate is accepted only if it is an object with the
    fields generated_at, stats, top_stories and sections, every story's
    bullets number 3 to 5, and every score of every story and section item is
    an integer from 1 to 5.  (Nothing relates stats.items_kept to the number
    of stories, and a section label is any text.) *)
Theorem validated_digest_constraints (data : json) (d : DigestOutput.t) :
  DigestOutput_model_validate coerce_int data = Some d ->
  (exists f, data = JObj f /\
     is_Some (get (u "generated_at") f) /\ is_Some (get (u "stats") f) /\
     is_Some (get (u "top_stories") f) /\ is_Some (get (u "sections") f)) /\
  Forall (fun s => (3 <= length (TopStory.bullets s) <= 5)%nat /\
                   scores_in_range (TopStory.scores s))
         (DigestOutput.top_stories d) /\
  Forall (fun g => Forall (fun it => scores_in_range (SectionItem.scores it))
                          (DigestSection.items g))
         (DigestOutput.sections d).
Proof.
  unfold DigestOutput_model_validate. intros H.
  destruct data as [| | | | |?|f]; try done. cbn [as_obj mbind option_bind] in H.
  simplify_option_eq.
  repeat match goal with
         | H : required _ _ _ = Some _ |- _ =>
             apply required_Some in H as (? & ? & ?)
         end.
  split; [exists f; eauto 10|].
  cbn [DigestOutput.top_stories DigestOutput.sections].
  split.
  - eapply as_list_Forall; [|done]. apply validate_TopStory_range.
  - eapply as_list_Forall; [|done]. apply validate_Section_range.
Qed.

End ValidationFacts.

Lemma with_default_absent {A} (v : json -> option A) (key : string) (d : A)
    (fields : list (list N * json)) :
  get (u key) fields = None -> with_default v key d fields = Some d.
Proof. unfold with_default. by intros ->. Qed.

Ltac field_with law :=
  first [ erewrite required_get by reflexivity
        | erewrite with_default_get by reflexivity
        | erewrite with_default_absent by reflexivity ];
  unfold int_in, strs_len_in;
  rewrite ?law, ?as_strs_jstrs;
  cbn [as_str mbind option_bind andb Z.leb Z.compare Pos.compare Pos.compare_cont
       length Nat.leb].

(** C5 as stated fails: validation accepts a candidate whose items_kept is 7
    with one top story, and whose story carries a label outside the closed
    set. *)
Lemma validation_accepts_gossip :
  exists d,
    (forall coerce_int, (forall z, coerce_int (JInt z) = Some z) ->
       DigestOutput_model_validate coerce_int gossip_digest = Some d) /\
    DigestStats.items_kept (DigestOutput.stats d) = 7 /\
    length (DigestOutput.top_stories d) = 1%nat /\
    TopStory.section <$> DigestOutput.top_stories d = [u "Gossip"] /\
    u "Gossip" ∉ SECTION_LABELS.
Proof.
  eexists. split; [|split; [|split; [|split]]].
  - intros coerce_int law.
    unfold DigestOutput_model_validate, gossip_digest.
    cbn [as_obj mbind option_bind].
    unfold validate_DigestStats, validate_TopStory, gossip_story.
    cbn [as_obj mbind option_bind].
    repeat first
      [ field_with law
      | rewrite (validate_scores_333 _ law)
      | progress cbn [as_list as_obj mapM mret option_ret mbind option_bind
                      fmap option_fmap option_map] ].
    reflexivity.
  - reflexivity.
  - reflexivity.
  - reflexivity.
  - unfold SECTION_LABELS. intros H. 
    repeat (apply elem_of_cons in H as [H|H]; [by apply u_inj in H|]).
    by apply elem_of_nil in H.
Qed.

(** * [generate_digest_json] *)

Section CuratorFacts.
Variable lower : list N -> list N.
Variable coerce_int : json -> option Z.
Variable json_loads : list N -> option json.
Variable model_dump_json : DigestOutput.t -> outcome (list N).
Variable chat_completion : list N -> list N -> list json -> Z -> nat -> llm_reply.
Hypothesis coerce_int_JInt : forall z, coerce_int (JInt z) = Some z.

Local Abbreviation generate := (generate_digest_json lower coerce_int json_loads model_dump_json chat_completion).
Local Abbreviation llm := (llm_digest coerce_int json_loads chat_completion).
Local Abbreviation put := (_cache_put model_dump_json).
Local Abbreviation store := (store_and_return model_dump_json).

(** The [try] block up to [result] fails exactly when the request raises,
    the reply is not JSON, or the parsed reply does not validate. *)
Lemma llm_digest_None (settings : Settings) (key : list N)
    (items : list DigestItemInput) (all_count : Z) :
  llm settings key items all_count = None <->
  let reply := chat_completion key (model settings) (payload_dict <$> items)
                 all_count (length items) in
  reply = LLMRaises \/
  exists c, reply = LLMContent c /\
    (json_loads (or_str c (u "{}")) = None \/
     exists data, json_loads (or_str c (u "{}")) = Some data /\
                  DigestOutput_model_validate coerce_int data = None).
Proof.
  unfold llm_digest. cbn zeta.
  destruct (chat_completion _ _ _ _ _) as [|c]; [naive_solver|].
  destruct (json_loads (or_str c (u "{}"))) as [data|] eqn:E;
    cbn [mbind option_bind]; [|naive_solver].
  split; [intros H; right; exists c; naive_solver|].
  intros [?|(c' & [= <-] & [?|(data' & ? & ?)])]; naive_solver.
Qed.

(** The write succeeds when the serializer returns a text without
    surrogates, and it raises otherwise. *)
Lemma _cache_put_written (cache : gmap (list N) (list N)) (h text : list N)
    (d : DigestOutput.t) :
  model_dump_json d = Returned text -> has_surrogate text = false ->
  put cache h d = (Returned tt, <[h := text]> cache).
Proof. intros Hd Hs. unfold _cache_put, encode_utf8. by rewrite Hd, Hs. Qed.

Lemma _cache_put_cases (cache : gmap (list N) (list N)) (h : list N)
    (d : DigestOutput.t) :
  (exists text, model_dump_json d = Returned text /\ has_surrogate text = false /\
     put cache h d = (Returned tt, <[h := text]> cache)) \/
  (exists e, model_dump_json d = Raised e /\ put cache h d = (Raised e, cache)) \/
  (exists text, model_dump_json d = Returned text /\ has_surrogate text = true /\
     put cache h d = (Raised UnicodeEncodeError, <[h := []]> cache)).
Proof.
  unfold _cache_put, encode_utf8.
  destruct (model_dump_json d) as [text|e]; [|right; left; by exists e].
  destruct (has_surrogate text) eqn:E; [right; right | left]; by exists text.
Qed.

Lemma store_and_return_written (cache : gmap (list N) (list N)) (h text : list N)
    (d : DigestOutput.t) :
  model_dump_json d = Returned text -> has_surrogate text = false ->
  store cache h d true = (Returned d, <[h := text]> cache).
Proof.
  intros Hd Hs. unfold store_and_return. by rewrite (_cache_put_written _ _ text).
Qed.

Lemma store_and_return_raised (cache cache' : gmap (list N) (list N)) (h : list N)
    (d : DigestOutput.t) (e : exn) :
  put cache h d = (Raised e, cache') ->
  store cache h d true = (Raised e, cache').
Proof. intros H. unfold store_and_return. by rewrite H. Qed.

Lemma mock_and_store_value (today : list N) (cache : gmap (list N) (list N))
    (h : list N) (items : list DigestItemInput) (all_count : Z) (use_cache : bool) :
  mock_and_store lower coerce_int model_dump_json today cache h items all_count use_cache
  = store cache h (mock_output lower today items all_count) use_cache.
Proof using coerce_int_JInt.
  unfold mock_and_store. by rewrite _mock_digest_value.
Qed.

(** What the call does once the fingerprint [h] is there and the cache has
    no entry under it (or is off). *)
Lemma generate_after_hash (settings : Settings) (today h : list N)
    (cache : gmap (list N) (list N)) (items : list DigestItemInput)
    (all_count : Z) (use_cache : bool) :
  _items_hash items = Some h ->
  (use_cache = true -> cache !! h = None) ->
  generate settings today cache items all_count use_cache
  = match openai_api_key settings with
    | None | Some [] =>
        store cache h (mock_output lower today items all_count) use_cache
    | Some key =>
        match llm settings key items all_count with
        | Some result =>
            match store cache h result use_cache with
            | (Returned result, cache') => (Returned result, cache')
            | (Raised _, cache') =>
                store cache' h (mock_output lower today items all_count) use_cache
            end
        | None => store cache h (mock_output lower today items all_count) use_cache
        end
    end.
Proof using coerce_int_JInt.
  intros Hh Hmiss. unfold generate_digest_json. rewrite Hh.
  assert ((if use_cache
           then _cache_get coerce_int json_loads cache h
           else Returned None) = Returned None) as ->.
  { destruct use_cache; [|done]. unfold _cache_get. by rewrite Hmiss. }
  destruct (openai_api_key settings) as [[|k key]|];
    rewrite ?mock_and_store_value; try reflexivity.
  destruct (llm_digest _ _ _ _ _ _ _); rewrite ?mock_and_store_value; [|reflexivity].
  destruct (store_and_return _ _ _ _ _) as [[r|e] c]; [reflexivity|].
  by rewrite mock_and_store_value.
Qed.

(** Without a key the fallback is returned, and stored when the cache is on. *)
Lemma generate_digest_json_no_key (settings : Settings) (today h : list N)
    (cache : gmap (list N) (list N)) (items : list DigestItemInput)
    (all_count : Z) (use_cache : bool) :
  or_str (openai_api_key settings) [] = [] ->
  _items_hash items = Some h ->
  (use_cache = true -> cache !! h = None) ->
  generate settings today cache items all_count use_cache
    = store cache h (mock_output lower today items all_count) use_cache.
Proof using coerce_int_JInt.
  intros Hkey Hh Hmiss. rewrite (generate_after_hash _ _ h) by done.
  by destruct (openai_api_key settings) as [[|k key]|].
Qed.

(** A cache hit is returned as it is, without any generation. *)
Lemma generate_digest_json_hit (settings : Settings) (today h text : list N)
    (cache : gmap (list N) (list N)) (items : list DigestItemInput)
    (all_count : Z) (d : DigestOutput.t) :
  _items_hash items = Some h ->
  cache !! h = Some text ->
  model_validate_json coerce_int json_loads text = Some d ->
  generate settings today cache items all_count true = (Returned d, cache).
Proof.
  intros Hh Hc Hv. unfold generate_digest_json, _cache_get. by rewrite Hh, Hc, Hv.
Qed.

(** C4 fails on the code.  The fingerprint is computed before the [try]
    block, so when a title or URL holds a surrogate the call raises
    [UnicodeEncodeError] whatever the settings, the cache and the client do;
    and when the [try] block fails, the fallback digest is written to the
    cache by the [except] handler itself, so an exception of that write
    (the serializer's, or [UnicodeEncodeError] from the file, which is then
    left empty) escapes the call. *)
Theorem generate_digest_json_escapes (settings : Settings) (today : list N)
    (cache : gmap (list N) (list N)) (items : list DigestItemInput)
    (all_count : Z) :
  (~ keys_encodable items ->
   forall use_cache,
     generate settings today cache items all_count use_cache
       = (Raised UnicodeEncodeError, cache)) /\
  (forall key h e cache',
     openai_api_key settings = Some key -> key <> [] ->
     _items_hash items = Some h -> cache !! h = None ->
     llm settings key items all_count = None ->
     put cache h (mock_output lower today items all_count) = (Raised e, cache') ->
     generate settings today cache items all_count true = (Raised e, cache')).
Proof using coerce_int_JInt.
  split.
  - intros Hk use_cache. unfold generate_digest_json.
    destruct (_items_hash items) as [h|] eqn:E; [|reflexivity].
    exfalso. apply Hk, _items_hash_is_Some. by exists h.
  - intros key h e cache' Hkey Hne Hh Hmiss Hllm Hput.
    rewrite (generate_after_hash _ _ h) by done.
    rewrite Hkey, Hllm. destruct key as [|k key]; [done|].
    by apply store_and_return_raised.
Qed.

(** C6 fails on the code: when the artifact stored under the fingerprint
    does not parse or does not validate, the cache read raises, the exception
    escapes [generate_digest_json], nothing is generated and the bad entry
    stays. *)
Theorem generate_digest_json_bad_cache_raises (settings : Settings)
    (today h text : list N) (cache : gmap (list N) (list N))
    (items : list DigestItemInput) (all_count : Z) :
  _items_hash items = Some h ->
  cache !! h = Some text ->
  model_validate_json coerce_int json_loads text = None ->
  generate settings today cache items all_count true
    = (Raised ValidationError, cache).
Proof.
  intros Hh Hc Hv. unfold generate_digest_json, _cache_get. by rewrite Hh, Hc, Hv.
Qed.

End CuratorFacts.

Lemma source_weight_in_first_match (table : list (list N * Z)) (src url_ : list N) :
  StronglySorted (fun a b : list N * Z => b.2 <= a.2) table ->
  Forall (fun kw : list N * Z => 2 <= kw.2) table ->
  let w := source_weight_in table src url_ in
  (forall key w', (key, w') ∈ table ->
     contains key src || contains key url_ = true -> w' <= w) /\
  (w = 2 \/ exists key, (key, w) ∈ table /\
                        contains key src || contains key url_ = true).
Proof.
  intros Hs Hge. induction Hs as [|[k wk] table Hs IH Hk]; simpl.
  - split; [intros ?? []%elem_of_nil|by left].
  - apply Forall_cons in Hge as [Hk2 Hge]. simpl in Hk2.
    destruct (contains k src || contains k url_) eqn:E.
    + split.
      * intros key w' Hin _. apply elem_of_cons in Hin as [[= -> ->]|Hin]; [lia|].
        rewrite Forall_forall in Hk. by apply (Hk (key, w')).
      * right. exists k. split; [left|done].
    + destruct (IH Hge) as [IH1 IH2]. split.
      * intros key w' Hin Hm. apply elem_of_cons in Hin as [[= -> ->]|Hin].
        -- congruence.
        -- by apply (IH1 key).
      * destruct IH2 as [?|(key & ? & ?)]; [by left|].
        right. exists key. split; [by right|done].
Qed.

(** X1: the source weight is the highest weight among the table keys that
    occur in the lower-cased source label or URL, and 2 when none occurs (the
    table lists its keys by falling weight, so the first match is the best);
    it always lies between 2 and 5. *)
Theorem _source_weight_highest_match (lower : list N -> list N)
    (item : DigestItemInput) :
  (forall key w, (key, w) ∈ _SOURCE_WEIGHTS -> key_matches lower key item = true ->
     w <= _source_weight lower item) /\
  (_source_weight lower item = 2 \/
   exists key, (key, _source_weight lower item) ∈ _SOURCE_WEIGHTS /\
               key_matches lower key item = true) /\
  2 <= _source_weight lower item <= 5.
Proof.
  destruct (source_weight_in_first_match _SOURCE_WEIGHTS
              (lower (or_str (source item) [])) (lower (url item)))
    as [H1 H2].
  - unfold _SOURCE_WEIGHTS. repeat (constructor; [|repeat constructor; simpl; lia]).
    constructor.
  - unfold _SOURCE_WEIGHTS. repeat (constructor; [simpl; lia|]). constructor.
  - split; [exact H1|]. split; [exact H2|].
    pose proof (_source_weight_values lower item) as Hv. unfold weight_values in Hv.
    repeat (apply elem_of_cons in Hv as [->|Hv]; [lia|]).
    by apply elem_of_nil in Hv.
Qed.

Section ScorerOrder.
Variable lower : list N -> list N.
Variable strptime : list N -> list N -> option Z.

Lemma _freshness_score_parsed (now : Z) (item : DigestItemInput) :
  _freshness_score strptime now item =
    match parsed_date strptime item with
    | None => 2.0%float
    | Some dt =>
        let days_old := timedelta_days now dt in
        if days_old <=? 1 then 5.0%float
        else if days_old <=? 3 then 4.0%float
        else if days_old <=? 7 then 3.0%float
        else if days_old <=? 30 then 2.0%float
        else 1.0%float
    end.
Proof. unfold _freshness_score, parsed_date. by destruct (date item) as [[|c d]|]. Qed.

Lemma timedelta_days_mono (now dt dt' : Z) :
  dt <= dt' -> timedelta_days now dt' <= timedelta_days now dt.
Proof. intros H. unfold timedelta_days. apply Z.div_le_mono; lia. Qed.

(** X2: of two items whose dates parse, the one with the later date never has
    the lower freshness score (whatever the clock reads). *)
Theorem _freshness_score_newer_not_lower (now : Z) (a b : DigestItemInput)
    (dta dtb : Z) :
  parsed_date strptime a = Some dta -> parsed_date strptime b = Some dtb ->
  dta <= dtb ->
  (_freshness_score strptime now a <=? _freshness_score strptime now b)%float = true.
Proof.
  intros Ha Hb Hle. rewrite !_freshness_score_parsed, Ha, Hb. cbn zeta.
  pose proof (timedelta_days_mono now dta dtb Hle) as Hd.
  repeat case_match; try reflexivity;
    repeat match goal with
           | H : (_ <=? _) = true |- _ => apply Z.leb_le in H
           | H : (_ <=? _) = false |- _ => apply Z.leb_gt in H
           end; lia.
Qed.

(** X3: a date in the future, or less than two days before the clock reading,
    has the top freshness 5.0; a missing, empty or unparseable date has 2.0,
    which is also what a date more than 7 and at most 30 whole days old gets. *)
Theorem _freshness_score_edges (now : Z) (item : DigestItemInput) :
  (forall dt, parsed_date strptime item = Some dt -> now - dt < 2 * 86400000000 ->
     _freshness_score strptime now item = 5.0%float) /\
  (parsed_date strptime item = None ->
     _freshness_score strptime now item = 2.0%float) /\
  (forall dt, parsed_date strptime item = Some dt ->
     8 * 86400000000 <= now - dt < 31 * 86400000000 ->
     _freshness_score strptime now item = 2.0%float).
Proof.
  rewrite _freshness_score_parsed. split; [|split].
  - intros dt -> H. cbn zeta.
    assert (timedelta_days now dt <= 1) as ->%Z.leb_le; [|done].
    unfold timedelta_days.
    apply Z.lt_succ_r, Z.div_lt_upper_bound; lia.
  - by intros ->.
  - intros dt -> [H1 H2]. cbn zeta.
    assert (8 <= timedelta_days now dt <= 30) as Hd.
    { unfold timedelta_days. split.
      - apply Z.div_le_lower_bound; lia.
      - apply Z.lt_succ_r, Z.div_lt_upper_bound; lia. }
    repeat case_match; try reflexivity;
      repeat match goal with
             | H : (_ <=? _) = true |- _ => apply Z.leb_le in H
             | H : (_ <=? _) = false |- _ => apply Z.leb_gt in H
             end; lia.
Qed.

Lemma _content_length_score_text_len (item : DigestItemInput) :
  _content_length_score item =
    if 5000 <? text_len item then 5.0%float
    else if 2000 <? text_len item then 4.0%float
    else if 500 <? text_len item then 3.0%float
    else if 100 <? text_len item then 2.0%float
    else 1.0%float.
Proof. reflexivity. Qed.

(** X4: the content score never falls when the text grows: an item whose text
    (content, else snippet) is at least as long as another's scores at least
    as high. *)
Theorem _content_length_score_mono (a b : DigestItemInput) :
  text_len a <= text_len b ->
  (_content_length_score a <=? _content_length_score b)%float = true.
Proof.
  intros Hle. rewrite !_content_length_score_text_len.
  repeat case_match; try reflexivity;
    repeat match goal with
           | H : (_ <? _) = true |- _ => apply Z.ltb_lt in H
           | H : (_ <? _) = false |- _ => apply Z.ltb_ge in H
           end; lia.
Qed.

Lemma score_values_range : forallb in_score_range score_values = true.
Proof. vm_compute. reflexivity. Qed.

(** X5: every composite score lies between 1.4 and 5.0. *)
Theorem composite_score_range (now : Z) (item : DigestItemInput) :
  (1.4 <=? composite_score lower strptime now item)%float = true /\
  (composite_score lower strptime now item <=? 5.0)%float = true.
Proof.
  pose proof score_values_range as H. rewrite forallb_forall in H.
  pose proof (composite_score_values lower strptime now item) as Hin.
  apply list_elem_of_In, H in Hin. unfold in_score_range in Hin.
  by apply andb_true_iff in Hin.
Qed.

Lemma weighted_sum_mono_checked :
  forallb (fun w => forallb (fun w' => forallb (fun f => forallb (fun f' =>
    forallb (fun c => forallb (fun c' => sum_mono_at w w' f f' c c')
      bucket_values) bucket_values) bucket_values) bucket_values)
    weight_values) weight_values = true.
Proof. vm_compute. reflexivity. Qed.

(** X6: the composite score is monotone in its three signals: an item with a
    source weight, a freshness and a content score each at least another's
    has a composite score at least the other's, rounding included. *)
Theorem composite_score_mono (now now' : Z) (a b : DigestItemInput) :
  _source_weight lower a <= _source_weight lower b ->
  (_freshness_score strptime now a <=? _freshness_score strptime now' b)%float = true ->
  (_content_length_score a <=? _content_length_score b)%float = true ->
  (composite_score lower strptime now a <=? composite_score lower strptime now' b)%float = true.
Proof.
  intros Hw Hf Hc. unfold composite_score.
  pose proof weighted_sum_mono_checked as H.
  repeat setoid_rewrite forallb_forall in H.
  specialize (H _ (proj1 (list_elem_of_In _ _) (_source_weight_values lower a))
                _ (proj1 (list_elem_of_In _ _) (_source_weight_values lower b))
                _ (proj1 (list_elem_of_In _ _) (_freshness_score_values strptime now a))
                _ (proj1 (list_elem_of_In _ _) (_freshness_score_values strptime now' b))
                _ (proj1 (list_elem_of_In _ _) (_content_length_score_values a))
                _ (proj1 (list_elem_of_In _ _) (_content_length_score_values b))).
  unfold sum_mono_at in H. apply Z.leb_le in Hw. rewrite Hw, Hf, Hc in H.
  exact H.
Qed.

End ScorerOrder.

Lemma py_sort_of_sorted {A} (lt : A -> A -> bool) (l : list A) :
  StronglySorted (not_after lt) l -> py_sort lt l = l.
Proof.
  induction 1 as [|x l Hs IH Hx]; [done|].
  cbn [py_sort foldr]. fold (py_sort lt l). rewrite IH.
  destruct l as [|y l]; [done|]. simpl.
  apply Forall_cons in Hx as [Hy _]. unfold not_after in Hy. by rewrite Hy.
Qed.

Lemma slice_to_sublist {A} (l : list A) (k : Z) : slice_to l k `sublist_of` l.
Proof. unfold slice_to. destruct (0 <=? k); apply sublist_take. Qed.

Section PreRankMore.
Variable lower : list N -> list N.
Variable strptime : list N -> list N -> option Z.
Variable clock : nat -> Z.

Lemma score_all_items (items : list DigestItemInput) :
  entry_item <$> score_all lower strptime clock items = items.
Proof.
  unfold score_all. rewrite fmap_imap.
  induction items as [|x l IH] using rev_ind; [done|].
  rewrite imap_app, IH. done.
Qed.

Lemma length_pre_rank (items : list DigestItemInput) (top_k : Z) :
  0 <= top_k ->
  length (pre_rank lower strptime clock items top_k)
    = Nat.min (Z.to_nat top_k) (length items).
Proof.
  intros Hk%Z.leb_le. unfold pre_rank, ranked_entries, slice_to. rewrite Hk.
  by rewrite length_fmap, length_take, length_sort_score_all.
Qed.

(** X7: [pre_rank] only selects and reorders: what it returns is part of the
    input, each item at most as often as it was given, for every [top_k]; and
    when [top_k] is at least the number of items, the result is a
    rearrangement of the whole input. *)
Theorem pre_rank_selects (items : list DigestItemInput) (top_k : Z) :
  pre_rank lower strptime clock items top_k ⊆+ items /\
  (Z.of_nat (length items) <= top_k ->
   pre_rank lower strptime clock items top_k ≡ₚ items).
Proof.
  assert (entry_item <$> py_sort key_ltb (score_all lower strptime clock items) ≡ₚ items)
    as Hall by by rewrite py_sort_Permutation, score_all_items.
  split.
  - unfold pre_rank, ranked_entries. rewrite <- Hall at 2.
    apply sublist_submseteq, fmap_sublist, slice_to_sublist.
  - intros Hk. unfold pre_rank, ranked_entries, slice_to.
    destruct (0 <=? top_k) eqn:E; [|apply Z.leb_gt in E; lia].
    rewrite take_ge; [done|]. rewrite length_sort_score_all. lia.
Qed.

(** X8: raising [top_k] only appends.  For two calls on the same items with
    [0 <= k <= k'], between which no item changes its freshness score (each
    call reads the clock anew, [clock'] being the readings of the second),
    the result for [k] is the first [k] items of the result for [k']. *)
Theorem pre_rank_prefix (clock' : nat -> Z) (items : list DigestItemInput)
    (k k' : Z) :
  (forall i item, items !! i = Some item ->
     _freshness_score strptime (clock i) item
       = _freshness_score strptime (clock' i) item) ->
  0 <= k <= k' ->
  pre_rank lower strptime clock items k
    = take (Z.to_nat k) (pre_rank lower strptime clock' items k').
Proof.
  intros Hsame [H0 Hk]. unfold pre_rank, ranked_entries, slice_to.
  assert (score_all lower strptime clock items = score_all lower strptime clock' items)
    as ->.
  { unfold score_all. apply imap_ext. intros i item Hi. unfold composite_score.
    by rewrite (Hsame i item Hi). }
  assert ((0 <=? k) = true) as -> by by apply Z.leb_le.
  assert ((0 <=? k') = true) as -> by (apply Z.leb_le; lia).
  rewrite <- fmap_take, take_take. do 2 f_equal. lia.
Qed.

Lemma score_eqb_refl (s : float) : s ∈ score_values -> (- s =? - s)%float = true.
Proof.
  intros Hs. destruct (rank_spec s s Hs Hs) as (_ & _ & _ & ->). apply Z.eqb_refl.
Qed.

Lemma StronglySorted_lookup {A} (R : A -> A -> Prop) (l : list A) :
  (forall i j x y, l !! i = Some x -> l !! j = Some y -> (i < j)%nat -> R x y) ->
  StronglySorted R l.
Proof.
  induction l as [|a l IH]; intros H; constructor.
  - apply IH. intros i j x y Hi Hj Hij. apply (H (S i) (S j)); [done|done|lia].
  - apply Forall_forall. intros y [j Hj]%list_elem_of_lookup.
    apply (H 0%nat (S j)); [done|done|lia].
Qed.

Lemma score_all_sorted_when_tied (items : list DigestItemInput) :
  (forall i j a b, items !! i = Some a -> items !! j = Some b ->
     composite_score lower strptime (clock i) a = composite_score lower strptime (clock j) b) ->
  StronglySorted (not_after key_ltb) (score_all lower strptime clock items).
Proof.
  intros Htie. apply StronglySorted_lookup. intros i j x y Hi Hj Hij.
  unfold score_all in Hi, Hj.
  apply list_lookup_imap_Some in Hi as (a & Ha & ->).
  apply list_lookup_imap_Some in Hj as (b & Hb & ->).
  unfold not_after, key_ltb. cbn [entry_score entry_idx fst snd].
  rewrite (Htie j i b a Hb Ha).
  rewrite score_eqb_refl by apply composite_score_values.
  apply Nat.ltb_ge. lia.
Qed.

(** X9: when all items get the same score, [pre_rank] keeps the input order:
    for [top_k >= 0] it returns the first [top_k] items as given. *)
Theorem pre_rank_all_tied (items : list DigestItemInput) (top_k : Z) :
  (forall i j a b, items !! i = Some a -> items !! j = Some b ->
     composite_score lower strptime (clock i) a = composite_score lower strptime (clock j) b) ->
  0 <= top_k ->
  pre_rank lower strptime clock items top_k = take (Z.to_nat top_k) items.
Proof.
  intros Htie Hk. unfold pre_rank, ranked_entries, slice_to.
  apply Z.leb_le in Hk. rewrite Hk.
  rewrite py_sort_of_sorted by by apply score_all_sorted_when_tied.
  by rewrite fmap_take, score_all_items.
Qed.

End PreRankMore.

(** * Further properties of the slug and of the fallback digest *)

Lemma lstrip_drop (p : N -> bool) (s : list N) : exists n, lstrip p s = drop n s.
Proof.
  induction s as [|c s [n IH]]; [by exists 0%nat|]. simpl.
  destruct (p c); [by exists (S n)|by exists 0%nat].
Qed.

Lemma rstrip_take (p : N -> bool) (s : list N) : exists n, rstrip p s = take n s.
Proof.
  unfold rstrip. destruct (lstrip_drop p (rev s)) as [n ->].
  exists (length s - n)%nat. by rewrite skipn_rev, rev_involutive.
Qed.

Lemma lstrip_head (p : N -> bool) (s : list N) (c : N) :
  head (lstrip p s) = Some c -> p c = false.
Proof.
  induction s as [|a s IH]; [done|]. simpl.
  destruct (p a) eqn:E; [done|]. simpl. by intros [= <-].
Qed.

Lemma head_take {A} (n : nat) (l : list A) (x : A) :
  head (take n l) = Some x -> head l = Some x.
Proof. by destruct n, l. Qed.

Lemma strip_head (p : N -> bool) (s : list N) (c : N) :
  head (strip p s) = Some c -> p c = false.
Proof.
  unfold strip. destruct (rstrip_take p (lstrip p s)) as [n ->].
  intros H%head_take. by apply lstrip_head in H.
Qed.

(** [strip] cuts a contiguous piece out of the text. *)
Lemma strip_infix (p : N -> bool) (s : list N) :
  exists n m, strip p s = take m (drop n s).
Proof.
  unfold strip. destruct (lstrip_drop p s) as [n ->].
  destruct (rstrip_take p (drop n s)) as [m ->]. by exists n, m.
Qed.

Lemma no_double_hyphen_infix (s : list N) (n m : nat) :
  no_double_hyphen s -> no_double_hyphen (take m (drop n s)).
Proof.
  intros H i Hi Hi'.
  apply lookup_take_Some in Hi as [Hi _]. apply lookup_take_Some in Hi' as [Hi' _].
  rewrite lookup_drop in Hi, Hi'. apply (H (n + i)%nat Hi).
  by rewrite <- Nat.add_succ_r.
Qed.

Lemma sub_runs_chars (b : bool) (s : list N) :
  Forall (fun c => slug_char c = true \/ c = 45%N) (sub_runs b s).
Proof.
  revert b. induction s as [|c s IH]; intros b; simpl; [constructor|].
  destruct (slug_char c) eqn:E; [constructor; auto|].
  destruct b; [apply IH|constructor; auto].
Qed.

Lemma sub_runs_no_double (b : bool) (s : list N) :
  no_double_hyphen (sub_runs b s) /\
  (b = true -> head (sub_runs b s) <> Some 45%N).
Proof.
  revert b. induction s as [|c s IH]; intros b; simpl.
  - split; [by intros i|done].
  - destruct (slug_char c) eqn:E.
    + destruct (IH false) as [IH1 _]. split.
      * intros [|i]; simpl; [|apply IH1].
        intros [= ->]. done.
      * simpl. intros _ [= ->]. done.
    + destruct (IH true) as [IH1 IH2]. destruct b; [done|]. split; [|done].
      intros [|i]; simpl; [|apply IH1].
      intros _ H. apply IH2; [done|]. by destruct (sub_runs true s).
Qed.

(** X10: a slug is at most 60 characters long, consists of the characters
    a-z, 0-9, U+4E00..U+9FFF and hyphens, does not begin with a hyphen and has
    no two hyphens in a row. *)
Theorem _slugify_shape (lower : list N -> list N) (text : list N) :
  (length (_slugify lower text) <= 60)%nat /\
  Forall (fun c => slug_char c = true \/ c = 45%N) (_slugify lower text) /\
  head (_slugify lower text) <> Some 45%N /\
  no_double_hyphen (_slugify lower text).
Proof.
  unfold _slugify.
  destruct (strip_infix is_hyphen (sub_runs false (strip is_space (lower text))))
    as (n & m & E).
  split; [rewrite length_take; lia|]. split; [|split].
  - apply Forall_take. rewrite E. apply Forall_take, Forall_drop, sub_runs_chars.
  - intros H%head_take. by apply strip_head in H.
  - rewrite E, take_take. apply no_double_hyphen_infix, sub_runs_no_double.
Qed.

Lemma lstrip_Exists (p q : N -> bool) (s : list N) :
  (forall c, q c = true -> p c = false) ->
  Exists (fun c => q c = true) s -> Exists (fun c => q c = true) (lstrip p s).
Proof.
  intros Hpq. induction 1 as [c s Hc|c s Hs IH]; simpl.
  - rewrite (Hpq c Hc). by left.
  - destruct (p c); [done|]. by right.
Qed.

Lemma Exists_rev_iff {A} (P : A -> Prop) (l : list A) : Exists P (rev l) <-> Exists P l.
Proof.
  rewrite !Exists_exists. setoid_rewrite list_elem_of_In.
  by setoid_rewrite <- in_rev.
Qed.

Lemma strip_Exists (p q : N -> bool) (s : list N) :
  (forall c, q c = true -> p c = false) ->
  Exists (fun c => q c = true) s -> Exists (fun c => q c = true) (strip p s).
Proof.
  intros Hpq H. unfold strip, rstrip.
  apply Exists_rev_iff, lstrip_Exists; [done|].
  by apply Exists_rev_iff, lstrip_Exists.
Qed.

Lemma sub_runs_Exists (b : bool) (s : list N) :
  Exists (fun c => slug_char c = true) s ->
  Exists (fun c => slug_char c = true) (sub_runs b s).
Proof.
  intros H. revert b. induction H as [c s Hc|c s _ IH]; intros b; simpl.
  - rewrite Hc. by left.
  - destruct (slug_char c) eqn:E; [by left|].
    destruct b; [apply IH|right; apply IH].
Qed.

Lemma sub_runs_no_slug_char (s : list N) :
  Forall (fun c => slug_char c = false) s ->
  sub_runs true s = [] /\ (sub_runs false s = [] \/ sub_runs false s = [45%N]).
Proof.
  induction 1 as [|c s Hc _ [IH1 IH2]]; simpl; [auto|].
  rewrite Hc, IH1. auto.
Qed.

Lemma slug_char_not_space (c : N) : slug_char c = true -> is_space c = false.
Proof.
  unfold slug_char, is_space.
  rewrite !orb_true_iff, !andb_true_iff, !orb_false_iff, !andb_false_iff.
  rewrite !N.leb_le, !N.leb_gt, !N.eqb_neq. intros H. repeat split; lia.
Qed.

Lemma slug_char_not_hyphen (c : N) : slug_char c = true -> is_hyphen c = false.
Proof.
  unfold slug_char, is_hyphen.
  rewrite !orb_true_iff, !andb_true_iff, !N.leb_le, N.eqb_neq. lia.
Qed.

Lemma _slugify_nil (lower : list N -> list N) (text : list N) :
  _slugify lower text = [] <-> Forall (fun c => slug_char c = false) (lower text).
Proof.
  unfold _slugify. split.
  - intros H.
    destruct (Forall_Exists_dec (fun c => slug_char c = false)
                (fun c => slug_char c = true)
                (fun c => match slug_char c as b return {b = false} + {b = true} with
                          | true => right eq_refl
                          | false => left eq_refl
                          end) (lower text)) as [|Hex]; [done|exfalso].
    apply (strip_Exists is_space slug_char _ slug_char_not_space) in Hex.
    apply (sub_runs_Exists false) in Hex.
    apply (strip_Exists is_hyphen slug_char _ slug_char_not_hyphen) in Hex.
    destruct (strip is_hyphen _) as [|c s]; [by apply Exists_nil in Hex|].
    done.
  - intros H.
    destruct (strip_infix is_space (lower text)) as (n & m & ->).
    destruct (sub_runs_no_slug_char (take m (drop n (lower text))))
      as [_ [->| ->]]; [by apply Forall_take, Forall_drop|done|done].
Qed.

(** X11: the slug is empty exactly when the lower-cased text ([lower] is
    [str.lower()], whatever it returns) has no character of a-z, 0-9 or
    U+4E00..U+9FFF; the fallback gives item number [i] the positional id
    [item-i] in that case, and the slug of its title in every other. *)
Theorem _slugify_empty_iff (lower : list N -> list N) (text : list N) :
  (_slugify lower text = [] <-> Forall (fun c => slug_char c = false) (lower text)) /\
  (forall i item, title item = text ->
     story_id lower i item
     = if bool_decide (Forall (fun c => slug_char c = false) (lower text))
       then u "item-" ++ str_of_nat i else _slugify lower text).
Proof.
  split; [apply _slugify_nil|].
  intros i item <-. case_bool_decide as H.
  - apply story_id_placeholder. by apply _slugify_nil.
  - apply story_id_slug. intros E. by apply H, _slugify_nil.
Qed.

Lemma or_str_nonempty (x : option (list N)) (d : list N) : d <> [] -> or_str x d <> [].
Proof. by destruct x as [[|c s]|]. Qed.

Lemma fmap_imap_const {A B C} (f : nat -> A -> B) (g : B -> C) (h : A -> C)
    (l : list A) :
  (forall i x, g (f i x) = h x) -> g <$> imap f l = h <$> l.
Proof.
  revert f. induction l as [|x l IH]; intros f H; [done|].
  cbn [imap fmap list_fmap]. f_equal; [apply H|].
  apply IH. intros i y. apply H.
Qed.

Section FallbackMore.
Variable lower : list N -> list N.
Variable coerce_int : json -> option Z.
Hypothesis coerce_int_JInt : forall z, coerce_int (JInt z) = Some z.

(** X12: the fallback digest lists the first 12 items in their order, with
    their titles and URLs; with at least one item it has exactly one section,
    named "Other", whose items refer, position by position, to the ids of the
    top stories, and with no item it has no section; its tag index, search
    summaries and duplicates are empty. *)
Theorem mock_digest_structure (today : list N) (items : list DigestItemInput)
    (all_count : Z) :
  exists d,
    _mock_digest lower coerce_int today items all_count = Some d /\
    TopStory.title <$> DigestOutput.top_stories d = title <$> take 12 items /\
    TopStory.url <$> DigestOutput.top_stories d = url <$> take 12 items /\
    (items = [] -> DigestOutput.sections d = []) /\
    (items <> [] ->
     exists sec,
       DigestOutput.sections d = [sec] /\
       DigestSection.name sec = u "Other" /\
       SectionItem.ref_id <$> DigestSection.items sec
         = TopStory.id <$> DigestOutput.top_stories d) /\
    DigestOutput.generated_at d = today /\
    DigestOutput.tag_index d = [] /\
    DigestOutput.search_summaries d = [] /\
    DigestOutput.duplicates d = [].
Proof using coerce_int_JInt.
  exists (mock_output lower today items all_count).
  split; [by apply _mock_digest_value|].
  cbn [mock_output DigestOutput.top_stories DigestOutput.sections
       DigestOutput.generated_at DigestOutput.tag_index
       DigestOutput.search_summaries DigestOutput.duplicates].
  split; [by apply fmap_imap_const|]. split; [by apply fmap_imap_const|].
  split; [by intros ->|]. split; [|done].
  intros Hne. destruct items as [|x items]; [done|].
  eexists. split; [reflexivity|]. split; [done|].
  cbn [DigestSection.items].
  rewrite !fmap_imap. by apply imap_ext.
Qed.

(** X13: every fallback story keeps within the card limits: the subtitle is
    the first 40 characters of the title at most, the one-liner the first 26,
    each of the three bullets has at most 22 characters, the read time is at
    least 1 minute, and source, date and tags are never empty. *)
Theorem mock_story_limits (today : list N) (items : list DigestItemInput)
    (all_count : Z) :
  exists d,
    _mock_digest lower coerce_int today items all_count = Some d /\
    Forall (fun s =>
              TopStory.subtitle s = take 40 (TopStory.title s) /\
              TopStory.one_liner s = take 26 (TopStory.title s) /\
              Forall (fun b => (length b <= 22)%nat) (TopStory.bullets s) /\
              1 <= TopStory.read_time_min s /\
              TopStory.source s <> [] /\ TopStory.date s <> [] /\
              TopStory.tags s <> [])
           (DigestOutput.top_stories d).
Proof using coerce_int_JInt.
  exists (mock_output lower today items all_count).
  split; [by apply _mock_digest_value|].
  cbn [mock_output DigestOutput.top_stories].
  apply Forall_forall. intros s (i & it & -> & _)%elem_of_lookup_imap.
  cbn [mock_story TopStory.subtitle TopStory.title TopStory.one_liner
       TopStory.bullets TopStory.read_time_min TopStory.source TopStory.date
       TopStory.tags].
  split; [done|]. split; [done|]. split.
  - repeat (constructor; [rewrite length_take; lia|]). constructor.
  - split; [lia|]. split; [by apply or_str_nonempty|].
    split; [by apply or_str_nonempty|]. by destruct (tags it).
Qed.

End FallbackMore.

(** * Further properties of the curator *)

Section CuratorMore.
Variable lower : list N -> list N.
Variable coerce_int : json -> option Z.
Variable json_loads : list N -> option json.
Variable model_dump_json : DigestOutput.t -> outcome (list N).
Variable chat_completion : list N -> list N -> list json -> Z -> nat -> llm_reply.
Hypothesis coerce_int_JInt : forall z, coerce_int (JInt z) = Some z.

Local Abbreviation generate := (generate_digest_json lower coerce_int json_loads model_dump_json chat_completion).
Local Abbreviation validate_text := (model_validate_json coerce_int json_loads).
Local Abbreviation llm := (llm_digest coerce_int json_loads chat_completion).
Local Abbreviation put := (_cache_put model_dump_json).
Local Abbreviation store := (store_and_return model_dump_json).
Local Abbreviation after_hash := (generate_after_hash lower coerce_int json_loads model_dump_json chat_completion coerce_int_JInt).

Lemma _cache_put_frame (cache : gmap (list N) (list N)) (h h' : list N)
    (d : DigestOutput.t) :
  h' <> h -> (put cache h d).2 !! h' = cache !! h'.
Proof.
  intros Hne.
  destruct (_cache_put_cases model_dump_json cache h d)
    as [(t & _ & _ & ->)|[(e & _ & ->)|(t & _ & _ & ->)]]; cbn [snd];
    by rewrite ?lookup_insert_ne.
Qed.

(** What [store_and_return] leaves: entries other than [h] are untouched;
    with the cache off nothing is written; the digest is returned unless the
    write raises. *)
Lemma store_and_return_cases (cache : gmap (list N) (list N)) (h : list N)
    (d : DigestOutput.t) (use_cache : bool) :
  (forall h', h' <> h -> (store cache h d use_cache).2 !! h' = cache !! h') /\
  (use_cache = false -> store cache h d use_cache = (Returned d, cache)) /\
  ((exists text, use_cache = true /\ model_dump_json d = Returned text /\
      has_surrogate text = false /\
      store cache h d use_cache = (Returned d, <[h := text]> cache)) \/
   use_cache = false \/
   (exists e, use_cache = true /\ (store cache h d use_cache).1 = Raised e /\
      put cache h d = (Raised e, (store cache h d use_cache).2))).
Proof.
  unfold store_and_return. destruct use_cache; [|by auto].
  split; [|split; [done|]].
  - intros h' Hne. rewrite <- (_cache_put_frame cache h h' d Hne).
    by destruct (_cache_put _ _ _ _) as [[r|e] c].
  - destruct (_cache_put_cases model_dump_json cache h d)
      as [(t & Ht & Hs & ->)|[(e & _ & ->)|(t & _ & _ & ->)]]; cbn [fst snd].
    + left. by exists t.
    + right. right. by exists e.
    + right. right. by exists UnicodeEncodeError.
Qed.

Lemma store_and_return_Returned (cache cache' : gmap (list N) (list N))
    (h : list N) (d d' : DigestOutput.t) :
  store cache h d true = (Returned d', cache') ->
  d' = d /\ exists text, model_dump_json d = Returned text /\ cache' = <[h := text]> cache.
Proof.
  destruct (store_and_return_cases cache h d true)
    as (_ & _ & [(t & _ & Ht & _ & ->)|[?|(e & _ & He & _)]]); [|done|].
  - intros [= <- <-]. split; [done|]. by exists t.
  - intros H. rewrite H in He. discriminate.
Qed.

Lemma _items_hash_perm (items items' : list DigestItemInput) :
  item_key <$> items' ≡ₚ item_key <$> items -> _items_hash items' = _items_hash items.
Proof. intros Hp. unfold _items_hash. by rewrite (sorted_strs_Permutation _ _ Hp). Qed.

(** X14: with [use_cache=False] the cache directory is neither read nor
    written.  When no title and no URL holds a surrogate the call returns a
    digest, the same whatever the directory holds, and leaves the directory
    as it was; otherwise it raises [UnicodeEncodeError] (the fingerprint is
    computed even though it is not used), again leaving the directory as it
    was. *)
Theorem generate_digest_json_without_cache (settings : Settings) (today : list N)
    (cache cache' : gmap (list N) (list N)) (items : list DigestItemInput)
    (all_count : Z) :
  (keys_encodable items ->
   exists d,
     generate settings today cache items all_count false = (Returned d, cache) /\
     generate settings today cache' items all_count false = (Returned d, cache')) /\
  (~ keys_encodable items ->
   generate settings today cache items all_count false
     = (Raised UnicodeEncodeError, cache) /\
   generate settings today cache' items all_count false
     = (Raised UnicodeEncodeError, cache')).
Proof using coerce_int_JInt.
  split.
  - intros Hk. apply _items_hash_is_Some in Hk as [h Hh].
    rewrite !(after_hash _ _ h) by done.
    destruct (openai_api_key settings) as [[|k key]|]; try by eexists.
    destruct (llm_digest _ _ _ _ _ _ _) as [d|]; by eexists.
  - intros Hk. unfold generate_digest_json.
    destruct (_items_hash items) as [h|] eqn:E; [|done].
    exfalso. apply Hk, _items_hash_is_Some. by exists h.
Qed.


(** X16: a second call finds what the first one stored.  After a call with
    the cache on that found no entry and returned a digest, any later call
    with the cache on, for items with the same [title|url] keys in any order
    (whatever their other fields, the settings, the date and the total),
    returns the first call's digest and leaves the directory alone, provided
    the text the serializer writes for the digest reads back as the digest. *)
Theorem generate_digest_json_second_call (settings settings' : Settings)
    (today today' : list N) (cache cache1 : gmap (list N) (list N))
    (items items' : list DigestItemInput) (all_count all_count' : Z)
    (d : DigestOutput.t) :
  (forall h, _items_hash items = Some h -> cache !! h = None) ->
  generate settings today cache items all_count true = (Returned d, cache1) ->
  (forall text, model_dump_json d = Returned text -> validate_text text = Some d) ->
  item_key <$> items' ≡ₚ item_key <$> items ->
  generate settings' today' cache1 items' all_count' true = (Returned d, cache1).
Proof using coerce_int_JInt.
  intros Hmiss Hfirst Hround Hperm.
  destruct (_items_hash items) as [h|] eqn:Hh; cycle 1.
  { unfold generate_digest_json in Hfirst. rewrite Hh in Hfirst. discriminate. }
  specialize (Hmiss h eq_refl).
  assert (exists c text, model_dump_json d = Returned text /\ cache1 = <[h := text]> c)
    as (c & text & Hd & ->).
  { rewrite (after_hash _ _ h) in Hfirst by done.
    destruct (openai_api_key settings) as [[|k key]|];
      try (apply store_and_return_Returned in Hfirst as (-> & t & ? & ?); by exists cache, t).
    destruct (llm_digest _ _ _ _ _ _ _) as [d0|];
      [|apply store_and_return_Returned in Hfirst as (-> & t & ? & ?); by exists cache, t].
    destruct (store_and_return _ cache h d0 true) as [[r|e0] c0] eqn:Es.
    - injection Hfirst as -> ->.
      apply store_and_return_Returned in Es as (-> & t & ? & ?). by exists cache, t.
    - apply store_and_return_Returned in Hfirst as (-> & t & ? & ?). by exists c0, t. }
  apply (generate_digest_json_hit lower coerce_int json_loads model_dump_json
           chat_completion settings' today' h text).
  - by rewrite (_items_hash_perm items items').
  - apply lookup_insert_eq.
  - by apply Hround.
Qed.

(** X17: the fallback.  With a key configured, the fingerprint computed and
    no cache entry under it, a failure of the [try] block (the request
    raises, the reply is not JSON or does not validate) does not escape: the
    call returns the fallback digest for the same items and total, leaving
    the directory alone when the cache is off and storing the digest under
    the fingerprint when the cache is on and the write succeeds. *)
Theorem generate_digest_json_degrades (settings : Settings) (today key h : list N)
    (cache : gmap (list N) (list N)) (items : list DigestItemInput)
    (all_count : Z) (use_cache : bool) :
  openai_api_key settings = Some key -> key <> [] ->
  _items_hash items = Some h ->
  (use_cache = true -> cache !! h = None) ->
  llm settings key items all_count = None ->
  let fallback := mock_output lower today items all_count in
  _mock_digest lower coerce_int today items all_count = Some fallback /\
  (use_cache = false ->
   generate settings today cache items all_count use_cache = (Returned fallback, cache)) /\
  (forall text, use_cache = true ->
     model_dump_json fallback = Returned text -> has_surrogate text = false ->
     generate settings today cache items all_count use_cache
       = (Returned fallback, <[h := text]> cache)).
Proof using coerce_int_JInt.
  intros Hkey Hne Hh Hmiss Hllm fallback.
  split; [by apply _mock_digest_value|].
  rewrite (after_hash _ _ h) by done. rewrite Hkey, Hllm.
  destruct key as [|k key]; [done|].
  split.
  - intros ->. reflexivity.
  - intros text -> Hd Hs. by apply store_and_return_written.
Qed.

(** X18: a generated digest.  With a key configured, the fingerprint
    computed and no cache entry under it, a digest the [try] block obtains
    is returned, and stored under the fingerprint when the cache is on and
    the write succeeds; when that write raises, the exception is caught like
    any other of the [try] block and the call goes on with the fallback
    digest, written over what the failed write left. *)
Theorem generate_digest_json_generated (settings : Settings) (today key h : list N)
    (cache : gmap (list N) (list N)) (items : list DigestItemInput)
    (all_count : Z) (use_cache : bool) (d : DigestOutput.t) :
  openai_api_key settings = Some key -> key <> [] ->
  _items_hash items = Some h ->
  (use_cache = true -> cache !! h = None) ->
  llm settings key items all_count = Some d ->
  (use_cache = false ->
   generate settings today cache items all_count use_cache = (Returned d, cache)) /\
  (forall text, use_cache = true ->
     model_dump_json d = Returned text -> has_surrogate text = false ->
     generate settings today cache items all_count use_cache
       = (Returned d, <[h := text]> cache)) /\
  (forall e cache', use_cache = true ->
     put cache h d = (Raised e, cache') ->
     generate settings today cache items all_count use_cache
       = store cache' h (mock_output lower today items all_count) true).
Proof using coerce_int_JInt.
  intros Hkey Hne Hh Hmiss Hllm.
  rewrite (after_hash _ _ h) by done. rewrite Hkey, Hllm.
  destruct key as [|k key]; [done|].
  split; [|split].
  - intros ->. reflexivity.
  - intros text -> Hd Hs. by rewrite (store_and_return_written _ _ _ text).
  - intros e cache' -> Hput. by rewrite (store_and_return_raised _ _ cache' _ _ e).
Qed.

End CuratorMore.

(** * Defaults of the schema and the [digest-json] command *)

Section ValidationDefaults.
Variable coerce_int : json -> option Z.

Lemma with_default_Some {A} (v : json -> option A) (key : string) (d a : A)
    (f : list (list N * json)) :
  with_default v key d f = Some a -> get (u key) f = None -> a = d.
Proof. unfold with_default. intros H Hg. rewrite Hg in H. congruence. Qed.

(** X19: an accepted candidate that leaves out [schema_version],
    [tag_index], [search_summaries] or [duplicates] gets the defaults
    ["v1"], the empty index and the empty lists. *)
Theorem validated_digest_defaults (f : list (list N * json)) (d : DigestOutput.t) :
  DigestOutput_model_validate coerce_int (JObj f) = Some d ->
  (get (u "schema_version") f = None -> DigestOutput.schema_version d = u "v1") /\
  (get (u "tag_index") f = None -> DigestOutput.tag_index d = []) /\
  (get (u "search_summaries") f = None -> DigestOutput.search_summaries d = []) /\
  (get (u "duplicates") f = None -> DigestOutput.duplicates d = []).
Proof.
  unfold DigestOutput_model_validate. cbn [as_obj mbind option_bind]. intros H.
  simplify_option_eq.
  cbn [DigestOutput.schema_version DigestOutput.tag_index
       DigestOutput.search_summaries DigestOutput.duplicates].
  repeat split; intros Hg; eapply with_default_Some; eauto.
Qed.

End ValidationDefaults.

Section CliFacts.
Variable lower : list N -> list N.
Variable strptime : list N -> list N -> option Z.
Variable coerce_int : json -> option Z.
Variable json_loads : list N -> option json.
Variable model_dump_json : DigestOutput.t -> outcome (list N).
Variable chat_completion : list N -> list N -> list json -> Z -> nat -> llm_reply.
Hypothesis coerce_int_JInt : forall z, coerce_int (JInt z) = Some z.

Local Abbreviation steps := (digest_json_steps lower strptime coerce_int json_loads model_dump_json chat_completion).

(** X20: the [digest-json] command without an API key and with [--no-cache],
    for [top_k >= 0].  For an empty batch it exits with code 0.  For a
    non-empty batch whose ranked items have a title or URL with a surrogate
    it ends with [UnicodeEncodeError].  Otherwise the digest is the fallback
    digest of the ranked items, whose [items_in] is the size of the whole
    batch and which has [min(12, top_k, len(items))] top stories; it is
    written when the serializer returns a text without surrogates, and the
    command ends with the exception of the serializer or of the encoder
    when not.  The cache directory is left alone throughout. *)
Theorem digest_json_without_key (settings : Settings) (today : list N)
    (clock : nat -> Z) (cache : gmap (list N) (list N))
    (items : list DigestItemInput) (top_k : Z) :
  or_str (openai_api_key settings) [] = [] -> 0 <= top_k ->
  let ranked := pre_rank lower strptime clock items top_k in
  let d := mock_output lower today ranked (Z.of_nat (length items)) in
  (items = [] -> steps settings today clock cache items top_k true = (Exit 0, cache)) /\
  (items <> [] -> ~ keys_encodable ranked ->
   steps settings today clock cache items top_k true
     = (Crashed UnicodeEncodeError, cache)) /\
  (items <> [] -> keys_encodable ranked ->
   _mock_digest lower coerce_int today ranked (Z.of_nat (length items)) = Some d /\
   DigestStats.items_in (DigestOutput.stats d) = Z.of_nat (length items) /\
   length (DigestOutput.top_stories d)
     = Nat.min 12 (Nat.min (Z.to_nat top_k) (length items)) /\
   DigestStats.top_stories_count (DigestOutput.stats d)
     = Z.of_nat (length (DigestOutput.top_stories d)) /\
   (forall text, model_dump_json d = Returned text -> has_surrogate text = false ->
      steps settings today clock cache items top_k true = (Written d text, cache)) /\
   (forall text, model_dump_json d = Returned text -> has_surrogate text = true ->
      steps settings today clock cache items top_k true
        = (Crashed UnicodeEncodeError, cache)) /\
   (forall e, model_dump_json d = Raised e ->
      steps settings today clock cache items top_k true = (Crashed e, cache))).
Proof using coerce_int_JInt.
  intros Hkey Hk ranked d. split; [by intros ->|]. split.
  - intros Hne Henc. unfold digest_json_steps. destruct items as [|x items]; [done|].
    fold ranked. unfold generate_digest_json.
    destruct (_items_hash ranked) as [h|] eqn:E; [|done].
    exfalso. apply Henc, _items_hash_is_Some. by exists h.
  - intros Hne Henc. apply _items_hash_is_Some in Henc as [h Hh].
    split; [by apply _mock_digest_value|].
    split; [done|]. split.
    { cbn [d mock_output DigestOutput.top_stories].
      rewrite length_imap, length_take. unfold ranked.
      by rewrite length_pre_rank by done. }
    split.
    { cbn [d mock_output DigestOutput.stats DigestOutput.top_stories
           DigestStats.top_stories_count].
      by rewrite length_imap. }
    assert (steps settings today clock cache items top_k true
            = match model_dump_json d with
              | Returned text =>
                  match encode_utf8 text with
                  | Some _ => (Written d text, cache)
                  | None => (Crashed UnicodeEncodeError, cache)
                  end
              | Raised e => (Crashed e, cache)
              end) as ->.
    { unfold digest_json_steps. destruct items as [|x items]; [done|].
      fold ranked. cbn [negb].
      rewrite (generate_digest_json_no_key lower coerce_int json_loads model_dump_json
                 chat_completion coerce_int_JInt _ _ h) by done.
      reflexivity. }
    unfold encode_utf8. split; [|split].
    + intros text -> ->. reflexivity.
    + intros text -> ->. reflexivity.
    + intros e ->. reflexivity.
Qed.

End CliFacts.

(** * Whitespace, words and the content hash *)

Lemma lstrip_app (p : N -> bool) (a b : list N) :
  lstrip p (a ++ b) = match lstrip p a with [] => lstrip p b | r => r ++ b end.
Proof.
  induction a as [|c a IH]; simpl; [by destruct (lstrip p b)|].
  destruct (p c); [done|done].
Qed.

Lemma rstrip_app (p : N -> bool) (a b : list N) :
  rstrip p (a ++ b) = match rstrip p b with [] => rstrip p a | r => a ++ r end.
Proof.
  unfold rstrip. rewrite rev_app_distr, lstrip_app.
  destruct (lstrip p (rev b)) as [|c r] eqn:E; [done|].
  rewrite rev_app_distr, rev_involutive.
  destruct (rev (c :: r)) eqn:E'; [|done].
  apply (f_equal (@length N)) in E'. rewrite length_rev in E'. done.
Qed.

Lemma rstrip_no_space (w : list N) : no_space w -> rstrip is_space w = w.
Proof.
  induction 1 as [|c w Hc Hw IH]; [done|].
  change (c :: w) with ([c] ++ w). rewrite rstrip_app, IH.
  destruct w; [|done]. unfold rstrip. simpl. by rewrite Hc.
Qed.

Lemma lstrip_collapse_ws (b : bool) (s : list N) :
  lstrip is_space (collapse_ws b s) = collapse_ws true s.
Proof.
  revert b. induction s as [|c s IH]; intros b; [done|]. simpl.
  destruct (is_space c) eqn:E.
  - destruct b; [apply IH|]. simpl. apply IH.
  - simpl. by rewrite E.
Qed.

Lemma split_words_are_words (w s : list N) :
  no_space w -> Forall is_word (split_words w s).
Proof.
  revert w. induction s as [|c s IH]; intros w Hw; simpl.
  - destruct w as [|x w]; [apply List.Forall_nil|].
    apply List.Forall_cons; [by split|apply List.Forall_nil].
  - destruct (is_space c) eqn:E.
    + destruct w as [|x w]; [apply IH, List.Forall_nil|].
      apply List.Forall_cons; [by split|]. apply IH, List.Forall_nil.
    + apply IH, Forall_app. split; [done|].
      apply List.Forall_cons; [done|apply List.Forall_nil].
Qed.

Lemma join_words_nil (ws : list (list N)) :
  Forall is_word ws -> join (u " ") ws = [] -> ws = [].
Proof.
  destruct 1 as [|w ws [Hw _] Hws]; [done|].
  destruct w; [done|]. simpl. by destruct ws.
Qed.

Lemma join_cons (w : list N) (ws : list (list N)) :
  ws <> [] -> join (u " ") (w :: ws) = w ++ 32%N :: join (u " ") ws.
Proof. by destruct ws. Qed.

Lemma rstrip_collapse_ws (s w : list N) :
  no_space w ->
  (w <> [] ->
   rstrip is_space (w ++ collapse_ws false s) = join (u " ") (split_words w s)) /\
  rstrip is_space (collapse_ws true s) = join (u " ") (split_words [] s).
Proof.
  revert w. induction s as [|c s IH]; intros w Hw.
  - split; [|done]. intros Hne. rewrite app_nil_r, rstrip_no_space by done.
    by destruct w.
  - cbn [collapse_ws split_words]. destruct (is_space c) eqn:E.
    + destruct (IH [] ltac:(constructor)) as [_ IH2]. split; [|exact IH2].
      intros Hne. destruct w as [|x w]; [done|].
      pose proof (split_words_are_words [] s ltac:(constructor)) as Hws.
      rewrite rstrip_app.
      change (32%N :: collapse_ws true s) with ([32%N] ++ collapse_ws true s).
      rewrite rstrip_app, IH2.
      destruct (split_words [] s) as [|r R] eqn:ER.
      * simpl. change (rstrip is_space [32%N]) with (@nil N).
        by rewrite rstrip_no_space.
      * rewrite (join_cons (x :: w) (r :: R)) by done.
        destruct (join (u " ") (r :: R)) eqn:EJ; [|done].
        by apply join_words_nil in EJ.
    + assert (no_space (w ++ [c])) as Hwc
        by (apply Forall_app; split; [done|by constructor]).
      destruct (IH (w ++ [c]) Hwc) as [IH1 _]. split.
      * intros _. rewrite <- IH1 by by destruct w.
        by rewrite <- app_assoc.
      * destruct (IH [c] ltac:(by constructor)) as [IH1' _].
        cbn [app]. by rewrite <- IH1'.
Qed.

Lemma split_words_word (a w s : list N) :
  no_space w -> split_words a (w ++ s) = split_words (a ++ w) s.
Proof.
  intros Hw. revert a. induction Hw as [|c w Hc _ IH]; intros a; simpl.
  - by rewrite app_nil_r.
  - rewrite Hc, IH. by rewrite <- app_assoc.
Qed.

Lemma split_join_words (ws : list (list N)) :
  Forall is_word ws -> split (join (u " ") ws) = ws.
Proof.
  unfold split. induction 1 as [|w ws [Hne Hw] Hws IH]; [done|].
  destruct ws as [|r R].
  - cbn [join]. rewrite <- (app_nil_r w) at 1. rewrite split_words_word by done.
    cbn [app split_words]. by destruct w.
  - rewrite join_cons by done. rewrite split_words_word by done.
    cbn [app split_words]. change (is_space 32) with true.
    destruct w; [done|]. by rewrite IH.
Qed.

Lemma normalize_whitespace_join (text : list N) :
  normalize_whitespace text = join (u " ") (split text).
Proof.
  unfold normalize_whitespace, strip, split. rewrite lstrip_collapse_ws.
  exact (proj2 (rstrip_collapse_ws text [] (List.Forall_nil _))).
Qed.

Lemma split_normalize_whitespace (text : list N) :
  split (normalize_whitespace text) = split text.
Proof.
  rewrite normalize_whitespace_join.
  apply split_join_words, split_words_are_words, List.Forall_nil.
Qed.

(** X21: [normalize_whitespace] returns the words of the text (what
    [text.split()] gives) joined by single spaces; so it changes neither the
    words nor their number, and applying it twice changes nothing more. *)
Theorem normalize_whitespace_words (text : list N) :
  normalize_whitespace text = join (u " ") (split text) /\
  split (normalize_whitespace text) = split text /\
  normalize_whitespace (normalize_whitespace text) = normalize_whitespace text.
Proof.
  split; [apply normalize_whitespace_join|].
  split; [apply split_normalize_whitespace|].
  by rewrite (normalize_whitespace_join (normalize_whitespace text)),
    split_normalize_whitespace, normalize_whitespace_join.
Qed.

Lemma split_words_nil (w s : list N) :
  split_words w s = [] <-> w = [] /\ Forall (fun c => is_space c = true) s.
Proof.
  revert w. induction s as [|c s IH]; intros w; cbn [split_words].
  - destruct w; split; try done. by intros [? _].
  - destruct (is_space c) eqn:E.
    + destruct w as [|x w].
      * rewrite IH. split; intros [? H]; split; try done.
        -- by constructor.
        -- by apply Forall_cons in H as [_ ?].
      * split; [done|by intros [? _]].
    + rewrite IH. split.
      * intros [H _]. by destruct w.
      * intros [_ H]. apply Forall_cons in H as [? _]. congruence.
Qed.

(** X22: the record [extract_content] builds counts the words of the text as
    extracted (normalising the whitespace first does not change the count),
    holds those words joined by single spaces, has no word exactly when the
    extracted text is empty or all whitespace, and always has a title. *)
Theorem finish_extract_word_count (text : list N)
    (title_ author_ published_date_ : option (list N)) :
  let e := finish_extract text title_ author_ published_date_ in
  ExtractedContent.word_count e = length (split text) /\
  ExtractedContent.text e = join (u " ") (split text) /\
  (ExtractedContent.word_count e = 0%nat <->
   Forall (fun c => is_space c = true) text) /\
  ExtractedContent.title e <> [].
Proof.
  cbn zeta. unfold finish_extract, ExtractedContent.from_text.
  cbn [ExtractedContent.word_count ExtractedContent.text ExtractedContent.title].
  rewrite split_normalize_whitespace.
  split; [done|]. split; [apply normalize_whitespace_join|]. split.
  - rewrite length_zero_iff_nil. unfold split. rewrite split_words_nil. tauto.
  - by apply or_str_nonempty.
Qed.

Lemma normalize_text_join (lower : list N -> list N) (text : list N) :
  normalize_text lower text = join (u " ") (split (lower text)).
Proof. apply (normalize_whitespace_join (lower text)). Qed.

(** X23: the content hash depends only on the words of the lower-cased text
    ([lower] is [str.lower()], whatever it returns): two texts whose
    lower-cased forms split into the same words, so texts that differ only
    in what [str.lower()] evens out and in the whitespace between, before or
    after the words, have the same hash, or raise alike; the hash is 64
    hexadecimal characters, and the call raises exactly when the normalised
    text holds a surrogate. *)
Theorem compute_content_hash_words (lower : list N -> list N) (a b : list N) :
  (split (lower a) = split (lower b) ->
   compute_content_hash lower a = compute_content_hash lower b) /\
  (forall h, compute_content_hash lower a = Some h ->
     length h = 64%nat /\ Forall (fun c => is_hex c = true) h) /\
  (compute_content_hash lower a = None <->
   has_surrogate (normalize_text lower a) = true).
Proof.
  split; [|split].
  - intros H. unfold compute_content_hash. by rewrite !normalize_text_join, H.
  - unfold compute_content_hash. intros h Hh.
    destruct (encode_utf8 _) as [blob|]; [|discriminate].
    change (Some (SHA256.hexdigest blob) = Some h) in Hh.
    assert (h = SHA256.hexdigest blob) as -> by congruence. clear Hh.
    apply hexdigest_spec.
  - unfold compute_content_hash, encode_utf8.
    destruct (has_surrogate _); cbn; split; congruence.
Qed.

(** * The article slug of render.py *)

Lemma sub_non_alnum_chars (b : bool) (s : list N) :
  Forall (fun c => ascii_slug_char c = true \/ c = 45%N) (sub_non_alnum b s).
Proof.
  revert b. induction s as [|c s IH]; intros b; simpl; [constructor|].
  destruct (ascii_slug_char c) eqn:E; [constructor; auto|].
  destruct b; [apply IH|constructor; auto].
Qed.

Lemma sub_non_alnum_no_double (b : bool) (s : list N) :
  no_double_hyphen (sub_non_alnum b s) /\
  (b = true -> head (sub_non_alnum b s) <> Some 45%N).
Proof.
  revert b. induction s as [|c s IH]; intros b; simpl.
  - split; [by intros i|done].
  - destruct (ascii_slug_char c) eqn:E.
    + destruct (IH false) as [IH1 _]. split.
      * intros [|i]; simpl; [|apply IH1].
        intros [= ->]. done.
      * simpl. intros _ [= ->]. done.
    + destruct (IH true) as [IH1 IH2]. destruct b; [done|]. split; [|done].
      intros [|i]; simpl; [|apply IH1].
      intros _ H. apply IH2; [done|]. by destruct (sub_non_alnum true s).
Qed.

Lemma last_rev_head {A} (l : list A) : last (rev l) = head l.
Proof. destruct l as [|a l]; [done|]. simpl. apply last_snoc. Qed.

Lemma rstrip_last (p : N -> bool) (s : list N) (c : N) :
  last (rstrip p s) = Some c -> p c = false.
Proof. unfold rstrip. rewrite last_rev_head. apply lstrip_head. Qed.

Lemma strip_hyphen_shaped (b : bool) (s : list N) :
  slug_shaped (strip is_hyphen (sub_non_alnum b s)).
Proof.
  destruct (strip_infix is_hyphen (sub_non_alnum b s)) as (n & m & E).
  split.
  - rewrite E. apply Forall_take, Forall_drop, sub_non_alnum_chars.
  - intros H. by apply strip_head in H.
  - intros H. unfold strip in H. by apply rstrip_last in H.
  - rewrite E. apply no_double_hyphen_infix, sub_non_alnum_no_double.
Qed.

Lemma after_hyphen_Some (s r : list N) :
  after_hyphen s = Some r -> exists a, s = a ++ 45%N :: r.
Proof.
  revert r. induction s as [|c s IH]; intros r; simpl; [done|].
  destruct (is_hyphen c) eqn:E.
  - intros [= ->]. exists []. simpl. f_equal.
    unfold is_hyphen in E. by apply N.eqb_eq in E.
  - intros (a & ->)%IH. by exists (c :: a).
Qed.

Lemma after_hyphen_None (s : list N) :
  after_hyphen s = None -> Forall (fun c => c <> 45%N) s.
Proof.
  induction s as [|c s IH]; simpl; [constructor|].
  destruct (is_hyphen c) eqn:E; [done|]. intros H. constructor; [|by apply IH].
  unfold is_hyphen in E. by apply N.eqb_neq in E.
Qed.

Lemma before_last_hyphen_spec (p : list N) :
  (before_last_hyphen p = p /\ Forall (fun c => c <> 45%N) p) \/
  (exists rest, p = before_last_hyphen p ++ 45%N :: rest).
Proof.
  unfold before_last_hyphen. destruct (after_hyphen (rev p)) as [r|] eqn:E.
  - right. apply after_hyphen_Some in E as [a E].
    exists (rev a). rewrite <- (rev_involutive p), E, rev_app_distr. simpl.
    by rewrite <- app_assoc.
  - left. split; [done|]. apply after_hyphen_None in E.
    rewrite Forall_forall in E. apply Forall_forall. intros c Hc.
    apply E. by apply list_elem_of_In, in_rev, list_elem_of_In in Hc.
Qed.

Lemma slice_to_take {A} (l : list A) (k : Z) : exists m, slice_to l k = take m l.
Proof. unfold slice_to. destruct (0 <=? k); eauto. Qed.

Lemma last_not_hyphen (s : list N) : Forall (fun c => c <> 45%N) s -> last s <> Some 45%N.
Proof.
  intros H Hl. apply last_Some in Hl as [l' ->].
  apply Forall_app in H as [_ H]. by apply Forall_cons in H as [? _].
Qed.

(** Cutting a shaped text at any length and dropping what follows the last
    hyphen of the cut leaves a shaped text. *)
Lemma before_last_hyphen_shaped (t : list N) (m : nat) :
  slug_shaped t -> slug_shaped (before_last_hyphen (take m t)).
Proof.
  intros [Hc Hh Hl Hs].
  destruct (before_last_hyphen_spec (take m t)) as [[-> Hno]|[rest E]].
  - split.
    + by apply Forall_take.
    + intros H. by apply head_take in H.
    + by apply last_not_hyphen.
    + rewrite <- (drop_0 t). by apply no_double_hyphen_infix.
  - set (q := before_last_hyphen (take m t)) in *.
    assert (forall i x, (q ++ 45%N :: rest) !! i = Some x -> t !! i = Some x) as Hin.
    { intros i x. rewrite <- E. by intros [? _]%lookup_take_Some. }
    assert (q = take (length q) (take m (drop 0 t))) as Hq.
    { rewrite drop_0, E. by rewrite take_app_length. }
    clearbody q. split.
    + assert (Forall (fun c => ascii_slug_char c = true \/ c = 45%N) (take m t))
        as Hc' by by apply Forall_take.
      rewrite E in Hc'. by apply Forall_app in Hc' as [? _].
    + destruct q as [|c q']; [done|]. simpl. intros [= ->].
      apply Hh. assert (head (take m t) = Some 45%N) as H by by rewrite E.
      by apply head_take in H.
    + intros [q' Hq']%last_Some.
      apply (Hs (length q')).
      * apply Hin. rewrite Hq', <- app_assoc. cbn [app].
        by rewrite list_lookup_middle.
      * apply Hin. rewrite Hq', <- app_assoc. cbn [app].
        rewrite (lookup_app_r q') by lia.
        by replace (S (length q') - length q')%nat with 1%nat by lia.
    + rewrite Hq, take_take. by apply no_double_hyphen_infix.
Qed.

Lemma untitled_shaped : slug_shaped (u "untitled").
Proof.
  split.
  - repeat (constructor; [by left|]). constructor.
  - done.
  - done.
  - intros i Hi. do 8 (destruct i as [|i]; [done|]). done.
Qed.

Section SlugifyFacts.
Variable nfkd : list N -> list N.
Variable lower : list N -> list N.

(** X24: an article slug is never empty, consists of a-z, 0-9 and single
    hyphens with no hyphen at either end, and, for [max_length >= 0], is
    either ["untitled"] or at most [max_length] characters long. *)
Theorem slugify_shape (text : list N) (max_length : Z) :
  slugify nfkd lower text max_length <> [] /\
  slug_shaped (slugify nfkd lower text max_length) /\
  (0 <= max_length ->
   slugify nfkd lower text max_length = u "untitled" \/
   Z.of_nat (length (slugify nfkd lower text max_length)) <= max_length).
Proof.
  unfold slugify. cbn zeta.
  set (t := strip is_hyphen (sub_non_alnum false (lower (ascii_only (nfkd text))))).
  assert (slug_shaped t) as Ht by apply strip_hyphen_shaped.
  set (q := if max_length <? Z.of_nat (length t)
            then before_last_hyphen (slice_to t max_length) else t).
  assert (slug_shaped q) as Hq.
  { subst q. destruct (max_length <? Z.of_nat (length t)); [|done].
    destruct (slice_to_take t max_length) as [m ->].
    by apply before_last_hyphen_shaped. }
  assert (0 <= max_length -> Z.of_nat (length q) <= max_length) as Hlen.
  { intros H0. subst q. destruct (max_length <? Z.of_nat (length t)) eqn:E.
    - unfold slice_to. apply Z.leb_le in H0. rewrite H0.
      destruct (before_last_hyphen_spec (take (Z.to_nat max_length) t))
        as [[-> _]|[rest Hr]].
      + rewrite length_take. apply Z.leb_le in H0. lia.
      + apply (f_equal (@length N)) in Hr.
        rewrite length_take, length_app in Hr. apply Z.leb_le in H0. lia.
    - apply Z.ltb_ge in E. lia. }
  clearbody q. clear Ht. clearbody t.
  split; [by apply or_str_nonempty|].
  destruct q as [|c q'] eqn:Eq.
  - split; [apply untitled_shaped|]. intros _. by left.
  - split; [done|]. intros H0. right. by apply Hlen.
Qed.

End SlugifyFacts.

(** * The seen file: loading, recording and the duplicate test *)

Lemma str_eqb_eq (a b : list N) : str_eqb a b = true <-> a = b.
Proof.
  revert b. induction a as [|x a IH]; intros [|y b]; cbn; try (split; congruence).
  rewrite andb_true_iff, N.eqb_eq, IH. split; [intros [-> ->]; reflexivity | intros [= -> ->]; auto].
Qed.

Lemma str_eqb_refl (a : list N) : str_eqb a a = true.
Proof. by apply str_eqb_eq. Qed.

Lemma str_eqb_neq (a b : list N) : a <> b -> str_eqb a b = false.
Proof.
  intros H. destruct (str_eqb a b) eqn:E; [|reflexivity].
  by apply str_eqb_eq in E.
Qed.

Lemma dict_get_set {V} (k k' : list N) (v : V) (d : list (list N * V)) :
  dict_get k (dict_set k' v d) = if str_eqb k' k then Some v else dict_get k d.
Proof.
  induction d as [|[k0 v0] d IH]; cbn.
  - reflexivity.
  - destruct (str_eqb k0 k') eqn:E; cbn.
    + apply str_eqb_eq in E. subst k0. by destruct (str_eqb k' k).
    + rewrite IH. destruct (str_eqb k0 k) eqn:E0; [|reflexivity].
      apply str_eqb_eq in E0. subst k0.
      destruct (str_eqb k' k) eqn:E1; [|reflexivity].
      apply str_eqb_eq in E1. subst k'. by rewrite str_eqb_refl in E.
Qed.


Lemma dict_get_None {V} (k : list N) (d : list (list N * V)) :
  dict_get k d = None <-> k ∉ d.*1.
Proof.
  induction d as [|[k0 v0] d IH]; cbn.
  - split; [intros _; apply not_elem_of_nil | reflexivity].
  - destruct (str_eqb k0 k) eqn:E.
    + apply str_eqb_eq in E. subst. split; [discriminate|]. intros []. by left.
    + rewrite IH, not_elem_of_cons.
      assert (k <> k0) by (intros ->; by rewrite str_eqb_refl in E). tauto.
Qed.

Lemma dict_get_elem_of {V} (k : list N) (v : V) (d : list (list N * V)) :
  dict_get k d = Some v -> (k, v) ∈ d.
Proof.
  induction d as [|[k0 v0] d IH]; cbn; [discriminate|].
  destruct (str_eqb k0 k) eqn:E.
  - apply str_eqb_eq in E. intros [= ->]. subst. by left.
  - intros H. right. by apply IH.
Qed.


Lemma dict_set_values_elem_of {V} (k : list N) (v : V) (d : list (list N * V)) :
  v ∈ dict_values (dict_set k v d).
Proof.
  unfold dict_values. induction d as [|[k0 v0] d IH]; cbn.
  - by left.
  - destruct (str_eqb k0 k); cbn; [by left | by right].
Qed.

(** ** The lines of a text *)

Lemma readlines_no_line_end (line text rest : list N) :
  no_line_end text -> readlines line (text ++ rest) = readlines (line ++ text) rest.
Proof.
  intros H. revert line. induction H as [|c text [H10 H13] _ IH]; intros line.
  - by rewrite app_nil_r.
  - cbn [app readlines].
    rewrite (proj2 (N.eqb_neq c 10) H10), (proj2 (N.eqb_neq c 13) H13).
    rewrite IH. by rewrite <- app_assoc.
Qed.

Lemma readlines_one (line : list N) :
  no_line_end line -> readlines [] (line ++ [10%N]) = [line ++ [10%N]].
Proof. intros H. by rewrite readlines_no_line_end. Qed.

Lemma ends_line_cons (c : N) (text : list N) :
  text <> [] -> ends_line (c :: text) -> ends_line text.
Proof. unfold ends_line. destruct text; [done|]. by rewrite last_cons_cons. Qed.

(** Text that ends with a line end is read line by line on its own,
    whatever follows it, unless a U+000D at its end meets a U+000A. *)
Lemma readlines_app (line text rest : list N) :
  text <> [] -> ends_line text -> head rest <> Some 10%N ->
  readlines line (text ++ rest) = readlines line text ++ readlines [] rest.
Proof.
  intros Hne Hend Hrest.
  remember (length text) as n eqn:Hn. revert line text Hne Hend Hn.
  induction n as [n IH] using lt_wf_ind. intros line text Hne Hend ->.
  destruct text as [|c text]; [done|]. cbn [app readlines].
  destruct (c =? 10)%N eqn:E10.
  - destruct text as [|c' text]; [reflexivity|].
    rewrite (IH (length (c' :: text))); [done|simpl; lia|done| |done].
    by apply (ends_line_cons c).
  - destruct (c =? 13)%N eqn:E13.
    + destruct text as [|c' text].
      * cbn [app]. destruct rest as [|r rest]; [done|].
        destruct (decide (r = 10%N)) as [->|Hr]; [by destruct Hrest|].
        by destruct r as [|p]; [|repeat (destruct p as [p|p|]; try done)].
      * assert (ends_line (c' :: text)) as Hend' by by apply (ends_line_cons c).
        destruct (decide (c' = 10%N)) as [->|Hc'].
        -- cbn [app]. destruct text as [|c'' text]; [reflexivity|].
           rewrite (IH (length (c'' :: text))); [done|simpl; lia|done| |done].
           by apply (ends_line_cons 10%N).
        -- assert (forall t,
             match c' :: t with
             | 10%N :: t'' => (line ++ [10%N]) :: readlines [] t''
             | _ => (line ++ [10%N]) :: readlines [] (c' :: t)
             end = (line ++ [10%N]) :: readlines [] (c' :: t)) as Hm.
           { intros t. by destruct c' as [|p]; [|repeat (destruct p as [p|p|]; try done)]. }
           change ((c' :: text) ++ rest) with (c' :: (text ++ rest)).
           rewrite !Hm.
           change (c' :: (text ++ rest)) with ((c' :: text) ++ rest).
           rewrite (IH (length (c' :: text))); [done|simpl; lia|done|done|done].
    + destruct text as [|c' text].
      * exfalso. unfold ends_line in Hend. cbn in Hend.
        apply N.eqb_neq in E10, E13. by destruct Hend.
      * rewrite (IH (length (c' :: text))); [done|simpl; lia|done| |done].
        by apply (ends_line_cons c).
Qed.

Lemma strip_line_end (l : list N) :
  strip is_space (l ++ [10%N]) = strip is_space l.
Proof.
  unfold strip. rewrite lstrip_app.
  destruct (lstrip is_space l) as [|c r] eqn:E; [done|].
  by rewrite rstrip_app.
Qed.

Section SeenFacts.
Variable lower : list N -> list N.
Variable parse_record : list N -> option SeenRecord.t.
Variable dump_record : SeenRecord.t -> outcome (list N).
Variable normalize_url : list N -> list N.

Local Abbreviation load := (load_seen_records parse_record).
Local Abbreviation readl := (read_line parse_record).
Local Abbreviation record := (record_seen dump_record).
Local Abbreviation duplicate := (is_duplicate lower parse_record normalize_url).
Local Abbreviation url_hash_of := (compute_url_hash normalize_url).

Lemma load_line_read (records : list (list N * SeenRecord.t)) (line : list N) :
  load_line parse_record records line =
  match readl line with
  | Some r => dict_set (SeenRecord.url_hash r) r records
  | None => records
  end.
Proof. unfold load_line, read_line. by destruct (strip is_space line). Qed.

Lemma read_line_end (line : list N) : readl (line ++ [10%N]) = readl line.
Proof. unfold read_line. by rewrite strip_line_end. Qed.





(** ** [record_seen] *)

Lemma record_seen_returned (r : SeenRecord.t) (seen_file : option (list N))
    (line : list N) :
  dump_record r = Returned line -> has_surrogate line = false ->
  record r seen_file = (Returned tt, Some (default [] seen_file ++ line ++ [10%N])).
Proof.
  intros Hd Hs. unfold record_seen, encode_utf8.
  rewrite Hd, has_surrogate_app, Hs. reflexivity.
Qed.

Lemma load_default (seen_file : option (list N)) :
  load (Some (default [] seen_file)) = load seen_file.
Proof. by destruct seen_file. Qed.

(** After a text that ends with a line end, a further line is one more turn
    of the loop. *)
Lemma load_append_line (text line : list N) :
  ends_line text -> no_line_end line -> line <> [] ->
  load (Some (text ++ line ++ [10%N]))
  = load_line parse_record (load (Some text)) (line ++ [10%N]).
Proof.
  intros Hend Hline Hne. unfold load_seen_records.
  destruct text as [|c text].
  - cbn [app]. by rewrite readlines_one.
  - rewrite readlines_app; [|done|done|].
    + by rewrite readlines_one, foldl_app.
    + destruct line as [|x line]; [done|]. cbn.
      apply Forall_inv in Hline as [H10 _]. congruence.
Qed.

Lemma read_line_nonempty (line : list N) (r : SeenRecord.t) :
  readl line = Some r -> line <> [].
Proof. by intros H ->. Qed.

Lemma load_after_record_seen (r : SeenRecord.t) (seen_file : option (list N))
    (line : list N) :
  dump_record r = Returned line -> has_surrogate line = false ->
  no_line_end line -> readl line = Some r ->
  ends_line (default [] seen_file) ->
  record r seen_file = (Returned tt, Some (default [] seen_file ++ line ++ [10%N])) /\
  load (Some (default [] seen_file ++ line ++ [10%N]))
  = dict_set (SeenRecord.url_hash r) r (load seen_file).
Proof.
  intros Hd Hs Hl Hr Hend. split; [by apply record_seen_returned|].
  rewrite load_append_line by (done || by apply (read_line_nonempty _ r)).
  by rewrite load_line_read, read_line_end, Hr, load_default.
Qed.

(** X26: [record_seen] followed by [load_seen_records].  When the record is
    serialized to a line without surrogates and without a line end inside
    that reads back as this record, and the file is missing, empty or ends
    with a line end, the call returns and appends the line; afterwards the
    record is found under its [url_hash], and every other hash is looked up
    as before the call. *)
Theorem record_seen_then_load (r : SeenRecord.t) (seen_file : option (list N))
    (line : list N) :
  dump_record r = Returned line -> has_surrogate line = false ->
  no_line_end line -> readl line = Some r ->
  ends_line (default [] seen_file) ->
  let after := default [] seen_file ++ line ++ [10%N] in
  record r seen_file = (Returned tt, Some after) /\
  dict_get (SeenRecord.url_hash r) (load (Some after)) = Some r /\
  (forall h, h <> SeenRecord.url_hash r ->
     dict_get h (load (Some after)) = dict_get h (load seen_file)).
Proof.
  intros Hd Hs Hl Hr Hend after.
  destruct (load_after_record_seen r seen_file line) as [H1 H2]; try done.
  split; [exact H1|]. unfold after. rewrite H2. split.
  - by rewrite dict_get_set, str_eqb_refl.
  - intros h Hh. rewrite dict_get_set, str_eqb_neq; [reflexivity | congruence].
Qed.

(** X27: a last line without a line end swallows the record.  When the
    file ends with a non-empty line [tail] that has no line end, the line
    written by [record_seen] is read together with it as one line; when that
    joint line does not parse, neither the new record nor what [tail] held
    is loaded afterwards. *)
Theorem record_seen_unterminated (r : SeenRecord.t) (pre tail line : list N) :
  dump_record r = Returned line -> has_surrogate line = false ->
  no_line_end line ->
  ends_line pre -> tail <> [] -> no_line_end tail ->
  let after := (pre ++ tail) ++ line ++ [10%N] in
  record r (Some (pre ++ tail)) = (Returned tt, Some after) /\
  load (Some after) = load_line parse_record (load (Some pre)) (tail ++ line) /\
  (readl (tail ++ line) = None -> load (Some after) = load (Some pre)).
Proof.
  intros Hd Hs Hl Hend Hne Htail after.
  split; [by apply (record_seen_returned r (Some (pre ++ tail)))|].
  assert (load (Some after)
          = load_line parse_record (load (Some pre)) ((tail ++ line) ++ [10%N])) as ->.
  { unfold after. rewrite <- !app_assoc.
    replace (tail ++ line ++ [10%N]) with ((tail ++ line) ++ [10%N])
      by by rewrite <- app_assoc.
    apply load_append_line; [done| |by destruct tail].
    by apply Forall_app. }
  rewrite !load_line_read, read_line_end. split; [done|]. by intros ->.
Qed.

(** ** [is_duplicate] *)

Lemma same_content_exists (records : list (list N * SeenRecord.t)) (ch : list N) :
  existsb (fun r => str_eqb (SeenRecord.content_hash r) ch) (dict_values records) = true
  <-> exists r, r ∈ dict_values records /\ SeenRecord.content_hash r = ch.
Proof.
  rewrite existsb_exists. split.
  - intros (r & Hr & E). exists r. split; [by apply list_elem_of_In | by apply str_eqb_eq].
  - intros (r & Hr & E). exists r. split; [by apply list_elem_of_In | by apply str_eqb_eq].
Qed.

(** What [is_duplicate] does once the URL hash is there and is not a key. *)
Lemma is_duplicate_unseen (url_ : list N) (content_ : option (list N))
    (seen_file : option (list N)) (uh : list N) :
  url_hash_of url_ = Some uh -> dict_get uh (load seen_file) = None ->
  duplicate url_ content_ seen_file
  = match content_ with
    | Some (c :: cs) =>
        match compute_content_hash lower (c :: cs) with
        | None => Raised UnicodeEncodeError
        | Some ch =>
            if existsb (fun r => str_eqb (SeenRecord.content_hash r) ch)
                 (dict_values (load seen_file))
            then
              match find (fun r => str_eqb (SeenRecord.content_hash r) ch)
                      (dict_values (load seen_file)) with
              | Some r =>
                  Returned (true, Some (u "Content matches existing: "
                                        ++ SeenRecord.title r))
              | None => Returned (false, None)
              end
            else Returned (false, None)
        end
    | _ => Returned (false, None)
    end.
Proof. intros Hu Hg. unfold is_duplicate. by rewrite Hu, Hg. Qed.


(** X29: a URL is a duplicate once a record with its hash was recorded.
    After a [record_seen] of a record whose [url_hash] is the hash of
    [url_], where the line written has no surrogate and no line end inside
    and reads back as the record, to a file that was missing, empty or ended
    with a line end, [is_duplicate] answers [True] with the reason
    "URL already seen: " and the title of this record, whatever the content
    and whatever the file held before. *)
Theorem is_duplicate_after_record_seen (r : SeenRecord.t)
    (seen_file : option (list N)) (line url_ : list N) (content_ : option (list N)) :
  dump_record r = Returned line -> has_surrogate line = false ->
  no_line_end line -> readl line = Some r ->
  ends_line (default [] seen_file) ->
  url_hash_of url_ = Some (SeenRecord.url_hash r) ->
  duplicate url_ content_ (record r seen_file).2
  = Returned (true, Some (u "URL already seen: " ++ SeenRecord.title r)).
Proof.
  intros Hd Hs Hl Hr Hend Hu.
  destruct (load_after_record_seen r seen_file line) as [H1 H2]; try done.
  rewrite H1. cbn [snd]. unfold is_duplicate. rewrite Hu, H2.
  by rewrite dict_get_set, str_eqb_refl.
Qed.

(** X30: a content is a duplicate once a record with the hash of a text of
    the same words was recorded.  After such a [record_seen] of a record
    whose [content_hash] is the content hash of [text], every content that
    is not empty and whose lower-cased form has the words of the lower-cased
    [text] is reported as a duplicate under any URL that can be hashed. *)
Theorem is_duplicate_same_words (r : SeenRecord.t)
    (seen_file : option (list N)) (line url_ content_ text : list N) :
  dump_record r = Returned line -> has_surrogate line = false ->
  no_line_end line -> readl line = Some r ->
  ends_line (default [] seen_file) ->
  compute_content_hash lower text = Some (SeenRecord.content_hash r) ->
  content_ <> [] ->
  split (lower content_) = split (lower text) ->
  is_Some (url_hash_of url_) ->
  exists reason,
    duplicate url_ (Some content_) (record r seen_file).2 = Returned (true, Some reason).
Proof.
  intros Hd Hs Hl Hr Hend Hc Hne Hw [uh Hu].
  destruct (load_after_record_seen r seen_file line) as [H1 H2]; try done.
  rewrite H1. cbn [snd].
  set (file' := Some (default [] seen_file ++ line ++ [10%N])) in *.
  destruct (dict_get uh (load file')) as [r0|] eqn:Hg.
  { unfold is_duplicate. rewrite Hu, Hg. by eexists. }
  rewrite (is_duplicate_unseen _ _ _ uh) by done.
  assert (compute_content_hash lower content_ = Some (SeenRecord.content_hash r)) as Hc'.
  { rewrite <- Hc. unfold compute_content_hash. by rewrite !normalize_text_join, Hw. }
  destruct content_ as [|c cs]; [done|]. rewrite Hc'.
  assert (existsb (fun r' => str_eqb (SeenRecord.content_hash r') (SeenRecord.content_hash r))
            (dict_values (load file')) = true) as Hex.
  { apply same_content_exists. exists r. split; [|done].
    rewrite H2. apply dict_set_values_elem_of. }
  rewrite Hex.
  destruct (find _ _) as [r1|] eqn:Ef; [by eexists|].
  exfalso. apply existsb_exists in Hex as (r' & Hr' & E).
  by rewrite (find_none _ _ Ef r' Hr') in E.
Qed.

End SeenFacts.

Lemma no_line_end_checked (s : list N) :
  forallb (fun c => negb (c =? 10)%N && negb (c =? 13)%N) s = true -> no_line_end s.
Proof.
  intros H. apply Forall_forall. intros c Hc.
  rewrite forallb_forall in H. apply list_elem_of_In, H in Hc.
  apply andb_true_iff in Hc as [H1 H2].
  apply negb_true_iff, N.eqb_neq in H1, H2. done.
Qed.

Lemma keys_encodable_sample : keys_encodable sample_items.
Proof. apply _items_hash_is_Some. exists sample_hash. vm_compute. reflexivity. Qed.

(** * Sample runs *)

Example pre_rank_sample :
  pre_rank lower_latin1 strptime_ymd (fun _ => now0) sample_items 3
    = [openai_today; unknown_short; unknown_short'].
Proof. vm_compute. reflexivity. Qed.

Example pre_rank_sample_negative :
  pre_rank lower_latin1 strptime_ymd (fun _ => now0) sample_items (-3) = [openai_today].
Proof. vm_compute. reflexivity. Qed.

(** Scores are compared as binary64 values: two items for which the formula
    gives 2.4 over the reals can carry different floats, and then they do not
    tie. *)
Example _items_hash_sample : _items_hash sample_items = Some sample_hash.
Proof. vm_compute. reflexivity. Qed.

Example _items_hash_surrogate : _items_hash [surrogate_title] = None.
Proof. vm_compute. reflexivity. Qed.

Example equal_formula_distinct_floats :
  (weighted_sum 3 3.0 1.0 <? weighted_sum 3 1.0 3.0)%float = true.
Proof. vm_compute. reflexivity. Qed.

Example sha256_constants :
  nth 0 SHA256.K 0 = 0x428a2f98 /\ nth 63 SHA256.K 0 = 0xc67178f2 /\
  SHA256.ha SHA256.H0 = 0x6a09e667 /\ SHA256.hh SHA256.H0 = 0x5be0cd19.
Proof. vm_compute. auto. Qed.

Example sha256_abc :
  SHA256.hexdigest (Z.of_N <$> u "abc")
    = u "ba7816bf8f01cfea414140de5dae2223b00361a396177a9cb410ff61f20015ad".
Proof. vm_compute. reflexivity. Qed.

Example sha256_empty :
  SHA256.hexdigest []
    = u "e3b0c44298fc1c149afbf4c8996fb92427ae41e4649b934ca495991b7852b855".
Proof. vm_compute. reflexivity. Qed.

Example sha256_two_blocks :
  SHA256.hexdigest
    (Z.of_N <$> u "abcdbcdecdefdefgefghfghighijhijkijkljklmklmnlmnomnopnopq")
    = u "248d6a61d20638b8e5c026930c3e6039a33ce45964ff2167f6ecedd419db06c1".
Proof. vm_compute. reflexivity. Qed.

(** A key with a quote, a newline and characters of two, three and four
    UTF-8 bytes. *)
Example _items_hash_unicode :
  _items_hash
    [ {| title := [233; 34; 120; 10]%N; url := [20013; 128512]%N; source := None;
         date := None; snippet := None; content := None; author := None;
         tags := [] |};
      sample_item "a" "b" ]
    = Some (u "a842116370f9866c").
Proof. vm_compute. reflexivity. Qed.

Lemma pre_rank_top_k_witness :
  0 <= 3 /\
  length (pre_rank lower_latin1 strptime_ymd (fun _ => now0) sample_items 3)
    = Nat.min (Z.to_nat 3) (length sample_items).
Proof.
  split; [lia|].
  apply (pre_rank_top_k lower_latin1 strptime_ymd (fun _ => now0) sample_items 3). lia.
Defined.

Lemma pre_rank_negative_top_k_witness :
  -3 < 0 /\
  Z.of_nat (length (pre_rank lower_latin1 strptime_ymd (fun _ => now0) sample_items (-3)))
    = Z.max 0 (Z.of_nat (length sample_items) + -3).
Proof.
  split; [lia|].
  apply (pre_rank_negative_top_k lower_latin1 strptime_ymd (fun _ => now0) sample_items (-3)). lia.
Defined.

Lemma composite_score_scenarios_witness :
  composite_score lower_latin1 strptime_ymd now0 openai_today = 5.0%float /\
  composite_score lower_latin1 strptime_ymd now0 unknown_short = 1.7%float.
Proof.
  split.
  - apply (proj1 (proj2 (proj2 (composite_score_scenarios lower_latin1 strptime_ymd lower_latin1_on_ascii now0 openai_today)))
             (u "2026-11-03") (day 20760) (repeat 120%N (Z.to_nat 6000))).
    + reflexivity.
    + reflexivity.
    + discriminate.
    + vm_compute. reflexivity.
    + unfold now0, day. lia.
    + reflexivity.
    + vm_compute. reflexivity.
  - apply (proj2 (proj2 (proj2 (composite_score_scenarios lower_latin1 strptime_ymd lower_latin1_on_ascii now0 unknown_short)))
             (repeat 120%N 50)).
    + unfold _SOURCE_WEIGHTS.
      repeat (apply List.Forall_cons; [split; vm_compute; reflexivity|]).
      apply List.Forall_nil.
    + reflexivity.
    + reflexivity.
    + reflexivity.
    + reflexivity.
Defined.


Lemma fingerprint_of_key_multiset_witness :
  _items_hash [unknown_short; openai_today; unknown_short]
    = _items_hash [unknown_short; unknown_short; openai_today].
Proof.
  apply fingerprint_of_key_multiset. cbn [fmap list_fmap].
  apply perm_skip, perm_swap.
Defined.

Lemma mock_digest_invariants_witness :
  exists d,
    _mock_digest lower_latin1 int_exact (u "2026-11-03") sample_items 50 = Some d /\
    DigestStats.items_in (DigestOutput.stats d) = 50 /\
    length (DigestOutput.top_stories d) = 4%nat.
Proof.
  destruct (mock_digest_invariants lower_latin1 int_exact (fun z => eq_refl)
              (u "2026-11-03") sample_items 50)
    as (d & H1 & _ & _ & _ & H2 & H3 & _).
  exists d. by repeat split.
Defined.

Example mock_ids_distinct_sample :
  exists d,
    _mock_digest lower_latin1 int_exact (u "2026-11-03") [openai_today; unknown_short] 2 = Some d /\
    NoDup (TopStory.id <$> DigestOutput.top_stories d).
Proof.
  destruct (mock_ids_distinct lower_latin1 int_exact (fun z => eq_refl)
              (u "2026-11-03") [openai_today; unknown_short] 2)
    as (d & H1 & _ & H2).
  - intros [|[|i]] [|[|j]] a b Ha Hb Hne _ Heq;
      vm_compute in Ha, Hb; try discriminate; try lia;
      injection Ha as <-; injection Hb as <-; vm_compute in Heq; discriminate.
  - intros [|[|i]] a j Ha Heq;
      vm_compute in Ha; try discriminate;
      injection Ha as <-; vm_compute in Heq; discriminate.
  - by exists d.
Qed.

Lemma validated_digest_constraints_witness :
  exists d,
    DigestOutput_model_validate int_exact gossip_digest = Some d /\
    Forall (fun s => (3 <= length (TopStory.bullets s) <= 5)%nat /\
                     scores_in_range (TopStory.scores s))
           (DigestOutput.top_stories d).
Proof.
  destruct (DigestOutput_model_validate int_exact gossip_digest) as [d|] eqn:E;
    [|vm_compute in E; discriminate].
  exists d. split; [done|].
  apply (validated_digest_constraints int_exact gossip_digest d E).
Defined.

Lemma generate_digest_json_escapes_witness :
  generate_digest_json lower_latin1 int_exact loads_braces dump_date chat_raises
    settings_with_key (u "2026-11-03") ∅ [surrogate_title] 1 false
  = (Raised UnicodeEncodeError, ∅) /\
  generate_digest_json lower_latin1 int_exact loads_braces dump_first_bullet chat_raises
    settings_with_key (u "2026-11-03") ∅ [surrogate_snippet] 1 true
  = (Raised UnicodeEncodeError, {[ u "854fc922c261afa2" := [] ]}).
Proof.
  split.
  - apply (proj1 (generate_digest_json_escapes lower_latin1 int_exact loads_braces
                    dump_date chat_raises (fun z => eq_refl) settings_with_key
                    (u "2026-11-03") ∅ [surrogate_title] 1)).
    intros H. apply Forall_inv in H as [H _]. vm_compute in H. discriminate.
  - apply (proj2 (generate_digest_json_escapes lower_latin1 int_exact loads_braces
                    dump_first_bullet chat_raises (fun z => eq_refl) settings_with_key
                    (u "2026-11-03") ∅ [surrogate_snippet] 1)
             (u "sk-test") (u "854fc922c261afa2")).
    + reflexivity.
    + discriminate.
    + vm_compute. reflexivity.
    + apply lookup_empty.
    + reflexivity.
    + reflexivity.
Defined.

Lemma generate_digest_json_bad_cache_raises_witness :
  let cache : gmap (list N) (list N) := {[ sample_hash := u "not json" ]} in
  generate_digest_json lower_latin1 int_exact loads_braces dump_date chat_raises
    settings_with_key (u "2026-11-03") cache sample_items 50 true
  = (Raised ValidationError, cache).
Proof.
  intros cache.
  apply (generate_digest_json_bad_cache_raises lower_latin1 int_exact loads_braces
           dump_date chat_raises settings_with_key (u "2026-11-03") sample_hash
           (u "not json")).
  - vm_compute. reflexivity.
  - apply lookup_singleton_eq.
  - reflexivity.
Defined.

(** * Further sample runs *)

Lemma mock_digest_structure_witness :
  exists d,
    _mock_digest lower_latin1 int_exact (u "2026-11-03") sample_items 50 = Some d /\
    TopStory.title <$> DigestOutput.top_stories d = title <$> sample_items.
Proof.
  destruct (mock_digest_structure lower_latin1 int_exact (fun z => eq_refl)
              (u "2026-11-03") sample_items 50) as (d & H1 & H2 & _).
  by exists d.
Defined.

Lemma mock_story_limits_witness :
  exists d,
    _mock_digest lower_latin1 int_exact (u "2026-11-03") sample_items 50 = Some d /\
    Forall (fun s => 1 <= TopStory.read_time_min s) (DigestOutput.top_stories d).
Proof.
  destruct (mock_story_limits lower_latin1 int_exact (fun z => eq_refl)
              (u "2026-11-03") sample_items 50) as (d & H1 & H2).
  exists d. split; [done|].
  eapply Forall_impl; [exact H2|]. intros s H. apply H.
Defined.

Lemma compute_content_hash_words_witness :
  compute_content_hash lower_latin1 (u "Hello World")
    = compute_content_hash lower_latin1 (u "hello   world").
Proof.
  apply (proj1 (compute_content_hash_words lower_latin1 (u "Hello World")
                  (u "hello   world"))).
  vm_compute. reflexivity.
Defined.

Lemma _freshness_score_newer_not_lower_witness :
  (_freshness_score strptime_ymd now0 forum_old
     <=? _freshness_score strptime_ymd now0 openai_today)%float = true.
Proof.
  apply (_freshness_score_newer_not_lower strptime_ymd now0 forum_old openai_today
           (day 18262) (day 20760)).
  - vm_compute. reflexivity.
  - vm_compute. reflexivity.
  - unfold day. lia.
Defined.

Lemma _content_length_score_mono_witness :
  text_len unknown_short <= text_len openai_today /\
  (_content_length_score unknown_short <=? _content_length_score openai_today)%float = true.
Proof.
  assert (text_len unknown_short <= text_len openai_today) as H
    by (apply Z.leb_le; vm_compute; reflexivity).
  split; [exact H|].
  apply (_content_length_score_mono unknown_short openai_today H).
Defined.

Lemma composite_score_mono_witness :
  (composite_score lower_latin1 strptime_ymd now0 unknown_short
     <=? composite_score lower_latin1 strptime_ymd now0 openai_today)%float = true.
Proof.
  apply (composite_score_mono lower_latin1 strptime_ymd now0 now0 unknown_short
           openai_today).
  - apply Z.leb_le. vm_compute. reflexivity.
  - vm_compute. reflexivity.
  - vm_compute. reflexivity.
Defined.

Lemma pre_rank_prefix_witness :
  pre_rank lower_latin1 strptime_ymd (fun _ => now0) sample_items 2
    = take 2 (pre_rank lower_latin1 strptime_ymd (fun _ => now1) sample_items 3).
Proof.
  apply (pre_rank_prefix lower_latin1 strptime_ymd (fun _ => now0) (fun _ => now1)
           sample_items 2 3); [|lia].
  intros [|[|[|[|i]]]] item Hi; cbn in Hi; try discriminate;
    injection Hi as <-; vm_compute; reflexivity.
Defined.

Lemma pre_rank_all_tied_witness :
  pre_rank lower_latin1 strptime_ymd (fun _ => now0) [unknown_short; unknown_short'] 1
    = [unknown_short].
Proof.
  apply (pre_rank_all_tied lower_latin1 strptime_ymd (fun _ => now0)
           [unknown_short; unknown_short'] 1).
  - intros [|[|i]] [|[|j]] a b Ha Hb; cbn in Ha, Hb; try discriminate;
      injection Ha as <-; injection Hb as <-; vm_compute; reflexivity.
  - lia.
Defined.

Lemma generate_digest_json_without_cache_witness :
  exists d,
    generate_digest_json lower_latin1 int_exact loads_braces dump_date chat_raises
      settings_with_key (u "2026-11-03") ∅ sample_items 50 false
    = (Returned d, ∅) /\
    generate_digest_json lower_latin1 int_exact loads_braces dump_date chat_raises
      settings_with_key (u "2026-11-03")
      {[ sample_hash := u "not json" ]} sample_items 50 false
    = (Returned d, {[ sample_hash := u "not json" ]}).
Proof.
  apply (proj1 (generate_digest_json_without_cache lower_latin1 int_exact loads_braces
                  dump_date chat_raises (fun z => eq_refl) settings_with_key
                  (u "2026-11-03") ∅ {[ sample_hash := u "not json" ]}
                  sample_items 50)).
  apply keys_encodable_sample.
Defined.


Lemma generate_digest_json_second_call_witness :
  let d := mock_output lower_latin1 (u "2026-11-03") sample_items 50 in
  let cache1 : gmap (list N) (list N) := <[sample_hash := u "cached"]> ∅ in
  generate_digest_json lower_latin1 int_exact loads_cached dump_cached chat_raises
    settings_with_key (u "2026-11-04") cache1 (reverse sample_items) 4 true
  = (Returned d, cache1).
Proof.
  intros d cache1.
  apply (generate_digest_json_second_call lower_latin1 int_exact loads_cached
           dump_cached chat_raises (fun z => eq_refl) settings_without_key
           settings_with_key (u "2026-11-03") (u "2026-11-04") ∅ cache1 sample_items
           (reverse sample_items) 50 4 d).
  - intros h _. apply lookup_empty.
  - rewrite (generate_digest_json_no_key lower_latin1 int_exact loads_cached
               dump_cached chat_raises (fun z => eq_refl) settings_without_key
               (u "2026-11-03") sample_hash ∅ sample_items 50 true);
      [reflexivity|reflexivity|by vm_compute|].
    intros _. apply lookup_empty.
  - intros text [= <-]. vm_compute. reflexivity.
  - rewrite fmap_reverse. apply reverse_Permutation.
Defined.

Lemma generate_digest_json_degrades_witness :
  generate_digest_json lower_latin1 int_exact loads_braces dump_date chat_raises
    settings_with_key (u "2026-11-03") ∅ sample_items 50 true
  = (Returned (mock_output lower_latin1 (u "2026-11-03") sample_items 50),
     <[sample_hash := u "digest 2026-11-03"]> ∅).
Proof.
  destruct (generate_digest_json_degrades lower_latin1 int_exact loads_braces
              dump_date chat_raises (fun z => eq_refl) settings_with_key
              (u "2026-11-03") (u "sk-test") sample_hash ∅ sample_items 50 true)
    as (_ & _ & H).
  - reflexivity.
  - discriminate.
  - vm_compute. reflexivity.
  - intros _. apply lookup_empty.
  - reflexivity.
  - apply (H (u "digest 2026-11-03")); reflexivity.
Defined.

Lemma generate_digest_json_generated_witness :
  generate_digest_json lower_latin1 int_exact loads_cached dump_date chat_cached
    settings_with_key (u "2026-11-04") ∅ [openai_today] 1 true
  = (Returned (mock_output lower_latin1 (u "2026-11-03") sample_items 50),
     <[u "d16ae125b75cff13" := u "digest 2026-11-03"]> ∅).
Proof.
  destruct (generate_digest_json_generated lower_latin1 int_exact loads_cached
              dump_date chat_cached (fun z => eq_refl) settings_with_key
              (u "2026-11-04") (u "sk-test") (u "d16ae125b75cff13") ∅ [openai_today]
              1 true (mock_output lower_latin1 (u "2026-11-03") sample_items 50))
    as (_ & H & _).
  - reflexivity.
  - discriminate.
  - vm_compute. reflexivity.
  - intros _. apply lookup_empty.
  - vm_compute. reflexivity.
  - apply (H (u "digest 2026-11-03")); reflexivity.
Defined.

Lemma validated_digest_defaults_witness :
  exists d,
    DigestOutput_model_validate int_exact gossip_digest = Some d /\
    DigestOutput.schema_version d = u "v1" /\
    DigestOutput.duplicates d = [].
Proof.
  destruct (DigestOutput_model_validate int_exact gossip_digest) as [d|] eqn:E;
    [|vm_compute in E; discriminate].
  exists d. split; [done|].
  destruct (validated_digest_defaults int_exact _ d E) as (H1 & _ & _ & H4).
  split; [apply H1 | apply H4]; reflexivity.
Defined.

Lemma digest_json_without_key_witness :
  let ranked := pre_rank lower_latin1 strptime_ymd (fun _ => now0) sample_items 3 in
  let d := mock_output lower_latin1 (u "2026-11-03") ranked 4 in
  digest_json_steps lower_latin1 strptime_ymd int_exact loads_braces dump_date
    chat_raises settings_without_key (u "2026-11-03") (fun _ => now0) ∅
    sample_items 3 true
  = (Written d (u "digest 2026-11-03"), ∅) /\
  length (DigestOutput.top_stories d) = 3%nat.
Proof.
  intros ranked d.
  destruct (digest_json_without_key lower_latin1 strptime_ymd int_exact loads_braces
              dump_date chat_raises (fun z => eq_refl) settings_without_key
              (u "2026-11-03") (fun _ => now0) ∅ sample_items 3)
    as (_ & _ & H).
  - reflexivity.
  - lia.
  - destruct H as (_ & _ & H3 & _ & H5 & _).
    + discriminate.
    + apply _items_hash_is_Some. eexists. vm_compute. reflexivity.
    + split; [|exact H3]. apply (H5 (u "digest 2026-11-03")); reflexivity.
Defined.

Lemma record_seen_then_load_witness :
  let after := u "not json" ++ [10%N; 10%N] ++ u "A post" ++ [10%N] in
  record_seen dump_title sample_record (Some (u "not json" ++ [10%N; 10%N]))
    = (Returned tt, Some after) /\
  dict_get (SeenRecord.url_hash sample_record) (load_seen_records parse_title (Some after))
    = Some sample_record.
Proof.
  intros after.
  destruct (record_seen_then_load parse_title dump_title sample_record
              (Some (u "not json" ++ [10%N; 10%N])) (u "A post"))
    as (H1 & H2 & _).
  - reflexivity.
  - reflexivity.
  - by apply no_line_end_checked.
  - reflexivity.
  - left. reflexivity.
  - split; [exact H1 | exact H2].
Defined.

Lemma record_seen_unterminated_witness :
  load_seen_records parse_title
    (record_seen dump_title sample_record (Some (u "A post"))).2 = [].
Proof.
  destruct (record_seen_unterminated parse_title dump_title sample_record
              [] (u "A post") (u "A post")) as (H1 & _ & H3).
  - reflexivity.
  - reflexivity.
  - by apply no_line_end_checked.
  - exact I.
  - discriminate.
  - by apply no_line_end_checked.
  - cbn [app] in H1, H3. rewrite H1. cbn [snd]. apply H3. reflexivity.
Defined.

Lemma is_duplicate_after_record_seen_witness :
  is_duplicate lower_latin1 parse_title lower_latin1 (u "HTTPS://Example.org/post") None
    (record_seen dump_title sample_record None).2
  = Returned (true, Some (u "URL already seen: A post")).
Proof.
  apply (is_duplicate_after_record_seen lower_latin1 parse_title dump_title lower_latin1
           sample_record None (u "A post") (u "HTTPS://Example.org/post") None).
  - reflexivity.
  - reflexivity.
  - by apply no_line_end_checked.
  - reflexivity.
  - exact I.
  - vm_compute. reflexivity.
Defined.

Lemma is_duplicate_same_words_witness :
  exists reason,
    is_duplicate lower_latin1 parse_title lower_latin1 (u "https://example.org/copy")
      (Some (u " hello   WORLD")) (record_seen dump_title sample_record None).2
    = Returned (true, Some reason).
Proof.
  apply (is_duplicate_same_words lower_latin1 parse_title dump_title lower_latin1
           sample_record None (u "A post") (u "https://example.org/copy")
           (u " hello   WORLD") (u "Hello World")).
  - reflexivity.
  - reflexivity.
  - by apply no_line_end_checked.
  - reflexivity.
  - exact I.
  - vm_compute. reflexivity.
  - discriminate.
  - vm_compute. reflexivity.
  - eexists. vm_compute. reflexivity.
Defined.
